(** * socket.ts: the frame codec (packet.ts) and the connection (socket.ts)

    A shallow embedding of the WebSocket client of this repository.

    - JavaScript numbers that hold integers are [Z]; the one place where the
      source computes beyond 2^53 (the 64-bit length of a frame) rounds as a
      double does.
    - A [Buffer] is the list of its bytes.  Storing into a Buffer keeps the low
      eight bits of the value ([to_u8]), as a Uint8Array does.
    - A function of the source either returns, throws, or never returns
      ([result]).
    - Buffers that the connection hands around (a payload given to
      [Packet.frame], which masks it in place) live in a store indexed by
      references, so that two uses of one object see one content. *)

From Stdlib Require Import ZArith Lia Ascii String.
From stdpp Require Import base option list gmap strings pretty.

Local Open Scope Z_scope.

(** ** Outcomes of a call *)

Inductive result (A : Type) : Type :=
| Ok (a : A)              (* the call returns [a] *)
| Throw (msg : string)    (* the call throws [new Error(msg)] (or a RangeError/TypeError of Node) *)
| Loops.                  (* the call never returns *)

Arguments Ok {A} a.
Arguments Throw {A} msg.
Arguments Loops {A}.

#[global] Instance result_ret : MRet result := fun A a => Ok a.
#[global] Instance result_bind : MBind result := fun A B f m =>
  match m with
  | Ok a => f a
  | Throw msg => Throw msg
  | Loops => Loops
  end.

(** ** Buffers *)

Abbreviation Buffer := (list Z) (only parsing).

Definition len (b : Buffer) : Z := Z.of_nat (length b).

Definition is_byte (v : Z) : Prop := 0 <= v < 256.
Definition bytes (b : Buffer) : Prop := Forall is_byte b.

(** [buffer.constants.MAX_LENGTH] is at most 2^53 - 1 on every Node release. *)
Definition MAX_LENGTH : Z := 2 ^ 53 - 1.

(** The value kept by [buf[i] = v]. *)
Definition to_u8 (v : Z) : Z := v mod 256.

(** [buf[i]] inside a bit operation, where [undefined] counts as 0. *)
Definition at_ (b : Buffer) (i : Z) : Z := default 0 (b !! Z.to_nat i).

(** [Buffer.alloc(n)] *)
Definition alloc (n : Z) : Buffer := replicate (Z.to_nat n) 0.

(** [buf.slice(start, end)]; a negative index counts from the end. *)
Definition clamp_index (i : Z) (b : Buffer) : Z :=
  if i <? 0 then Z.max 0 (len b + i) else Z.min i (len b).

Definition slice (b : Buffer) (start stop : Z) : Buffer :=
  let s := clamp_index start b in
  let e := clamp_index stop b in
  take (Z.to_nat (e - s)) (drop (Z.to_nat s) b).

Definition slice_from (b : Buffer) (start : Z) : Buffer := slice b start (len b).

(** [buf.readUInt16BE(offset)] and [buf.readUInt32BE(offset)] *)
Definition readUInt16BE (b : Buffer) (offset : Z) : result Z :=
  if (0 <=? offset) && (offset + 2 <=? len b)
  then Ok (at_ b offset * 256 + at_ b (offset + 1))
  else Throw "ERR_OUT_OF_RANGE".

Definition readUInt32BE (b : Buffer) (offset : Z) : result Z :=
  if (0 <=? offset) && (offset + 4 <=? len b)
  then Ok (at_ b offset * 2 ^ 24 + at_ b (offset + 1) * 2 ^ 16
           + at_ b (offset + 2) * 2 ^ 8 + at_ b (offset + 3))
  else Throw "ERR_OUT_OF_RANGE".

(** [buf[i] = v]; a store outside the buffer is ignored. *)
Definition set_at (b : Buffer) (i : Z) (v : Z) : Buffer :=
  if 0 <=? i then <[Z.to_nat i := to_u8 v]> b else b.

(** [buf.writeUInt16BE(value, offset)] and [buf.writeUInt32BE(value, offset)] *)
Definition writeUInt16BE (b : Buffer) (value offset : Z) : result Buffer :=
  if (0 <=? value) && (value <? 2 ^ 16) && (0 <=? offset) && (offset + 2 <=? len b)
  then Ok (set_at (set_at b offset (value / 2 ^ 8)) (offset + 1) value)
  else Throw "ERR_OUT_OF_RANGE".

Definition writeUInt32BE (b : Buffer) (value offset : Z) : result Buffer :=
  if (0 <=? value) && (value <? 2 ^ 32) && (0 <=? offset) && (offset + 4 <=? len b)
  then Ok (set_at (set_at (set_at (set_at b offset (value / 2 ^ 24))
                                  (offset + 1) (value / 2 ^ 16))
                          (offset + 2) (value / 2 ^ 8))
                  (offset + 3) value)
  else Throw "ERR_OUT_OF_RANGE".

(** [Buffer.concat(list, totalLength)]: the buffers one after the other, cut
    or filled with zeros to [totalLength]. *)
Definition concat (bs : list Buffer) (totalLength : Z) : Buffer :=
  let all := mjoin bs in
  take (Z.to_nat totalLength) (all ++ replicate (Z.to_nat totalLength - length all)%nat 0).

(** The double nearest to a non-negative integer (ties to even): what
    [hi * Math.pow(2, 32) + lo] evaluates to. *)
Definition round_double (x : Z) : Z :=
  if x <? 2 ^ 53 then x
  else
    let e := Z.log2 x - 52 in
    let q := x / 2 ^ e in
    let r := x mod 2 ^ e in
    let half := 2 ^ (e - 1) in
    let q' := if r <? half then q
              else if half <? r then q + 1
              else if Z.even q then q else q + 1 in
    q' * 2 ^ e.

(** [p[idx] ^= key[f idx]] for every index of [p], as the two masking loops
    do ([f idx] is [idx & 3] when decoding and [idx % 4] when encoding). *)
Definition xor_loop (f : Z -> Z) (key p : Buffer) : Buffer :=
  imap (fun idx b => to_u8 (Z.lxor b (at_ key (f (Z.of_nat idx))))) p.

(** ** The store of Buffer objects

    A reference names a Buffer object; the store gives its bytes.  A new
    object takes the next free reference. *)

Abbreviation ref := nat (only parsing).
Abbreviation store := (list (list Z)) (only parsing).

Definition new_buffer (b : Buffer) (h : store) : ref * store := (length h, h ++ [b]).

(** ** packet.ts *)

Module Packet.

Definition GET_HEADER : Z := 0.
Definition GET_PAYLOAD_LENGTH_16 : Z := 1.
Definition GET_PAYLOAD_LENGTH_64 : Z := 2.
Definition GET_MASK_KEY : Z := 3.
Definition GET_PAYLOAD : Z := 4.
Definition COMPLETE : Z := 5.

(** The fields of a [Packet]; [None] is [undefined].  [state], [data] and
    [size] are private to the parser: the stage reached, the bytes not yet
    consumed and their count. *)
Record Packet : Type := mk {
  state : Z;
  data : Buffer;
  size : Z;
  fin : option bool;
  rsv1 : option bool;
  opcode : option Z;
  mask : option bool;
  payload : option Buffer;
  payload_length : option Z;
  mask_key : option Buffer;
  close_code : option Z
}.

Definition set_state (v : Z) (p : Packet) : Packet :=
  mk v (data p) (size p) (fin p) (rsv1 p) (opcode p) (mask p)
     (payload p) (payload_length p) (mask_key p) (close_code p).
Definition set_data (v : Buffer) (p : Packet) : Packet :=
  mk (state p) v (size p) (fin p) (rsv1 p) (opcode p) (mask p)
     (payload p) (payload_length p) (mask_key p) (close_code p).
Definition set_size (v : Z) (p : Packet) : Packet :=
  mk (state p) (data p) v (fin p) (rsv1 p) (opcode p) (mask p)
     (payload p) (payload_length p) (mask_key p) (close_code p).
Definition set_header (f r : bool) (o : Z) (m : bool) (l : Z) (p : Packet) : Packet :=
  mk (state p) (data p) (size p) (Some f) (Some r) (Some o) (Some m)
     (payload p) (Some l) (mask_key p) (close_code p).
Definition set_payload (v : Buffer) (p : Packet) : Packet :=
  mk (state p) (data p) (size p) (fin p) (rsv1 p) (opcode p) (mask p)
     (Some v) (payload_length p) (mask_key p) (close_code p).
Definition set_payload_length (v : Z) (p : Packet) : Packet :=
  mk (state p) (data p) (size p) (fin p) (rsv1 p) (opcode p) (mask p)
     (payload p) (Some v) (mask_key p) (close_code p).
Definition set_mask_key (v : Buffer) (p : Packet) : Packet :=
  mk (state p) (data p) (size p) (fin p) (rsv1 p) (opcode p) (mask p)
     (payload p) (payload_length p) (Some v) (close_code p).
Definition set_close_code (v : Z) (p : Packet) : Packet :=
  mk (state p) (data p) (size p) (fin p) (rsv1 p) (opcode p) (mask p)
     (payload p) (payload_length p) (mask_key p) (Some v).

(** [consume(n)].  When [n] exceeds the bytes held, the source enters
    [do { ... } while(n > 0)] with an [n] it never decreases. *)
Definition consume (n : Z) (this : Packet) : result (Buffer * Packet) :=
  let this := set_size (size this - n) this in
  if n =? len (data this) then Ok (data this, this)
  else if n <? len (data this) then
    let buffer := data this in
    let this := set_data (slice_from buffer n) this in
    Ok (slice buffer 0 n, this)
  else Loops.

(** The unmasking step of the constructor, on the payload just consumed:
    [if(this.mask && this.mask_key && (k[0] | k[1] | k[2] | k[3]) !== 0)
       for(...) this.payload[idx] ^= this.mask_key[idx & 3]]. *)
Definition unmask (this : Packet) (buf : Buffer) : Buffer :=
  match mask this, mask_key this with
  | Some true, Some key =>
    if Z.lor (Z.lor (Z.lor (at_ key 0) (at_ key 1)) (at_ key 2)) (at_ key 3) =? 0
    then buf
    else xor_loop (fun idx => Z.land idx 3) key buf
  | _, _ => buf
  end.

(** The constructor, stage by stage, last stage first; a [return] of the
    source is [Ok this].  A slice is a view of the buffer it is taken from:
    the parts of a chunk that [consume] hands out do not overlap, except that
    a payload which is all of [data] is the object [data] itself ([whole]),
    so that unmasking it unmasks [data]. *)
Definition get_payload (this : Packet) : result Packet :=
  if state this =? GET_PAYLOAD then
    match payload_length this with
    | None => Throw "ERR_INVALID_ARG_TYPE"
    | Some length =>
      if length =? 0 then
        Ok (set_state COMPLETE (set_payload [] this))
      else if size this <? length then Ok this
      else
        let whole := length =? len (data this) in
        '(buf, this) ← consume length this;
        let buf := unmask this buf in
        let this := set_payload buf (if whole then set_data buf this else this) in
        if decide (opcode this = Some 8) then
          if length =? 1 then Throw "close frame length is not valid."
          else if 2 <=? length then
            code ← readUInt16BE buf 0;
            Ok (set_state COMPLETE (set_payload (slice_from buf 2) (set_close_code code this)))
          else Ok (set_state COMPLETE this)
        else Ok (set_state COMPLETE this)
    end
  else Ok this.

Definition get_mask_key (this : Packet) : result Packet :=
  if state this =? GET_MASK_KEY then
    if decide (mask this = Some true) then
      if size this <? 4 then Ok this
      else
        '(key, this) ← consume 4 this;
        get_payload (set_state GET_PAYLOAD (set_mask_key key this))
    else get_payload (set_state GET_PAYLOAD this)
  else get_payload this.

Definition get_payload_length (this : Packet) : result Packet :=
  if state this =? GET_PAYLOAD_LENGTH_16 then
    if size this <? 2 then Ok this
    else
      '(buf, this) ← consume 2 this;
      length ← readUInt16BE buf 0;
      get_mask_key (set_state GET_MASK_KEY (set_payload_length length this))
  else if state this =? GET_PAYLOAD_LENGTH_64 then
    if size this <? 8 then Ok this
    else
      '(buf, this) ← consume 8 this;
      hi ← readUInt32BE buf 0;
      lo ← readUInt32BE buf 4;
      get_mask_key (set_state GET_MASK_KEY
                      (set_payload_length (round_double (hi * 2 ^ 32 + lo)) this))
  else get_mask_key this.

Definition constructor (data : Buffer) : result Packet :=
  let this := mk GET_HEADER data (len data) None None None None None None None None in
  if size this <? 2 then Ok this
  else
    '(buf, this) ← consume 2 this;
    let fin := Z.land (at_ buf 0) 128 =? 128 in
    let rsv1 := Z.land (at_ buf 0) 64 =? 64 in
    let opcode := Z.land (at_ buf 0) 15 in
    let mask := Z.land (at_ buf 1) 128 =? 128 in
    let payload_length := Z.land (at_ buf 1) 127 in
    let this := set_header fin rsv1 opcode mask payload_length this in
    if (8 <=? opcode) && (125 <? payload_length)
    then Throw "control frames must be less than 125 bytes."
    else if (8 <=? opcode) && negb fin
    then Throw "control frames must not be fragmented."
    else
      let this :=
        if payload_length =? 126 then set_state GET_PAYLOAD_LENGTH_16 this
        else if payload_length =? 127 then set_state GET_PAYLOAD_LENGTH_64 this
        else set_state GET_MASK_KEY this in
      get_payload_length this.

(** [Packet.frame(opcode, payload, fin, rsv1, mask)].  [payload] is the
    caller's Buffer object; [random idx] is the value of the idx-th
    [Math.floor(Math.random() * 256)] of the call.  The masking loop writes
    into the caller's object; the frame returned is a new Buffer. *)
Definition frame (opcode : Z) (payload : ref) (fin rsv1 mask : bool)
    (random : Z -> Z) (h : store) : result (Buffer * store) :=
  match h !! payload with
  | None => Throw "TypeError: Cannot read properties of undefined"
  | Some bytes0 =>
    let size := len bytes0 in
    let dest := alloc (2 + (if size <? 126 then 0 else if size <? 65536 then 2 else 8)
                         + (if mask then 4 else 0)) in
    let dest := set_at dest 0 ((if fin then 128 else 0) + opcode) in
    let dest := set_at dest 1 (if mask then 128 else 0) in
    '(dest, offset) ←
      (if size <? 126 then
         Ok (set_at dest 1 (at_ dest 1 + size), 2)
       else if size <? 65536 then
         let dest := set_at dest 1 (at_ dest 1 + 126) in
         dest ← writeUInt16BE dest size 2;
         Ok (dest, 4)
       else
         let dest := set_at dest 1 (at_ dest 1 + 127) in
         dest ← writeUInt32BE dest (size / 2 ^ 32) 2;
         dest ← writeUInt32BE dest (size mod 2 ^ 32) 6;
         Ok (dest, 10));
    let '(dest, h) :=
      if mask then
        let mask_key := set_at (set_at (set_at (set_at (alloc 4) 0 (random 0))
                                               1 (random 1)) 2 (random 2)) 3 (random 3) in
        let dest := set_at (set_at (set_at (set_at dest (offset + 0) (random 0))
                                           (offset + 1) (random 1))
                                   (offset + 2) (random 2))
                           (offset + 3) (random 3) in
        (dest, <[payload := xor_loop (fun idx => idx mod 4) mask_key bytes0]> h)
      else (dest, h) in
    Ok (concat [dest; default [] (h !! payload)] (len dest + size), h)
  end.

End Packet.

(** ** socket.ts *)

(** A JavaScript string is held as the text of its UTF-8 encoding; this is
    [Buffer.from(s)], and its length is [Buffer.byteLength(s)]. *)
Definition utf8 (s : string) : Buffer :=
  (fun c => Z.of_N (N_of_ascii c)) <$> list_ascii_of_string s.

(** [buf.write(s, offset)]: the bytes of [s] that fit, from [offset] on. *)
Definition write (b : Buffer) (s : string) (offset : Z) : Buffer :=
  let n := Z.to_nat offset in
  let src := take (length b - n) (utf8 s) in
  take n b ++ src ++ drop (n + length src) b.

(** [s.split(sep)] for a one-character separator. *)
Fixpoint split (sep : ascii) (s : string) : list string :=
  match s with
  | EmptyString => [EmptyString]
  | String c rest =>
    if decide (c = sep) then EmptyString :: split sep rest
    else match split sep rest with
         | first :: others => String c first :: others
         | [] => [String c EmptyString]
         end
  end.

(** [/^[!#$%&'*+\-.0-9A-Z^_`|a-z~]+$/.test(s)] *)
Definition token_char (c : ascii) : bool :=
  let n := Z.of_N (N_of_ascii c) in
  (n =? 33) || ((35 <=? n) && (n <=? 39)) || (n =? 42) || (n =? 43) || (n =? 45)
  || (n =? 46) || ((48 <=? n) && (n <=? 57)) || ((65 <=? n) && (n <=? 90))
  || ((94 <=? n) && (n <=? 96)) || (n =? 124) || ((97 <=? n) && (n <=? 122))
  || (n =? 126).

Definition protocol_regex_test (s : string) : bool :=
  match list_ascii_of_string s with
  | [] => false
  | cs => forallb token_char cs
  end.

Module URL.
Record URL : Type := mk {
  protocol : string;
  username : string;
  password : string;
  hostname : string;
  port : string;
  pathname : string;
  search : string
}.
End URL.

Module Client.
(** The [ClientRequestArgs] built by the constructor; a header value is kept
    as text. *)
Record ClientRequestArgs : Type := mk {
  port : Z;
  host : string;
  headers : gmap string string;
  path : option string;
  timeout : option Z;
  auth : option string;
  socketPath : option string
}.
End Client.

Module WebSocket.

Definition CONNECTING : Z := 0.
Definition OPEN : Z := 1.
Definition CLOSING : Z := 2.
Definition CLOSED : Z := 3.

(** [closeReason] is a string given by the caller or the [toString()] of the
    bytes of a close frame. *)
Inductive text : Type :=
| Str (s : string)
| ToString (b : Buffer).

(** What the handshake reads of the server's response. *)
Record IncomingMessage : Type := mkResponse {
  statusCode : string;
  statusMessage : string;
  sec_websocket_accept : option string;
  sec_websocket_protocol : option string
}.

(** An event with the arguments its listeners receive; a Buffer argument is
    given by the bytes the object holds when the event is emitted. *)
Inductive event : Type :=
| Open
| Message (payload : option Buffer)
| Close (code : Z) (reason : text)
| Error (description : string)
| Ping (payload : option Buffer)
| Pong (payload : option Buffer)
| Upgrade (response : IncomingMessage)
| HttpResponse (response : IncomingMessage).

(** What a call does, in program order. *)
Inductive step : Type :=
| SetState (s : Z)                (* this.state = s *)
| Emit (e : event)                (* this.emit(...) *)
| ReqDestroy                      (* this.req.destroy() *)
| SocketWrite (packet : Buffer)   (* this.socket.write(packet) *)
| SocketDestroy                   (* this.socket.destroy() *)
| SocketEnd                       (* this.socket.end() *)
| SocketUnshift (head : Buffer)   (* socket.unshift(head) *)
| ConsoleLog (s : string).

(** The connection object with what it closes over ([protocol_set],
    [timeout] of the request), the store of Buffers and the steps taken so
    far.  [error_listener] says whether a listener for 'error' is attached
    to the connection ([listenerCount('error') > 0] of [EventEmitter]). *)
Record WebSocket : Type := mk {
  protocol_set : gset string;
  nonce : string;
  timeout : option Z;
  req_destroyed : bool;
  socket : bool;
  state : Z;
  closeCode : Z;
  closeReason : text;
  heap : store;
  trace : list step;
  error_listener : bool
}.

Definition set_req_destroyed (v : bool) (w : WebSocket) : WebSocket :=
  mk (protocol_set w) (nonce w) (timeout w) v (socket w) (state w)
     (closeCode w) (closeReason w) (heap w) (trace w) (error_listener w).
Definition set_socket_field (v : bool) (w : WebSocket) : WebSocket :=
  mk (protocol_set w) (nonce w) (timeout w) (req_destroyed w) v (state w)
     (closeCode w) (closeReason w) (heap w) (trace w) (error_listener w).
Definition set_state (v : Z) (w : WebSocket) : WebSocket :=
  mk (protocol_set w) (nonce w) (timeout w) (req_destroyed w) (socket w) v
     (closeCode w) (closeReason w) (heap w) (trace w) (error_listener w).
Definition set_closeCode (v : Z) (w : WebSocket) : WebSocket :=
  mk (protocol_set w) (nonce w) (timeout w) (req_destroyed w) (socket w) (state w)
     v (closeReason w) (heap w) (trace w) (error_listener w).
Definition set_closeReason (v : text) (w : WebSocket) : WebSocket :=
  mk (protocol_set w) (nonce w) (timeout w) (req_destroyed w) (socket w) (state w)
     (closeCode w) v (heap w) (trace w) (error_listener w).
Definition set_heap (v : store) (w : WebSocket) : WebSocket :=
  mk (protocol_set w) (nonce w) (timeout w) (req_destroyed w) (socket w) (state w)
     (closeCode w) (closeReason w) v (trace w) (error_listener w).
Definition set_trace (v : list step) (w : WebSocket) : WebSocket :=
  mk (protocol_set w) (nonce w) (timeout w) (req_destroyed w) (socket w) (state w)
     (closeCode w) (closeReason w) (heap w) v (error_listener w).
Definition set_error_listener (v : bool) (w : WebSocket) : WebSocket :=
  mk (protocol_set w) (nonce w) (timeout w) (req_destroyed w) (socket w) (state w)
     (closeCode w) (closeReason w) (heap w) (trace w) v.

(** A method: from the connection before the call to the connection after
    it and the outcome.  What a call did before it throws stays done. *)
Definition M (A : Type) : Type := WebSocket -> WebSocket * result A.

#[global] Instance M_ret : MRet M := fun A a w => (w, Ok a).
#[global] Instance M_bind : MBind M := fun A B f m w =>
  match m w with
  | (w', Ok a) => f a w'
  | (w', Throw msg) => (w', Throw msg)
  | (w', Loops) => (w', Loops)
  end.

Definition get {A} (f : WebSocket -> A) : M A := fun w => (w, Ok (f w)).
Definition put (f : WebSocket -> WebSocket) : M unit := fun w => (f w, Ok tt).
Definition throw {A} (msg : string) : M A := fun w => (w, Throw msg).
Definition lift {A} (r : result A) : M A := fun w => (w, r).
Definition skip : M unit := mret tt.

Definition log (x : step) : M unit := put (fun w => set_trace (trace w ++ [x]) w).
Definition assign_state (s : Z) : M unit := put (set_state s) ;; log (SetState s).

(** [this.emit(name, ...)] of [EventEmitter]: the listeners of the event
    run; an 'error' event that has no listener is thrown instead. *)
Definition emit (e : event) : M unit :=
  match e with
  | Error description =>
    log (Emit e) ;;
    listening ← get error_listener;
    if listening : bool then skip else throw description
  | _ => log (Emit e)
  end.

(** [this.on('error', listener)], called by the owner of the connection. *)
Definition on_error : M unit := put (set_error_listener true).

(** A new Buffer object holding [b]. *)
Definition new (b : Buffer) : M ref := fun w =>
  let '(r, h) := new_buffer b (heap w) in (set_heap h w, Ok r).

(** The bytes an object holds now. *)
Definition read (r : option ref) : M (option Buffer) :=
  get (fun w => r ≫= fun r => heap w !! r).

(** [Packet.frame] called on an object of the store. *)
Definition Packet_frame (opcode : Z) (payload : ref) (fin rsv1 mask : bool)
    (random : Z -> Z) : M Buffer := fun w =>
  match Packet.frame opcode payload fin rsv1 mask random (heap w) with
  | Ok (packet, h) => (set_heap h w, Ok packet)
  | Throw msg => (w, Throw msg)
  | Loops => (w, Loops)
  end.

(** [this.socket?.write(packet)], [this.socket?.destroy()], [this.socket?.end()] *)
Definition socket_write (packet : Buffer) : M unit :=
  s ← get socket; if s : bool then log (SocketWrite packet) else skip.
Definition socket_destroy : M unit :=
  s ← get socket; if s : bool then log SocketDestroy else skip.
Definition socket_end : M unit :=
  s ← get socket; if s : bool then log SocketEnd else skip.

Definition emit_close : M unit :=
  assign_state CLOSED ;;
  code ← get closeCode;
  reason ← get closeReason;
  emit (Close code reason).

Definition emit_error_and_close (error : string) : M unit :=
  assign_state CLOSING ;;
  emit (Error error) ;;
  emit_close.

Definition handshake_failed (description : string) : M unit :=
  put (set_req_destroyed true) ;; log ReqDestroy ;;
  emit_error_and_close description.

(** [set_socket(socket, head)]; the two settings of the socket
    ([setTimeout(0)], [setNoDelay()]) leave no step. *)
Definition set_socket (head : Buffer) : M unit :=
  (if 0 <? len head then log (SocketUnshift head) else skip) ;;
  put (set_socket_field true) ;;
  assign_state OPEN ;;
  emit Open.

(** The argument of [send], [ping] and [pong] ([data: any]); a number is
    given by the text of its [toString()]. *)
Inductive value : Type :=
| Undefined
| Buf (r : ref)
| String_ (s : string)
| Number (digits : string).

(** [Buffer.isBuffer(data) ? data
      : Buffer.from(typeof data === 'number' ? data.toString() : data)] *)
Definition payload_of (data : value) : M ref :=
  match data with
  | Buf r => mret r
  | String_ s => new (utf8 s)
  | Number digits => new (utf8 digits)
  | Undefined => throw "ERR_INVALID_ARG_TYPE"
  end.

Definition length_of (r : ref) : M Z :=
  get (fun w => len (default [] (heap w !! r))).

Definition send (data : value) (random : Z -> Z) : M unit :=
  s ← get state;
  if s =? CONNECTING then throw "send -> websocket is connecting."
  else
    let opcode := match data with Buf _ => 2 | _ => 1 end in
    payload ← match data with
              | Buf r => mret r
              | String_ s => new (utf8 s)
              | Number _ | Undefined => throw "ERR_INVALID_ARG_TYPE"
              end;
    packet ← Packet_frame opcode payload true false true random;
    socket_write packet.

Definition ping (data : value) (random : Z -> Z) : M unit :=
  s ← get state;
  if s =? CONNECTING then throw "ping -> websocket is connecting."
  else
    payload ← payload_of data;
    n ← length_of payload;
    if 125 <? n then throw "payload for PING(0x09) is longer than 125 bytes."
    else
      packet ← Packet_frame 9 payload true false true random;
      socket_write packet.

Definition pong (data : value) (random : Z -> Z) : M unit :=
  s ← get state;
  if s =? CONNECTING then throw "pong -> websocket is connecting."
  else
    payload ← payload_of data;
    n ← length_of payload;
    if 125 <? n then throw "payload for PONG(0x0a) is longer than 125 bytes."
    else
      packet ← Packet_frame 10 payload true false true random;
      socket_write packet.

Definition close (code : Z) (reason : string) (random : Z -> Z) : M unit :=
  s ← get state;
  if s =? CLOSED then skip
  else if s =? CONNECTING then
    handshake_failed "websocket was closed before the connection was established."
  else if s =? CLOSING then socket_end
  else
    assign_state CLOSING ;;
    let length := len (utf8 reason) in
    if 123 <? length then throw "close reason must be less than 132 bytes."
    else
      bytes0 ← lift (writeUInt16BE (alloc (2 + length)) code 0);
      payload ← new (write bytes0 reason 2);
      put (set_closeCode code) ;;
      put (set_closeReason (Str reason)) ;;
      packet ← Packet_frame 8 payload true false true random;
      socket_write packet.

(** [socket_on_data(data)].  [packet.payload] is one Buffer object, placed in
    the store when the packet is built; [random] serves the pong that answers
    a ping. *)
Definition socket_on_data (data : Buffer) (random : Z -> Z) : M unit :=
  packet ← lift (Packet.constructor data);
  payload ← match Packet.payload packet with
            | Some b => r ← new b; mret (Some r)
            | None => mret None
            end;
  match Packet.opcode packet with
  | Some 0 => log (ConsoleLog "Continuation Frame.")
  | Some 1 => b ← read payload; emit (Message b)
  | Some 2 => b ← read payload; emit (Message b)
  | Some 8 =>
    put (set_closeCode match Packet.close_code packet with
                       | Some code => if code =? 0 then 1006 else code
                       | None => 1006
                       end) ;;
    b ← read payload;
    put (set_closeReason match b with
                         | Some ((_ :: _) as bytes1) => ToString bytes1
                         | _ => Str "Abnormal Closure"
                         end) ;;
    socket_destroy
  | Some 9 =>
    pong (match payload with Some r => Buf r | None => Undefined end) random ;;
    b ← read payload;
    emit (Ping b)
  | Some 10 => b ← read payload; emit (Pong b)
  | _ => skip
  end.

(** The constructor up to the point where the request is sent: the
    arguments of the request and the connection in its first state.  The URL
    is given parsed and [nonce] is the text of the sixteen random bytes.
    Two ways the constructor of the source can throw lie outside this part:
    [new URL(address)] on a string that is no URL, before it, and [http.get]
    on arguments it rejects, after it.  So [constructor ... = Ok (client, w)]
    says that this part returned, which it has whenever the constructor of
    the source returns; it is used as a hypothesis only. *)
Inductive protocols_arg : Type :=
| NoProtocols
| OneProtocol (protocol : string)
| Protocols (protocols : list string).

Record SocketOption : Type := mkOption {
  versions : option Z;
  headers : gmap string string;
  origin : option string;
  handshakeTimeout : option Z
}.

Fixpoint add_protocols (protocols : list string) (protocol_set : gset string)
    : result (gset string) :=
  match protocols with
  | [] => Ok protocol_set
  | protocol :: rest =>
    if negb (protocol_regex_test protocol) || bool_decide (protocol ∈ protocol_set)
    then Throw "subprotocol cannot be duplicated or invalid."
    else add_protocols rest ({[protocol]} ∪ protocol_set)
  end.

Definition constructor (address : URL.URL) (protocols : protocols_arg)
    (options : option SocketOption) (nonce : string)
    : result (Client.ClientRequestArgs * WebSocket) :=
  let protocols := match protocols with
                   | OneProtocol protocol => [protocol]
                   | NoProtocols => []
                   | Protocols l => l
                   end in
  let version := match options ≫= versions with
                 | Some v => if v =? 0 then 13 else v
                 | None => 13
                 end in
  let secure := bool_decide (URL.protocol address = "wss:") in
  let unix := bool_decide (URL.protocol address = "ws+unix:") in
  let port := if negb (bool_decide (URL.port address = "")) || secure then 443 else 80 in
  let headers := default ∅ (headers <$> options)
                 ∪ {[ "Upgrade" := "websocket"; "Connection" := "Upgrade";
                      "Sec-WebSocket-Version" := pretty version;
                      "Sec-WebSocket-Key" := nonce ]} in
  let path := URL.pathname address +:+ URL.search address in
  let timeout := options ≫= handshakeTimeout in
  '(protocol_set, headers) ←
    (if (0 <? length protocols)%nat then
       protocol_set ← add_protocols protocols ∅;
       Ok (protocol_set, <["Sec-WebSocket-Protocol" := String.concat "," protocols]> headers)
     else Ok (∅, headers));
  let auth := if negb (bool_decide (URL.username address = ""))
                 || negb (bool_decide (URL.password address = ""))
              then Some (URL.username address +:+ ":" +:+ URL.password address)
              else None in
  let '(socketPath, path) :=
    if unix then
      let socket_parts := split ":" path in
      (socket_parts !! 0%nat, socket_parts !! 1%nat)
    else (None, Some path) in
  Ok (Client.mk port (URL.hostname address) headers path timeout auth socketPath,
      mk protocol_set nonce timeout false false CONNECTING 1006 (Str "") [] [] false).

(** The listeners of the request and of the socket. *)
Definition req_on_timeout : M unit :=
  t ← get timeout;
  match t with
  | Some ms => if ms =? 0 then skip else handshake_failed "opening handshake has timed out."
  | None => skip
  end.

Definition req_on_error (error : string) : M unit :=
  d ← get req_destroyed;
  if d : bool then skip
  else put (set_req_destroyed true) ;; log ReqDestroy ;; emit_error_and_close error.

Definition req_on_response (response : IncomingMessage) : M unit :=
  emit (HttpResponse response) ;;
  handshake_failed ("unexpected server response: " +:+ statusCode response
                    +:+ "-" +:+ statusMessage response).

Definition socket_on_close : M unit := emit_close.

Section Handshake.

(** [createHash('sha1').update(s).digest('base64')] of Node's crypto. *)
Variable sha1_base64 : string -> string.

Definition req_on_upgrade (response : IncomingMessage) (head : Buffer) : M unit :=
  emit (Upgrade response) ;;
  n ← get nonce;
  let digest := sha1_base64 (n +:+ "258EAFA5-E914-47DA-95CA-C5AB0DC85B11") in
  if decide (sec_websocket_accept response = Some digest) then
    protocol_set ← get protocol_set;
    match sec_websocket_protocol response with
    | Some (String _ _ as server_protocol) =>
      if bool_decide (size protocol_set = 0%nat) then
        handshake_failed "nothing was requested, but the server sent a subprotocol."
      else if bool_decide (server_protocol ∈ protocol_set) then set_socket head
      else handshake_failed "server sent a invalid subprotocol."
    | _ =>
      if bool_decide (size protocol_set = 0%nat) then set_socket head
      else handshake_failed "server sent no subprotocol."
    end
  else handshake_failed "sec-websocket-accept header is not valid.".

End Handshake.

End WebSocket.

(** * Notions for the statements *)

(** ** Frames on the wire and the progress of the parser *)

Module Wire.
Import Packet.

(** [this] has [rem] left to read: [size] counts it, and [data] holds it
    unless nothing is left. *)
Definition parsing (this : Packet) (rem : Buffer) : Prop :=
  size this = len rem /\ (rem <> [] -> data this = rem).

(** Big-endian value of a byte sequence. *)
Definition be (bs : Buffer) : Z := fold_left (fun acc b => acc * 256 + b) bs 0.

(** The sizes of the length extension and of the mask key that the second
    header byte asks for. *)
Definition ext_size (b1 : Z) : Z :=
  if Z.land b1 127 =? 126 then 2 else if Z.land b1 127 =? 127 then 8 else 0.

Definition key_size (b1 : Z) : Z := if Z.land b1 128 =? 128 then 4 else 0.

(** The payload length that the header announces. *)
Definition announced (b1 : Z) (ext : Buffer) : Z :=
  if Z.land b1 127 =? 126 then be ext
  else if Z.land b1 127 =? 127 then round_double (be ext)
  else Z.land b1 127.

(** The control-frame rule of the header stage. *)
Definition legal (b0 b1 : Z) : Prop :=
  8 <= Z.land b0 15 -> Z.land b1 127 <= 125 /\ (Z.land b0 128 =? 128) = true.

(** The packet when the payload stage is entered. *)
Definition at_payload (b0 b1 : Z) (ext key d : Buffer) (n : Z) : Packet :=
  mk GET_PAYLOAD d n (Some (Z.land b0 128 =? 128)) (Some (Z.land b0 64 =? 64))
     (Some (Z.land b0 15)) (Some (Z.land b1 128 =? 128)) None
     (Some (announced b1 ext))
     (if Z.land b1 128 =? 128 then Some key else None) None.

(** Masking as the protocol words it: byte [i] of the payload is XORed with
    byte [i mod 4] of the key. *)
Definition xor_mask (key body : Buffer) : Buffer :=
  imap (fun i b => Z.lxor b (at_ key (Z.of_nat i mod 4))) body.

(** The payload that a frame carries, from its bytes on the wire. *)
Definition wire_payload (b1 : Z) (key body : Buffer) : Buffer :=
  if Z.land b1 128 =? 128 then xor_mask key body else body.

(** The call returned a packet in state COMPLETE with these fields. *)
Definition decoded (r : result Packet) (f r1 : bool) (o : Z) (m : bool)
    (p : Buffer) (c : option Z) : Prop :=
  exists packet,
    r = Ok packet /\ state packet = COMPLETE /\ fin packet = Some f
    /\ rsv1 packet = Some r1 /\ opcode packet = Some o /\ mask packet = Some m
    /\ payload packet = Some p /\ close_code packet = c.

(** [size] counts no more bytes than [data] holds. *)
Definition within (this : Packet) : Prop := 0 <= size this <= len (data this).

End Wire.

(** The 7-bit length field of a frame whose payload has [size] bytes. *)
Definition marker (size : Z) : Z :=
  if size <? 126 then size else if size <? 65536 then 126 else 127.

(** The length extension of a frame: nothing, 2 bytes or 8 bytes. *)
Definition extension (size : Z) : Buffer :=
  if size <? 126 then []
  else if size <? 65536 then [to_u8 (size / 2 ^ 8); to_u8 size]
  else
    let hi := size / 2 ^ 32 in
    let lo := size mod 2 ^ 32 in
    [to_u8 (hi / 2 ^ 24); to_u8 (hi / 2 ^ 16); to_u8 (hi / 2 ^ 8); to_u8 hi;
     to_u8 (lo / 2 ^ 24); to_u8 (lo / 2 ^ 16); to_u8 (lo / 2 ^ 8); to_u8 lo].

(** The mask key that [Packet.frame] draws. *)
Definition key_of (random : Z -> Z) : Buffer :=
  [to_u8 (random 0); to_u8 (random 1); to_u8 (random 2); to_u8 (random 3)].

(** ** Connections, chunks and inputs *)

(** An open connection with a socket, an empty store, no step taken and no
    listener for 'error'. *)
Definition open_connection : WebSocket.WebSocket :=
  WebSocket.mk ∅ "" None false true WebSocket.OPEN 1006 (WebSocket.Str "") [] [] false.


(** [new URL("ws+unix:///tmp/s.sock:/chat?room=1")] *)
Definition unix_address : URL.URL :=
  URL.mk "ws+unix:" "" "" "" "" "/tmp/s.sock:/chat" "?room=1".

(** The socket emits one 'data' event per chunk it delivers; the listener is
    [data => this.socket_on_data(data)]. *)
Fixpoint deliver (chunks : list Buffer) (random : Z -> Z) : WebSocket.M unit :=
  match chunks with
  | [] => WebSocket.skip
  | chunk :: rest => WebSocket.socket_on_data chunk random ;; deliver rest random
  end.

(** [s.includes(sep)] *)
Fixpoint has_char (sep : ascii) (s : string) : bool :=
  match s with
  | EmptyString => false
  | String c rest => if decide (c = sep) then true else has_char sep rest
  end.

(** The text of [s] before its first [sep]: all of [s] when it has none. *)
Fixpoint before (sep : ascii) (s : string) : string :=
  match s with
  | EmptyString => EmptyString
  | String c rest => if decide (c = sep) then EmptyString else String c (before sep rest)
  end.

(** The text of [s] after its first [sep]. *)
Fixpoint after (sep : ascii) (s : string) : option string :=
  match s with
  | EmptyString => None
  | String c rest => if decide (c = sep) then Some rest else after sep rest
  end.

Module Steps.
Import WebSocket.

(** The states that a run of steps assigns, in order. *)
Definition assigned (steps : list step) : list Z :=
  omap (fun x => match x with SetState s => Some s | _ => None end) steps.

(** [m] never assigns [state]: it leaves the field as it is and adds steps
    other than [SetState] only. *)
Definition keeps_state {A} (m : M A) : Prop :=
  forall w, state (m w).1 = state w
            /\ exists new, trace (m w).1 = trace w ++ new /\ assigned new = [].

End Steps.

(** What reaches a connection once it exists: the calls of its owner and
    the events of the socket and of the request. *)
Inductive input : Type :=
| Call_close (code : Z) (reason : string)
| Call_send (data : WebSocket.value)
| Call_ping (data : WebSocket.value)
| Call_pong (data : WebSocket.value)
| Socket_data (data : Buffer)
| Socket_close
| Req_timeout
| Req_error (error : string).

(** The method or listener that an input runs. *)
Definition handle (i : input) (random : Z -> Z) : WebSocket.M unit :=
  match i with
  | Call_close code reason => WebSocket.close code reason random
  | Call_send data => WebSocket.send data random
  | Call_ping data => WebSocket.ping data random
  | Call_pong data => WebSocket.pong data random
  | Socket_data data => WebSocket.socket_on_data data random
  | Socket_close => WebSocket.socket_on_close
  | Req_timeout => WebSocket.req_on_timeout
  | Req_error error => WebSocket.req_on_error error
  end.

(** The inputs that run [emit_error_and_close]: a timeout of the request
    when a handshake timeout was asked for, and an error of a request that
    was not destroyed. *)
Definition fails_handshake (i : input) (w : WebSocket.WebSocket) : bool :=
  match i with
  | Req_timeout => match WebSocket.timeout w with
                   | Some ms => negb (ms =? 0)
                   | None => false
                   end
  | Req_error _ => negb (WebSocket.req_destroyed w)
  | _ => false
  end.

(** The ends of [req_on_upgrade], on a connection that took no step before:
    the connection is opened; or the handshake fails with an 'error' event
    before the 'close' event, when a listener for 'error' is attached; or,
    when none is, the error is thrown out of the listener of 'upgrade' once
    CLOSING is assigned, and no 'close' event follows. *)
Definition handshake_accepted (r : WebSocket.WebSocket * result unit)
    (response : WebSocket.IncomingMessage) : Prop :=
  r.2 = Ok tt
  /\ WebSocket.state r.1 = WebSocket.OPEN
  /\ WebSocket.trace r.1
     = [WebSocket.Emit (WebSocket.Upgrade response);
        WebSocket.SetState WebSocket.OPEN; WebSocket.Emit WebSocket.Open].

Definition handshake_failure (r : WebSocket.WebSocket * result unit)
    (response : WebSocket.IncomingMessage) (description : string) : Prop :=
  r.2 = Ok tt
  /\ WebSocket.state r.1 = WebSocket.CLOSED
  /\ WebSocket.trace r.1
     = [WebSocket.Emit (WebSocket.Upgrade response); WebSocket.ReqDestroy;
        WebSocket.SetState WebSocket.CLOSING;
        WebSocket.Emit (WebSocket.Error description);
        WebSocket.SetState WebSocket.CLOSED;
        WebSocket.Emit (WebSocket.Close 1006 (WebSocket.Str ""))].

(** The failure of a handshake that nobody listens for, on a connection that
    had taken the steps [before]: the request is destroyed, CLOSING is
    assigned, and [emit('error', ...)] throws the error. *)
Definition handshake_thrown (r : WebSocket.WebSocket * result unit)
    (before : list WebSocket.step) (description : string) : Prop :=
  r.2 = Throw description
  /\ WebSocket.state r.1 = WebSocket.CLOSING
  /\ WebSocket.req_destroyed r.1 = true
  /\ WebSocket.trace r.1
     = before
       ++ [WebSocket.ReqDestroy; WebSocket.SetState WebSocket.CLOSING;
           WebSocket.Emit (WebSocket.Error description)].

(** The failure of the handshake at an 'upgrade', as the owner sees it with
    and without a listener for 'error'. *)
Definition handshake_failed_as (listening : bool) (r : WebSocket.WebSocket * result unit)
    (response : WebSocket.IncomingMessage) (description : string) : Prop :=
  if listening then handshake_failure r response description
  else handshake_thrown r [WebSocket.Emit (WebSocket.Upgrade response)] description.

(** ** Chunks that hold less than a frame *)

(** The chunk [b0 :: b1 :: rem] holds all of the frame that its header
    announces: the length extension, the mask key and the payload are in
    [rem]. *)
Definition holds_frame (b1 : Z) (rem : Buffer) : bool :=
  let ext := take (Z.to_nat (Wire.ext_size b1)) rem in
  (Wire.ext_size b1 + Wire.key_size b1 <=? len rem)
  && (Wire.ext_size b1 + Wire.key_size b1 + Wire.announced b1 ext <=? len rem).

(** ** The arguments of send, ping and pong *)

(** The bytes that [ping] and [pong] frame for an argument: those of the
    Buffer object, or [Buffer.from] of the string or of the text of the
    number. *)
Definition payload_bytes (data : WebSocket.value) (w : WebSocket.WebSocket)
    : option Buffer :=
  match data with
  | WebSocket.Buf r => WebSocket.heap w !! r
  | WebSocket.String_ s => Some (utf8 s)
  | WebSocket.Number digits => Some (utf8 digits)
  | WebSocket.Undefined => None
  end.

(** The steps that writing [packet] adds: one, on a connection with a
    socket. *)
Definition written (w : WebSocket.WebSocket) (packet : Buffer) : list WebSocket.step :=
  if WebSocket.socket w then [WebSocket.SocketWrite packet] else [].

(** ** The handshake, failed or accepted *)

(** The handshake failed on a connection that had taken the steps [before]:
    the request is destroyed, 'error' is emitted in state CLOSING and then
    'close', with the code and the reason of a new connection, in state
    CLOSED. *)
Definition handshake_reported (r : WebSocket.WebSocket * result unit)
    (before : list WebSocket.step) (description : string) : Prop :=
  r.2 = Ok tt
  /\ WebSocket.state r.1 = WebSocket.CLOSED
  /\ WebSocket.req_destroyed r.1 = true
  /\ WebSocket.socket r.1 = false
  /\ WebSocket.trace r.1
     = before
       ++ [WebSocket.ReqDestroy; WebSocket.SetState WebSocket.CLOSING;
           WebSocket.Emit (WebSocket.Error description);
           WebSocket.SetState WebSocket.CLOSED;
           WebSocket.Emit (WebSocket.Close 1006 (WebSocket.Str ""))].

(** The server's reply settles the subprotocol: none (or an empty one) when
    none was asked for, or one of those asked for. *)
Definition reply_accepted (w : WebSocket.WebSocket) (response : WebSocket.IncomingMessage)
    : Prop :=
  match WebSocket.sec_websocket_protocol response with
  | Some (String c p) => String c p ∈ WebSocket.protocol_set w
  | _ => WebSocket.protocol_set w = ∅
  end.

(** ** The arguments of the constructor *)

(** The list of subprotocols that the constructor makes of its second
    argument. *)
Definition protocol_list (protocols : WebSocket.protocols_arg) : list string :=
  match protocols with
  | WebSocket.OneProtocol protocol => [protocol]
  | WebSocket.NoProtocols => []
  | WebSocket.Protocols l => l
  end.

(** The headers that the constructor sets by itself. *)
Definition fixed_headers (version : Z) (nonce : string) : gmap string string :=
  {[ "Upgrade" := "websocket"; "Connection" := "Upgrade";
     "Sec-WebSocket-Version" := pretty version;
     "Sec-WebSocket-Key" := nonce ]}.

(** [this.version = options?.versions || 13] *)
Definition version_of (options : option WebSocket.SocketOption) : Z :=
  match options ≫= WebSocket.versions with
  | Some v => if v =? 0 then 13 else v
  | None => 13
  end.

(** [options] without its [origin]. *)
Definition without_origin (options : option WebSocket.SocketOption)
    : option WebSocket.SocketOption :=
  (fun o => WebSocket.mkOption (WebSocket.versions o) (WebSocket.headers o) None
              (WebSocket.handshakeTimeout o)) <$> options.

(** ** Chunks that start with a message *)

(** [chunk] starts with a whole text or binary frame whose payload is [p]:
    the two header bytes, the length extension, the mask key when the frame
    is masked, the payload as sent, and whatever follows. *)
Definition message_chunk (chunk p : Buffer) : Prop :=
  exists b0 b1 ext key body rest,
    chunk = b0 :: b1 :: ext ++ key ++ body ++ rest
    /\ (Z.land b0 15 = 1 \/ Z.land b0 15 = 2)
    /\ len ext = Wire.ext_size b1 /\ len key = Wire.key_size b1
    /\ len body = Wire.announced b1 ext
    /\ bytes key /\ bytes body
    /\ p = Wire.wire_payload b1 key body.

(** ** The outcomes of the parser *)

(** The errors with which the constructor rejects a frame. *)
Definition protocol_errors : list string :=
  ["control frames must be less than 125 bytes.";
   "control frames must not be fragmented.";
   "close frame length is not valid."]%string.

(** The call returned a packet or rejected the frame. *)
Definition returns_or_rejects (r : result Packet.Packet) : Prop :=
  match r with
  | Ok _ => True
  | Throw msg => msg ∈ protocol_errors
  | Loops => False
  end.

(** ** Calls that only write *)

(** The call that gave [r] on the connection [w] changed neither the state,
    the close code, the close reason, the request nor the socket (it may
    have masked or added a Buffer of the store), and took no step but, when
    it returned, the write of one packet. *)
Definition only_writes (r : WebSocket.WebSocket * result unit) (w : WebSocket.WebSocket)
    : Prop :=
  WebSocket.state r.1 = WebSocket.state w
  /\ WebSocket.closeCode r.1 = WebSocket.closeCode w
  /\ WebSocket.closeReason r.1 = WebSocket.closeReason w
  /\ WebSocket.req_destroyed r.1 = WebSocket.req_destroyed w
  /\ WebSocket.socket r.1 = WebSocket.socket w
  /\ match r.2 with
     | Ok _ => exists packet, WebSocket.trace r.1 = WebSocket.trace w ++ written w packet
     | _ => WebSocket.trace r.1 = WebSocket.trace w
     end.

(** * Properties *)

(** ** Bytes and buffers *)

Lemma len_nonneg (b : Buffer) : 0 <= len b.
Proof. unfold len. lia. Qed.

Lemma len_app (a b : Buffer) : len (a ++ b) = len a + len b.
Proof. unfold len. rewrite length_app. lia. Qed.

Lemma len_cons (x : Z) (b : Buffer) : len (x :: b) = 1 + len b.
Proof. unfold len. cbn [length]. lia. Qed.

Lemma len_nil : len [] = 0.
Proof. reflexivity. Qed.

Lemma to_u8_byte (v : Z) : is_byte (to_u8 v).
Proof. unfold is_byte, to_u8. apply Z.mod_pos_bound. lia. Qed.

Lemma to_u8_id (v : Z) : is_byte v -> to_u8 v = v.
Proof. unfold is_byte, to_u8. intros H. apply Z.mod_small. exact H. Qed.

(** A property checked on the 256 bytes holds of every byte. *)
Lemma byte_cases (P : Z -> bool) :
  forallb P (seqZ 0 256) = true -> forall x, is_byte x -> P x = true.
Proof.
  intros H x Hx. rewrite forallb_forall in H. apply H.
  apply list_elem_of_In, elem_of_seqZ. unfold is_byte in Hx. lia.
Qed.

Lemma land_127 (x : Z) : is_byte x -> Z.land x 127 = x mod 128.
Proof.
  intros Hx. apply Z.eqb_eq.
  exact (byte_cases (fun x => Z.land x 127 =? x mod 128) eq_refl x Hx).
Qed.

Lemma land_15 (x : Z) : is_byte x -> Z.land x 15 = x mod 16.
Proof.
  intros Hx. apply Z.eqb_eq.
  exact (byte_cases (fun x => Z.land x 15 =? x mod 16) eq_refl x Hx).
Qed.

Lemma land_128 (x : Z) : is_byte x -> (Z.land x 128 =? 128) = (128 <=? x).
Proof.
  intros Hx. apply Bool.eqb_prop.
  exact (byte_cases (fun x => Bool.eqb (Z.land x 128 =? 128) (128 <=? x)) eq_refl x Hx).
Qed.

Lemma lxor_byte (a b : Z) : is_byte a -> is_byte b -> is_byte (Z.lxor a b).
Proof.
  unfold is_byte. intros Ha Hb.
  assert (0 <= Z.lxor a b) as Hnn by (apply Z.lxor_nonneg; lia).
  split; [exact Hnn|].
  destruct (Z.eq_dec (Z.lxor a b) 0) as [->|Hne]; [lia|].
  change 256 with (2 ^ 8). apply Z.log2_lt_pow2; [lia|].
  pose proof (Z.log2_lxor a b ltac:(lia) ltac:(lia)) as Hl.
  assert (forall c, 0 <= c < 256 -> Z.log2 c < 8) as Hlog.
  { intros c Hc. destruct (Z.eq_dec c 0) as [->|Hc0]; [reflexivity|].
    apply Z.log2_lt_pow2; lia. }
  pose proof (Hlog a Ha). pose proof (Hlog b Hb). lia.
Qed.

Lemma land_3 (idx : Z) : 0 <= idx -> Z.land idx 3 = idx mod 4.
Proof. intros H. change 3 with (Z.ones 2). rewrite Z.land_ones by lia. reflexivity. Qed.

Lemma slice_take (b : Buffer) (n : Z) : 0 <= n <= len b -> slice b 0 n = take (Z.to_nat n) b.
Proof.
  intros Hn. unfold slice, clamp_index.
  destruct (0 <? 0) eqn:E0; [discriminate|].
  destruct (n <? 0) eqn:E1; [lia|].
  rewrite !Z.min_l by (pose proof (len_nonneg b); lia).
  rewrite Z.sub_0_r. reflexivity.
Qed.

Lemma slice_from_drop (b : Buffer) (n : Z) :
  0 <= n <= len b -> slice_from b n = drop (Z.to_nat n) b.
Proof.
  intros Hn. unfold slice_from, slice, clamp_index.
  pose proof (len_nonneg b).
  destruct (n <? 0) eqn:E1; [lia|].
  destruct (len b <? 0) eqn:E2; [lia|].
  rewrite !Z.min_l by lia. apply take_ge.
  rewrite length_drop. unfold len in *. lia.
Qed.

(** ** The parser of packet.ts *)

Module PacketTheory.
Import Packet Wire.

Lemma consume_parsing (n : Z) (this : Packet) (rem : Buffer) :
  parsing this rem -> 0 < n <= len rem ->
  exists d,
    consume n this = Ok (take (Z.to_nat n) rem, set_data d (set_size (len rem - n) this))
    /\ parsing (set_data d (set_size (len rem - n) this)) (drop (Z.to_nat n) rem)
    /\ (n = len rem -> d = rem).
Proof.
  intros [Hsize Hdata] Hn.
  assert (rem <> []) as Hne by (intros ->; rewrite len_nil in Hn; lia).
  specialize (Hdata Hne). unfold consume. cbn [data set_size]. rewrite Hdata, Hsize.
  destruct (n =? len rem) eqn:E.
  - apply Z.eqb_eq in E. exists rem. split; [|split].
    + rewrite take_ge by (unfold len in *; lia).
      destruct this; cbn in Hdata; subst; reflexivity.
    + split; cbn.
      * rewrite drop_ge by (unfold len in *; lia). rewrite len_nil. lia.
      * rewrite drop_ge by (unfold len in *; lia). congruence.
    + reflexivity.
  - apply Z.eqb_neq in E. destruct (n <? len rem) eqn:E'; [|lia].
    exists (drop (Z.to_nat n) rem). split; [|split].
    + rewrite slice_take, slice_from_drop by lia. reflexivity.
    + split; cbn; [|reflexivity].
      unfold len. rewrite length_drop. unfold len in *. lia.
    + lia.
Qed.

Lemma len_take (b : Buffer) (n : Z) : 0 <= n <= len b -> len (take (Z.to_nat n) b) = n.
Proof. intros H. unfold len in *. rewrite length_take. lia. Qed.

Lemma len_xor_loop f key p : len (xor_loop f key p) = len p.
Proof. unfold len, xor_loop. rewrite length_imap. reflexivity. Qed.

Lemma len_unmask this buf : len (unmask this buf) = len buf.
Proof.
  unfold unmask. destruct (mask this) as [[|]|]; try reflexivity.
  destruct (mask_key this); try reflexivity.
  destruct (_ =? 0); [reflexivity | apply len_xor_loop].
Qed.

Lemma get_payload_empty (this : Packet) :
  state this = GET_PAYLOAD -> payload_length this = Some 0 ->
  get_payload this = Ok (set_state COMPLETE (set_payload [] this)).
Proof. intros Hst HL. unfold get_payload. rewrite Hst, HL. reflexivity. Qed.

Ltac enter_payload Hp Hst HL HLr :=
  let Hc := fresh "Hc" in
  let d := fresh "d" in
  unfold get_payload; rewrite Hst, HL; cbn [Z.eqb GET_PAYLOAD];
  destruct (_ =? 0) eqn:?; [lia|];
  destruct (_ <? _) eqn:?; [destruct Hp; lia|];
  destruct (consume_parsing _ _ _ Hp HLr) as (d & Hc & _ & _);
  rewrite Hc; cbn [mbind result_bind].

Lemma get_payload_data (this : Packet) (rem : Buffer) (L : Z) :
  parsing this rem -> state this = GET_PAYLOAD -> payload_length this = Some L ->
  0 < L <= len rem -> opcode this <> Some 8 ->
  exists d s,
    get_payload this
    = Ok (set_state COMPLETE
            (set_payload (unmask this (take (Z.to_nat L) rem)) (set_data d (set_size s this)))).
Proof.
  intros Hp Hst HL HLr Hop. enter_payload Hp Hst HL HLr.
  destruct (decide _) as [E|_]; [cbn in E; destruct (L =? len (data this)); cbn in E; congruence|].
  destruct (L =? len (data this)); eexists _, _; reflexivity.
Qed.

Lemma get_payload_close_1 (this : Packet) (rem : Buffer) :
  parsing this rem -> state this = GET_PAYLOAD -> payload_length this = Some 1 ->
  1 <= len rem -> opcode this = Some 8 ->
  get_payload this = Throw "close frame length is not valid.".
Proof.
  intros Hp Hst HL HLr Hop. remember 1 as L eqn:HL1.
  assert (0 < L <= len rem) as HLr' by lia.
  enter_payload Hp Hst HL HLr'.
  destruct (decide _) as [_|E];
    [|exfalso; apply E; destruct (L =? len (data this)); exact Hop].
  destruct (L =? 1) eqn:?; [reflexivity|lia].
Qed.

Lemma get_payload_close (this : Packet) (rem : Buffer) (L : Z) :
  parsing this rem -> state this = GET_PAYLOAD -> payload_length this = Some L ->
  2 <= L <= len rem -> opcode this = Some 8 ->
  exists d s,
    let p := unmask this (take (Z.to_nat L) rem) in
    get_payload this
    = Ok (set_state COMPLETE
            (set_payload (drop 2 p)
               (set_close_code (at_ p 0 * 256 + at_ p 1)
                  (set_payload p (set_data d (set_size s this)))))).
Proof.
  intros Hp Hst HL HLr Hop. assert (0 < L <= len rem) as HLr' by lia.
  enter_payload Hp Hst HL HLr'.
  destruct (decide _) as [_|E];
    [|exfalso; apply E; destruct (L =? len (data this)); exact Hop].
  destruct (L =? 1) eqn:?; [lia|]. destruct (2 <=? L) eqn:?; [|lia].
  set (p := unmask _ _).
  assert (len p = L) as Hlen.
  { subst p. rewrite len_unmask. apply len_take. lia. }
  unfold readUInt16BE. rewrite Hlen.
  destruct (0 <=? 0) eqn:?; [|lia]. destruct (0 + 2 <=? L) eqn:?; [|lia].
  cbn [andb mbind result_bind].
  rewrite slice_from_drop by lia.
  destruct (L =? len (data this)); eexists _, _; reflexivity.
Qed.

Lemma at_take (b : Buffer) (n : nat) (i : Z) :
  0 <= i < Z.of_nat n -> at_ (take n b) i = at_ b i.
Proof. intros H. unfold at_. rewrite lookup_take_lt by lia. reflexivity. Qed.

Lemma parsing_fields (this this' : Packet) (rem : Buffer) :
  size this' = size this -> data this' = data this -> parsing this rem -> parsing this' rem.
Proof. unfold parsing. intros -> ->. tauto. Qed.

Lemma get_mask_key_unmasked (this : Packet) :
  state this = GET_MASK_KEY -> mask this <> Some true ->
  get_mask_key this = get_payload (set_state GET_PAYLOAD this).
Proof.
  intros Hst Hm. unfold get_mask_key. rewrite Hst. cbn [Z.eqb GET_MASK_KEY].
  destruct (decide _); [contradiction|reflexivity].
Qed.

Lemma get_mask_key_masked (this : Packet) (rem : Buffer) :
  parsing this rem -> state this = GET_MASK_KEY -> mask this = Some true ->
  4 <= len rem ->
  exists d,
    let this' := set_state GET_PAYLOAD
                   (set_mask_key (take 4 rem) (set_data d (set_size (len rem - 4) this))) in
    get_mask_key this = get_payload this' /\ parsing this' (drop 4 rem).
Proof.
  intros Hp Hst Hm Hlen. unfold get_mask_key. rewrite Hst. cbn [Z.eqb GET_MASK_KEY].
  destruct (decide _); [|contradiction].
  destruct (_ <? 4) eqn:?; [destruct Hp; lia|].
  destruct (consume_parsing 4 this rem Hp ltac:(lia)) as (d & Hc & Hp' & _).
  rewrite Hc. exists d. split; [reflexivity|exact Hp'].
Qed.

Lemma get_payload_length_7 (this : Packet) :
  state this = GET_MASK_KEY -> get_payload_length this = get_mask_key this.
Proof. intros Hst. unfold get_payload_length. rewrite Hst. reflexivity. Qed.

Lemma get_payload_length_16 (this : Packet) (rem : Buffer) :
  parsing this rem -> state this = GET_PAYLOAD_LENGTH_16 -> 2 <= len rem ->
  exists d,
    let this' := set_state GET_MASK_KEY
                   (set_payload_length (at_ rem 0 * 256 + at_ rem 1)
                      (set_data d (set_size (len rem - 2) this))) in
    get_payload_length this = get_mask_key this' /\ parsing this' (drop 2 rem).
Proof.
  intros Hp Hst Hlen. unfold get_payload_length. rewrite Hst.
  cbn [Z.eqb GET_PAYLOAD_LENGTH_16].
  destruct (_ <? 2) eqn:?; [destruct Hp; lia|].
  destruct (consume_parsing 2 this rem Hp ltac:(lia)) as (d & Hc & Hp' & _).
  rewrite Hc. cbn [mbind result_bind]. unfold readUInt16BE.
  rewrite (len_take rem 2) by lia. cbn [Z.leb Z.add Z.compare Pos.add Pos.compare Pos.compare_cont andb Pos.succ].
  rewrite !at_take by lia. exists d. split; [reflexivity|exact Hp'].
Qed.

Lemma get_payload_length_64 (this : Packet) (rem : Buffer) :
  parsing this rem -> state this = GET_PAYLOAD_LENGTH_64 -> 8 <= len rem ->
  exists d,
    let hi := at_ rem 0 * 2 ^ 24 + at_ rem 1 * 2 ^ 16 + at_ rem 2 * 2 ^ 8 + at_ rem 3 in
    let lo := at_ rem 4 * 2 ^ 24 + at_ rem 5 * 2 ^ 16 + at_ rem 6 * 2 ^ 8 + at_ rem 7 in
    let this' := set_state GET_MASK_KEY
                   (set_payload_length (round_double (hi * 2 ^ 32 + lo))
                      (set_data d (set_size (len rem - 8) this))) in
    get_payload_length this = get_mask_key this' /\ parsing this' (drop 8 rem).
Proof.
  intros Hp Hst Hlen. unfold get_payload_length. rewrite Hst.
  cbn [Z.eqb GET_PAYLOAD_LENGTH_64 GET_PAYLOAD_LENGTH_16 Pos.eqb].
  destruct (_ <? 8) eqn:?; [destruct Hp; lia|].
  destruct (consume_parsing 8 this rem Hp ltac:(lia)) as (d & Hc & Hp' & _).
  rewrite Hc. cbn [mbind result_bind]. unfold readUInt32BE.
  rewrite (len_take rem 8) by lia.
  change (0 <=? 0) with true. change (0 + 4 <=? 8) with true.
  change (0 <=? 4) with true. change (4 + 4 <=? 8) with true.
  cbn [andb mbind result_bind].
  change (0 + 1) with 1. change (0 + 2) with 2. change (0 + 3) with 3.
  change (4 + 1) with 5. change (4 + 2) with 6. change (4 + 3) with 7.
  rewrite !at_take by lia. exists d. split; [reflexivity|exact Hp'].
Qed.

Lemma constructor_header (b0 b1 : Z) (rem : Buffer) :
  let fin := Z.land b0 128 =? 128 in
  let rsv1 := Z.land b0 64 =? 64 in
  let opcode := Z.land b0 15 in
  let mask := Z.land b1 128 =? 128 in
  let length := Z.land b1 127 in
  (8 <= opcode -> length <= 125 /\ fin = true) ->
  exists d,
    let this' :=
      set_state (if length =? 126 then GET_PAYLOAD_LENGTH_16
                 else if length =? 127 then GET_PAYLOAD_LENGTH_64 else GET_MASK_KEY)
        (set_header fin rsv1 opcode mask length
           (mk GET_HEADER d (len rem) None None None None None None None None)) in
    constructor (b0 :: b1 :: rem) = get_payload_length this' /\ parsing this' rem.
Proof.
  intros fin rsv1 opcode mask length Hlegal. unfold constructor.
  cbn [size]. rewrite !len_cons. pose proof (len_nonneg rem).
  destruct (_ <? 2) eqn:?; [lia|].
  set (this := mk _ _ _ _ _ _ _ _ _ _ _).
  assert (parsing this (b0 :: b1 :: rem)) as Hp.
  { split; [cbn; rewrite !len_cons; reflexivity | reflexivity]. }
  destruct (consume_parsing 2 this _ Hp ltac:(rewrite !len_cons; lia)) as (d & Hc & Hp' & _).
  assert (len (b0 :: b1 :: rem) - 2 = len rem) as Hl2 by (rewrite !len_cons; lia).
  rewrite Hl2 in Hc, Hp'.
  rewrite Hc. cbn [mbind result_bind].
  change (take (Z.to_nat 2) (b0 :: b1 :: rem)) with [b0; b1].
  change (at_ [b0; b1] 0) with b0. change (at_ [b0; b1] 1) with b1.
  fold fin rsv1 opcode mask length.
  assert (((8 <=? opcode) && (125 <? length) = false)
          /\ ((8 <=? opcode) && negb fin = false)) as [-> ->].
  { destruct (8 <=? opcode) eqn:E8; [|split; reflexivity].
    destruct Hlegal as [Hl Hf]; [lia|]. rewrite Hf.
    destruct (125 <? length) eqn:?; [lia|]. split; reflexivity. }
  exists d. split.
  - destruct (length =? 126), (length =? 127); reflexivity.
  - revert Hp'. apply parsing_fields; destruct (length =? 126), (length =? 127); reflexivity.
Qed.

(** *** A chunk that starts with a whole frame

    The header bytes [b0] and [b1], the length extension [ext], the mask key
    [key], and then the payload. *)

Lemma len_0_nil (b : Buffer) : len b = 0 -> b = [].
Proof. destruct b; [reflexivity|]. rewrite len_cons. pose proof (len_nonneg b). lia. Qed.

Lemma constructor_mask_stage (b1 : Z) (key rem : Buffer) (this : Packet) :
  let this' := set_state GET_MASK_KEY this in
  parsing this' (key ++ rem) ->
  len key = key_size b1 ->
  mask this = Some (Z.land b1 128 =? 128) ->
  exists d,
    get_mask_key this'
    = get_payload (set_state GET_PAYLOAD
                     ((if Z.land b1 128 =? 128 then set_mask_key key else id)
                        (set_data d (set_size (len rem) this))))
    /\ (rem <> [] -> d = rem).
Proof.
  intros this' Hp Hk Hm. unfold key_size in Hk.
  destruct (Z.land b1 128 =? 128) eqn:E.
  - destruct (get_mask_key_masked this' (key ++ rem) Hp eq_refl Hm
                ltac:(rewrite len_app; pose proof (len_nonneg rem); lia))
      as (d & Heq & Hp').
    assert (length key = 4%nat) as Hk' by (unfold len in Hk; lia).
    rewrite take_app_length' in Heq by (symmetry; exact Hk').
    rewrite drop_app_length' in Hp' by (symmetry; exact Hk').
    rewrite len_app, Hk in Heq, Hp'.
    replace (4 + len rem - 4) with (len rem) in Heq, Hp' by lia.
    exists d. split; [exact Heq|]. intros Hne. destruct Hp' as [_ Hd]. exact (Hd Hne).
  - apply len_0_nil in Hk. subst key. cbn [app] in Hp.
    rewrite get_mask_key_unmasked by (cbn; rewrite ?Hm; congruence).
    exists (data this). split.
    + destruct Hp as [Hs _]. cbn in Hs. rewrite <- Hs. destruct this; reflexivity.
    + intros Hne. destruct Hp as [_ Hd]. exact (Hd Hne).
Qed.

Lemma constructor_to_payload (b0 b1 : Z) (ext key rem : Buffer) :
  legal b0 b1 -> len ext = ext_size b1 -> len key = key_size b1 ->
  exists d,
    constructor (b0 :: b1 :: ext ++ key ++ rem)
    = get_payload (at_payload b0 b1 ext key d (len rem))
    /\ (rem <> [] -> d = rem).
Proof.
  intros Hlegal Hext Hkey.
  destruct (constructor_header b0 b1 (ext ++ key ++ rem) Hlegal) as (d0 & Heq & Hp).
  cbv zeta in Heq, Hp. rewrite Heq. clear Heq.
  unfold ext_size in Hext. unfold at_payload, announced.
  pose proof (len_nonneg key) as Hk0. pose proof (len_nonneg rem) as Hr0.
  destruct (Z.land b1 127 =? 126) eqn:E126; [|destruct (Z.land b1 127 =? 127) eqn:E127].
  - destruct ext as [|e0 [|e1 [|e2 ext]]]; rewrite ?len_cons, ?len_nil in Hext;
      try (pose proof (len_nonneg ext)); try lia.
    destruct (get_payload_length_16 _ _ Hp eq_refl
                ltac:(cbn [app]; rewrite !len_cons, len_app; lia)) as (d1 & Heq & Hp1).
    cbv zeta in Heq, Hp1. rewrite Heq. clear Heq.
    change (drop 2 ([e0; e1] ++ key ++ rem)) with (key ++ rem) in Hp1.
    change (at_ ([e0; e1] ++ key ++ rem) 0) with e0 in *.
    change (at_ ([e0; e1] ++ key ++ rem) 1) with e1 in *.
    destruct (constructor_mask_stage b1 key rem _ Hp1 Hkey eq_refl) as (d & Heq & Hd).
    rewrite Heq. exists d. split; [|exact Hd].
    replace (be [e0; e1]) with (e0 * 256 + e1) by (unfold be; cbn [fold_left]; lia).
    destruct (Z.land b1 128 =? 128); reflexivity.
  - destruct ext as [|e0 [|e1 [|e2 [|e3 [|e4 [|e5 [|e6 [|e7 [|e8 ext]]]]]]]]];
      rewrite ?len_cons, ?len_nil in Hext; try (pose proof (len_nonneg ext)); try lia.
    destruct (get_payload_length_64 _ _ Hp eq_refl
                ltac:(cbn [app]; rewrite !len_cons, len_app; lia)) as (d1 & Heq & Hp1).
    cbv zeta in Heq, Hp1. rewrite Heq. clear Heq.
    change (drop 8 ([e0; e1; e2; e3; e4; e5; e6; e7] ++ key ++ rem)) with (key ++ rem) in Hp1.
    set (ext := [e0; e1; e2; e3; e4; e5; e6; e7]) in *.
    change (at_ (ext ++ key ++ rem) 0) with e0 in *.
    change (at_ (ext ++ key ++ rem) 1) with e1 in *.
    change (at_ (ext ++ key ++ rem) 2) with e2 in *.
    change (at_ (ext ++ key ++ rem) 3) with e3 in *.
    change (at_ (ext ++ key ++ rem) 4) with e4 in *.
    change (at_ (ext ++ key ++ rem) 5) with e5 in *.
    change (at_ (ext ++ key ++ rem) 6) with e6 in *.
    change (at_ (ext ++ key ++ rem) 7) with e7 in *.
    destruct (constructor_mask_stage b1 key rem _ Hp1 Hkey eq_refl) as (d & Heq & Hd).
    rewrite Heq. exists d. split; [|exact Hd].
    replace (be ext)
      with ((e0 * 2 ^ 24 + e1 * 2 ^ 16 + e2 * 2 ^ 8 + e3) * 2 ^ 32
            + (e4 * 2 ^ 24 + e5 * 2 ^ 16 + e6 * 2 ^ 8 + e7))
      by (unfold be, ext; cbn [fold_left]; lia).
    destruct (Z.land b1 128 =? 128); reflexivity.
  - apply len_0_nil in Hext. subst ext. cbn [app] in *.
    rewrite get_payload_length_7 by reflexivity.
    destruct (constructor_mask_stage b1 key rem _ Hp Hkey eq_refl) as (d & Heq & Hd).
    rewrite Heq. exists d. split; [|exact Hd].
    destruct (Z.land b1 128 =? 128); reflexivity.
Qed.

Lemma at_payload_parsing (b0 b1 : Z) (ext key d rem : Buffer) :
  (rem <> [] -> d = rem) -> parsing (at_payload b0 b1 ext key d (len rem)) rem.
Proof. intros H. split; [reflexivity|exact H]. Qed.

(** *** Masking *)

Lemma at_byte (b : Buffer) (i : Z) : bytes b -> is_byte (at_ b i).
Proof.
  intros Hb. unfold at_. destruct (b !! Z.to_nat i) as [x|] eqn:E; cbn.
  - eapply Forall_lookup_1; eassumption.
  - unfold is_byte. lia.
Qed.

Lemma xor_mask_bytes (key body : Buffer) : bytes key -> bytes body -> bytes (xor_mask key body).
Proof.
  intros Hk Hb. apply Forall_lookup_2. intros i x. unfold xor_mask.
  rewrite list_lookup_imap. destruct (body !! i) as [y|] eqn:E; [|discriminate].
  cbn. intros [= <-]. apply lxor_byte; [|apply at_byte, Hk].
  eapply Forall_lookup_1; eassumption.
Qed.

Lemma len_xor_mask (key body : Buffer) : len (xor_mask key body) = len body.
Proof. unfold len, xor_mask. rewrite length_imap. reflexivity. Qed.

(** The two masking loops of the source compute [xor_mask] on bytes. *)
Lemma xor_loop_land_3 (key body : Buffer) :
  bytes key -> bytes body -> xor_loop (fun idx => Z.land idx 3) key body = xor_mask key body.
Proof.
  intros Hk Hb. unfold xor_loop, xor_mask. apply imap_ext. intros i x Hx. cbn beta.
  rewrite land_3 by lia. apply to_u8_id, lxor_byte; [|apply at_byte, Hk].
  eapply Forall_lookup_1; eassumption.
Qed.

Lemma xor_loop_mod_4 (key body : Buffer) :
  bytes key -> bytes body -> xor_loop (fun idx => idx mod 4) key body = xor_mask key body.
Proof.
  intros Hk Hb. unfold xor_loop, xor_mask. apply imap_ext. intros i x Hx. cbn beta.
  apply to_u8_id, lxor_byte; [|apply at_byte, Hk].
  eapply Forall_lookup_1; eassumption.
Qed.

Lemma xor_mask_zero (key body : Buffer) :
  Z.lor (Z.lor (Z.lor (at_ key 0) (at_ key 1)) (at_ key 2)) (at_ key 3) = 0 ->
  xor_mask key body = body.
Proof.
  intros H. apply Z.lor_eq_0_iff in H as [H H3]. apply Z.lor_eq_0_iff in H as [H H2].
  apply Z.lor_eq_0_iff in H as [H0 H1].
  unfold xor_mask. apply list_eq. intros i. rewrite list_lookup_imap.
  destruct (body !! i) as [x|]; [|reflexivity]. cbn. f_equal.
  assert (at_ key (Z.of_nat i mod 4) = 0) as ->.
  { pose proof (Z.mod_pos_bound (Z.of_nat i) 4 ltac:(lia)) as Hm.
    assert (Z.of_nat i mod 4 = 0 \/ Z.of_nat i mod 4 = 1
            \/ Z.of_nat i mod 4 = 2 \/ Z.of_nat i mod 4 = 3) as [-> | [-> | [-> | ->]]] by lia;
      assumption. }
  apply Z.lxor_0_r.
Qed.

(** The unmasking step of the parser is [xor_mask]; skipping it for a key
    of zeros changes nothing. *)
Lemma unmask_masked (this : Packet) (key body : Buffer) :
  mask this = Some true -> mask_key this = Some key -> bytes key -> bytes body ->
  unmask this body = xor_mask key body.
Proof.
  intros Hm Hk Hbk Hbb. unfold unmask. rewrite Hm, Hk.
  destruct (_ =? 0) eqn:E.
  - apply Z.eqb_eq in E. symmetry. apply xor_mask_zero, E.
  - apply xor_loop_land_3; assumption.
Qed.

Lemma unmask_unmasked (this : Packet) (body : Buffer) :
  mask this = Some false -> unmask this body = body.
Proof. intros Hm. unfold unmask. rewrite Hm. reflexivity. Qed.

(** Masking twice with one key gives the payload back. *)
Lemma xor_mask_involutive (key body : Buffer) :
  xor_mask key (xor_mask key body) = body.
Proof.
  unfold xor_mask. apply list_eq. intros i. rewrite !list_lookup_imap.
  destruct (body !! i) as [x|]; [|reflexivity]. cbn.
  rewrite Z.lxor_assoc, Z.lxor_nilpotent, Z.lxor_0_r. reflexivity.
Qed.

Lemma unmask_at_payload (b0 b1 : Z) (ext key d body : Buffer) (n : Z) :
  bytes key -> bytes body ->
  unmask (at_payload b0 b1 ext key d n) body = wire_payload b1 key body.
Proof.
  intros Hk Hb. unfold wire_payload.
  destruct (Z.land b1 128 =? 128) eqn:E.
  - apply unmask_masked; cbn; rewrite ?E; auto.
  - apply unmask_unmasked; cbn; rewrite ?E; auto.
Qed.

(** *** Decoding a chunk that starts with a whole frame *)

Section WholeFrame.

Variables (b0 b1 : Z) (ext key body rest : Buffer).
Hypothesis Hlegal : legal b0 b1.
Hypothesis Hext : len ext = ext_size b1.
Hypothesis Hkey : len key = key_size b1.
Hypothesis Hbody : len body = announced b1 ext.
Hypothesis Hbk : bytes key.
Hypothesis Hbb : bytes body.

Let chunk : Buffer := b0 :: b1 :: ext ++ key ++ body ++ rest.
Let p : Buffer := wire_payload b1 key body.

Lemma take_body : take (Z.to_nat (announced b1 ext)) (body ++ rest) = body.
Proof.
  rewrite <- Hbody. unfold len. rewrite Nat2Z.id. apply take_app_length.
Qed.

(** A frame other than a close frame with a payload: the packet is complete
    and holds the payload unmasked. *)
Lemma whole_frame_data :
  Z.land b0 15 <> 8 \/ announced b1 ext = 0 ->
  decoded (constructor chunk) (Z.land b0 128 =? 128) (Z.land b0 64 =? 64)
          (Z.land b0 15) (Z.land b1 128 =? 128) p None.
Proof.
  intros Hop.
  destruct (constructor_to_payload b0 b1 ext key (body ++ rest) Hlegal Hext Hkey)
    as (d & Heq & Hd).
  unfold chunk. rewrite Heq. clear Heq.
  pose proof (at_payload_parsing b0 b1 ext key d (body ++ rest) Hd) as Hp.
  destruct (Z.eq_dec (announced b1 ext) 0) as [E0|E0].
  - rewrite get_payload_empty by (cbn; rewrite ?E0; reflexivity).
    assert (body = []) as Hnil by (apply len_0_nil; lia).
    eexists. split; [reflexivity|]. cbn. unfold p, wire_payload. rewrite Hnil.
    destruct (Z.land b1 128 =? 128); repeat split; reflexivity.
  - destruct Hop as [Hop|Hop]; [|contradiction].
    pose proof (len_nonneg body) as Hb0.
    destruct (get_payload_data _ (body ++ rest) (announced b1 ext) Hp eq_refl eq_refl
                ltac:(rewrite len_app; pose proof (len_nonneg rest); lia)
                ltac:(cbn; congruence)) as (d' & s & Heq).
    rewrite Heq. rewrite take_body, unmask_at_payload by assumption.
    eexists. split; [reflexivity|]. cbn. repeat split; reflexivity.
Qed.

(** A close frame with a payload of one byte. *)
Lemma whole_frame_close_1 :
  Z.land b0 15 = 8 -> announced b1 ext = 1 ->
  constructor chunk = Throw "close frame length is not valid.".
Proof.
  intros Hop HL.
  destruct (constructor_to_payload b0 b1 ext key (body ++ rest) Hlegal Hext Hkey)
    as (d & Heq & Hd).
  unfold chunk. rewrite Heq. clear Heq.
  pose proof (at_payload_parsing b0 b1 ext key d (body ++ rest) Hd) as Hp.
  apply (get_payload_close_1 _ (body ++ rest) Hp eq_refl).
  - cbn. rewrite HL. reflexivity.
  - rewrite len_app. pose proof (len_nonneg rest). lia.
  - cbn. rewrite Hop. reflexivity.
Qed.

(** A close frame with a payload of two bytes or more. *)
Lemma whole_frame_close :
  Z.land b0 15 = 8 -> 2 <= announced b1 ext ->
  decoded (constructor chunk) (Z.land b0 128 =? 128) (Z.land b0 64 =? 64)
          8 (Z.land b1 128 =? 128) (drop 2 p) (Some (at_ p 0 * 256 + at_ p 1)).
Proof.
  intros Hop HL.
  destruct (constructor_to_payload b0 b1 ext key (body ++ rest) Hlegal Hext Hkey)
    as (d & Heq & Hd).
  unfold chunk. rewrite Heq. clear Heq.
  pose proof (at_payload_parsing b0 b1 ext key d (body ++ rest) Hd) as Hp.
  destruct (get_payload_close _ (body ++ rest) (announced b1 ext) Hp eq_refl eq_refl
              ltac:(rewrite len_app; pose proof (len_nonneg rest); lia)
              ltac:(cbn; rewrite Hop; reflexivity)) as (d' & s & Heq).
  cbv zeta in Heq. rewrite Heq. rewrite take_body, unmask_at_payload by assumption.
  eexists. split; [reflexivity|]. cbn. rewrite Hop. repeat split; reflexivity.
Qed.

End WholeFrame.

(** *** The constructor returns or throws

    [consume] is only called for bytes that [size] counts, and [size] never
    counts more than [data] holds: the loop of [consume] is not entered. *)

Lemma consume_within (n : Z) (this : Packet) :
  within this -> 0 <= n <= size this ->
  exists buf d,
    consume n this = Ok (buf, set_data d (set_size (size this - n) this))
    /\ within (set_data d (set_size (size this - n) this))
    /\ len buf = n.
Proof.
  intros [H0 H1] Hn. unfold consume. cbn [data set_size size].
  destruct (n =? len (data this)) eqn:E.
  - apply Z.eqb_eq in E. exists (data this), (data this). split; [|split].
    + destruct this; reflexivity.
    + split; cbn; lia.
    + congruence.
  - destruct (n <? len (data this)) eqn:E'; [|apply Z.eqb_neq in E; lia].
    exists (slice (data this) 0 n), (slice_from (data this) n). split; [reflexivity|].
    rewrite slice_take, slice_from_drop by lia. split.
    + split; cbn; [lia|]. unfold len. rewrite length_drop. unfold len in *. lia.
    + apply len_take. lia.
Qed.

Lemma get_payload_no_loop (this : Packet) :
  within this -> (forall L, payload_length this = Some L -> 0 <= L) ->
  get_payload this <> Loops.
Proof.
  intros Hw HL. unfold get_payload.
  destruct (state this =? GET_PAYLOAD); [|discriminate].
  destruct (payload_length this) as [L|] eqn:EL; [|discriminate].
  specialize (HL L eq_refl).
  destruct (L =? 0); [discriminate|].
  destruct (size this <? L) eqn:E; [discriminate|].
  destruct (consume_within L this Hw ltac:(lia)) as (buf & d & Hc & _ & Hlen).
  rewrite Hc. cbn [mbind result_bind].
  destruct (decide _); [|discriminate].
  destruct (L =? 1); [discriminate|]. destruct (2 <=? L); [|discriminate].
  unfold readUInt16BE. destruct (_ && _); discriminate.
Qed.

Lemma get_mask_key_no_loop (this : Packet) :
  within this -> (forall L, payload_length this = Some L -> 0 <= L) ->
  get_mask_key this <> Loops.
Proof.
  intros Hw HL. unfold get_mask_key.
  destruct (state this =? GET_MASK_KEY); [|apply get_payload_no_loop; assumption].
  destruct (decide _); [|apply get_payload_no_loop; assumption].
  destruct (size this <? 4) eqn:E; [discriminate|].
  destruct (consume_within 4 this Hw ltac:(lia)) as (buf & d & Hc & Hw' & _).
  rewrite Hc. cbn [mbind result_bind]. apply get_payload_no_loop; assumption.
Qed.

Lemma at_nonneg (b : Buffer) (i : Z) : bytes b -> 0 <= at_ b i.
Proof. intros Hb. destruct (at_byte b i Hb). assumption. Qed.

Lemma round_double_nonneg (x : Z) : 0 <= x -> 0 <= round_double x.
Proof.
  intros Hx. unfold round_double. destruct (x <? 2 ^ 53) eqn:E; [exact Hx|].
  apply Z.ltb_ge in E. cbv zeta.
  assert (53 <= Z.log2 x) as Hlog by (apply (Z.log2_le_pow2 x 53); lia).
  assert (0 < 2 ^ (Z.log2 x - 52)) as Hpow by (apply Z.pow_pos_nonneg; lia).
  assert (0 <= x / 2 ^ (Z.log2 x - 52)) as Hq by (apply Z.div_pos; lia).
  apply Z.mul_nonneg_nonneg; [|lia].
  repeat match goal with |- context [if ?c then _ else _] => destruct c end; lia.
Qed.

Lemma get_payload_length_no_loop (this : Packet) :
  within this -> bytes (data this) ->
  (forall L, payload_length this = Some L -> 0 <= L) ->
  get_payload_length this <> Loops.
Proof.
  intros Hw Hb HL. unfold get_payload_length.
  assert (forall n buf d, 0 <= n <= size this ->
            consume n this = Ok (buf, set_data d (set_size (size this - n) this)) ->
            bytes buf) as Hbuf.
  { intros n buf d Hn Hc. unfold consume in Hc. cbn [data set_size] in Hc.
    destruct Hw as [Hw0 Hw1].
    destruct (n =? len (data this)); [injection Hc as <- _; exact Hb|].
    destruct (n <? len (data this)) eqn:E; [|discriminate].
    injection Hc as <- _. rewrite slice_take by lia. apply Forall_take, Hb. }
  destruct (state this =? GET_PAYLOAD_LENGTH_16).
  - destruct (size this <? 2) eqn:E; [discriminate|].
    destruct (consume_within 2 this Hw ltac:(lia)) as (buf & d & Hc & Hw' & Hlen).
    pose proof (Hbuf 2 buf d ltac:(lia) Hc) as Hbb.
    rewrite Hc. cbn [mbind result_bind]. unfold readUInt16BE. rewrite Hlen.
    change ((0 <=? 0) && (0 + 2 <=? 2)) with true. cbn [mbind result_bind].
    apply get_mask_key_no_loop; [exact Hw'|]. cbn. intros L [= <-].
    pose proof (at_nonneg buf 0 Hbb). pose proof (at_nonneg buf (0 + 1) Hbb). lia.
  - destruct (state this =? GET_PAYLOAD_LENGTH_64).
    + destruct (size this <? 8) eqn:E; [discriminate|].
      destruct (consume_within 8 this Hw ltac:(lia)) as (buf & d & Hc & Hw' & Hlen).
      pose proof (Hbuf 8 buf d ltac:(lia) Hc) as Hbb.
      rewrite Hc. cbn [mbind result_bind]. unfold readUInt32BE. rewrite Hlen.
      change ((0 <=? 0) && (0 + 4 <=? 8)) with true.
      change ((0 <=? 4) && (4 + 4 <=? 8)) with true. cbn [mbind result_bind].
      apply get_mask_key_no_loop; [exact Hw'|]. cbn. intros L [= <-].
      apply round_double_nonneg.
      pose proof (at_nonneg buf 0 Hbb). pose proof (at_nonneg buf (0 + 1) Hbb).
      pose proof (at_nonneg buf (0 + 2) Hbb). pose proof (at_nonneg buf (0 + 3) Hbb).
      pose proof (at_nonneg buf 4 Hbb). pose proof (at_nonneg buf (4 + 1) Hbb).
      pose proof (at_nonneg buf (4 + 2) Hbb). pose proof (at_nonneg buf (4 + 3) Hbb).
      lia.
    + apply get_mask_key_no_loop; assumption.
Qed.

(** On a chunk of bytes the constructor returns a packet or throws. *)
Lemma constructor_no_loop (data : Buffer) : bytes data -> constructor data <> Loops.
Proof.
  intros Hb. unfold constructor. cbn [size].
  destruct (len data <? 2) eqn:E; [discriminate|].
  set (this := mk _ _ _ _ _ _ _ _ _ _ _).
  assert (within this) as Hw by (split; cbn; [apply len_nonneg|lia]).
  destruct (consume_within 2 this Hw ltac:(cbn; lia)) as (buf & d & Hc & Hw' & Hlen).
  rewrite Hc. cbn [mbind result_bind].
  destruct (_ && _); [discriminate|]. destruct (_ && _); [discriminate|].
  assert (bytes d) as Hbd.
  { unfold consume in Hc. cbn [Packet.data set_size this] in Hc.
    destruct (2 =? len data); [injection Hc as _ <-; exact Hb|].
    destruct (2 <? len data) eqn:E'; [|discriminate].
    injection Hc as _ <-. rewrite slice_from_drop by lia. apply Forall_drop, Hb. }
  apply get_payload_length_no_loop.
  - repeat match goal with |- context [if ?c then _ else _] => destruct c end; exact Hw'.
  - repeat match goal with |- context [if ?c then _ else _] => destruct c end; exact Hbd.
  - intros L HL.
    assert (L = Z.land (at_ buf 1) 127) as ->
        by (repeat match type of HL with context [if ?c then _ else _] => destruct c end;
            cbn in HL; congruence).
    apply Z.land_nonneg. right. lia.
Qed.

End PacketTheory.

Import Wire PacketTheory.

(** ** Control frames and close frames on decode *)

(** C3.  A chunk whose two header bytes give an opcode of 8 or more and
    either a 7-bit length above 125 or a cleared FIN bit makes the
    constructor throw: no packet, hence no frame, comes out of it. *)
Theorem control_frame_illegal_throws (b0 b1 : Z) (rest : Buffer) :
  8 <= Z.land b0 15 ->
  125 < Z.land b1 127 \/ (Z.land b0 128 =? 128) = false ->
  Packet.constructor (b0 :: b1 :: rest) = Throw "control frames must be less than 125 bytes."
  \/ Packet.constructor (b0 :: b1 :: rest) = Throw "control frames must not be fragmented.".
Proof.
  intros Hop Hbad. unfold Packet.constructor. cbn [Packet.size].
  rewrite !len_cons. pose proof (len_nonneg rest).
  destruct (_ <? 2) eqn:?; [lia|].
  set (this := Packet.mk _ _ _ _ _ _ _ _ _ _ _).
  assert (parsing this (b0 :: b1 :: rest)) as Hp.
  { split; [cbn; rewrite !len_cons; reflexivity | reflexivity]. }
  destruct (consume_parsing 2 this _ Hp ltac:(rewrite !len_cons; lia)) as (d & Hc & _).
  rewrite Hc. cbn [mbind result_bind].
  change (take (Z.to_nat 2) (b0 :: b1 :: rest)) with [b0; b1].
  change (at_ [b0; b1] 0) with b0. change (at_ [b0; b1] 1) with b1.
  destruct (8 <=? Z.land b0 15) eqn:?; [|lia]. cbn [andb].
  destruct (125 <? Z.land b1 127) eqn:E; [left; reflexivity|].
  destruct Hbad as [Hbad|Hbad]; [lia|]. rewrite Hbad. right. reflexivity.
Qed.

Lemma control_frame_illegal_throws_witness :
  Packet.constructor [137; 126; 0; 126]
  = Throw "control frames must be less than 125 bytes."
  \/ Packet.constructor [137; 126; 0; 126]
     = Throw "control frames must not be fragmented.".
Proof.
  apply (control_frame_illegal_throws 137 126 [0; 126]).
  - vm_compute. discriminate.
  - left. reflexivity.
Defined.

(** C4.  A chunk that starts with a whole close frame (opcode 8, FIN set,
    [key] present when the mask bit is set, [body] as long as the 7-bit
    length says): a payload of one byte makes the constructor throw; a
    payload of two bytes or more gives [close_code] as the big-endian value of
    the first two bytes of the unmasked payload and [payload] as the bytes
    after them; an empty payload gives a complete packet without
    [close_code], and the connection then records 1006. *)
Theorem close_frame_postprocessing (b0 b1 : Z) (key body rest : Buffer)
    (random : Z -> Z) (w : WebSocket.WebSocket) :
  Z.land b0 15 = 8 -> (Z.land b0 128 =? 128) = true -> Z.land b1 127 <= 125 ->
  len key = key_size b1 -> len body = Z.land b1 127 ->
  bytes key -> bytes body ->
  let chunk := b0 :: b1 :: key ++ body ++ rest in
  let p := wire_payload b1 key body in
  (Z.land b1 127 = 1 ->
     Packet.constructor chunk = Throw "close frame length is not valid.")
  /\ (2 <= Z.land b1 127 ->
      exists packet,
        Packet.constructor chunk = Ok packet
        /\ Packet.state packet = Packet.COMPLETE
        /\ Packet.opcode packet = Some 8
        /\ Packet.close_code packet = Some (at_ p 0 * 256 + at_ p 1)
        /\ Packet.payload packet = Some (drop 2 p))
  /\ (Z.land b1 127 = 0 ->
      (exists packet,
         Packet.constructor chunk = Ok packet
         /\ Packet.state packet = Packet.COMPLETE
         /\ Packet.opcode packet = Some 8
         /\ Packet.close_code packet = None
         /\ Packet.payload packet = Some [])
      /\ WebSocket.closeCode (WebSocket.socket_on_data chunk random w).1 = 1006).
Proof.
  intros Hop Hfin Hlen Hkey Hbody Hbk Hbb chunk p.
  assert (legal b0 b1) as Hlegal by (intros _; split; assumption).
  assert (ext_size b1 = 0) as Hes.
  { unfold ext_size. destruct (_ =? 126) eqn:?; [lia|]. destruct (_ =? 127) eqn:?; lia. }
  assert (forall ext, announced b1 ext = Z.land b1 127) as Han.
  { intros ext. unfold announced.
    destruct (_ =? 126) eqn:?; [lia|]. destruct (_ =? 127) eqn:?; lia. }
  assert (len (@nil Z) = ext_size b1) as Hext by (rewrite Hes; reflexivity).
  assert (len body = announced b1 []) as Hbody' by (rewrite Han; exact Hbody).
  split; [|split].
  - intros H1.
    apply (whole_frame_close_1 b0 b1 [] key body rest Hlegal Hext Hkey Hbody' Hop).
    rewrite Han. exact H1.
  - intros H2.
    destruct (whole_frame_close b0 b1 [] key body rest Hlegal Hext Hkey Hbody' Hbk Hbb Hop
                ltac:(rewrite Han; exact H2))
      as (packet & Heq & Hst & _ & _ & Ho & _ & Hpl & Hcc).
    exists packet. repeat split; assumption.
  - intros H0.
    destruct (whole_frame_data b0 b1 [] key body rest Hlegal Hext Hkey Hbody' Hbk Hbb
                ltac:(right; rewrite Han; exact H0))
      as (packet & Heq & Hst & _ & _ & Ho & _ & Hpl & Hcc).
    assert (body = []) as -> by (apply len_0_nil; lia).
    assert (wire_payload b1 key [] = []) as Hw
        by (unfold wire_payload; destruct (Z.land b1 128 =? 128); reflexivity).
    rewrite Hw in Hpl. rewrite Hop in Ho. split.
    + exists packet. repeat split; assumption.
    + unfold WebSocket.socket_on_data, WebSocket.lift, mbind, WebSocket.M_bind.
      change (Packet.constructor (b0 :: b1 :: [] ++ key ++ [] ++ rest))
        with (Packet.constructor chunk) in Heq.
      fold chunk. rewrite Heq, Hpl, Ho, Hcc.
      unfold WebSocket.socket_destroy, WebSocket.get, mbind, WebSocket.M_bind. cbn.
      destruct (WebSocket.socket w); reflexivity.
Qed.

Lemma close_frame_postprocessing_witness :
  exists packet,
    Packet.constructor [136; 130; 1; 2; 3; 4; 2; 234] = Ok packet
    /\ Packet.state packet = Packet.COMPLETE
    /\ Packet.opcode packet = Some 8
    /\ Packet.close_code packet = Some 1000
    /\ Packet.payload packet = Some [].
Proof.
  apply (proj1 (proj2 (close_frame_postprocessing 136 130 [1; 2; 3; 4] [2; 234] []
                         (fun _ => 0) open_connection eq_refl eq_refl
                         ltac:(vm_compute; discriminate) eq_refl eq_refl
                         ltac:(repeat constructor; unfold is_byte; lia)
                         ltac:(repeat constructor; unfold is_byte; lia)))).
  vm_compute. discriminate.
Defined.

(** ** The frame that [Packet.frame] builds *)

Lemma set_at_cons_0 (x : Z) (l : Buffer) (v : Z) : set_at (x :: l) 0 v = to_u8 v :: l.
Proof. reflexivity. Qed.

Lemma set_at_cons_pos (x : Z) (l : Buffer) (p : positive) (v : Z) :
  set_at (x :: l) (Z.pos p) v = x :: set_at l (Z.pos p - 1) v.
Proof.
  unfold set_at. change (0 <=? Z.pos p) with true. cbv iota.
  destruct (0 <=? Z.pos p - 1) eqn:E; [|apply Z.leb_gt in E; lia].
  replace (Z.to_nat (Z.pos p)) with (S (Z.to_nat (Z.pos p - 1))) by lia. reflexivity.
Qed.

(** Evaluation of stores and loads at literal positions of a list given by
    its elements. *)
Ltac literal_sums :=
  repeat match goal with
  | |- context [Z.pos ?a + Z.pos ?b] =>
    let v := eval vm_compute in (Z.pos a + Z.pos b) in
    change (Z.pos a + Z.pos b) with v
  | |- context [Z.pos ?a + 0] => change (Z.pos a + 0) with (Z.pos a)
  | |- context [Z.pos ?a <=? Z.pos ?b] =>
    let v := eval vm_compute in (Z.pos a <=? Z.pos b) in
    change (Z.pos a <=? Z.pos b) with v
  | |- context [0 <=? Z.pos ?b] => change (0 <=? Z.pos b) with true
  | |- context [len (?a :: ?l)] =>
    let v := eval vm_compute in (Z.of_nat (length (a :: l))) in
    change (len (a :: l)) with v
  end.

Ltac set_at_literal :=
  repeat match goal with
  | |- context [set_at (?x :: ?l) 0 ?v] => rewrite (set_at_cons_0 x l v)
  | |- context [set_at (?x :: ?l) (Z.pos ?p) ?v] =>
    let i := eval vm_compute in (Z.pos p - 1) in
    rewrite (set_at_cons_pos x l p v); change (Z.pos p - 1) with i
  end.

Lemma concat_exact (a b : Buffer) (n : Z) : n = len b -> concat [a; b] (len a + n) = a ++ b.
Proof.
  intros ->. unfold concat. cbn [mjoin list_join]. rewrite app_nil_r.
  replace (Z.to_nat (len a + len b)) with (length (a ++ b))
    by (rewrite length_app; unfold len; lia).
  rewrite Nat.sub_diag. cbn [replicate]. rewrite app_nil_r. apply firstn_all.
Qed.

Lemma frame_shape (opcode : Z) (payload : nat) (fin rsv1 mask : bool)
    (random : Z -> Z) (h : list (list Z)) (bytes0 : Buffer) :
  h !! payload = Some bytes0 -> len bytes0 <= MAX_LENGTH ->
  let key := if mask then key_of random else [] in
  let body := if mask then xor_loop (fun idx => idx mod 4) key bytes0 else bytes0 in
  Packet.frame opcode payload fin rsv1 mask random h
  = Ok (to_u8 ((if fin then 128 else 0) + opcode)
        :: to_u8 (to_u8 (if mask then 128 else 0) + marker (len bytes0))
        :: extension (len bytes0) ++ key ++ body,
        if mask then <[payload := body]> h else h).
Proof.
  intros Hh Hmax key body. unfold Packet.frame. rewrite Hh.
  pose proof (len_nonneg bytes0) as H0. unfold MAX_LENGTH in Hmax.
  unfold marker, extension. change (alloc 4) with [0; 0; 0; 0].
  destruct (len bytes0 <? 126) eqn:E1; [|destruct (len bytes0 <? 65536) eqn:E2].
  - cbn [mbind result_bind].
    destruct mask; subst key body;
      [change (alloc (2 + 0 + 4)) with [0; 0; 0; 0; 0; 0]
      |change (alloc (2 + 0 + 0)) with [0; 0]];
      literal_sums; set_at_literal;
      change (at_ (?x0 :: ?x1 :: ?l) 1) with x1.
    + rewrite list_lookup_insert_eq by (eapply lookup_lt_Some, Hh). cbn [default].
      rewrite concat_exact by (symmetry; apply len_xor_loop). reflexivity.
    + rewrite Hh. cbn [default]. rewrite concat_exact by reflexivity. reflexivity.
  - unfold writeUInt16BE.
    destruct mask; subst key body;
      [change (alloc (2 + 2 + 4)) with [0; 0; 0; 0; 0; 0; 0; 0]
      |change (alloc (2 + 2 + 0)) with [0; 0; 0; 0]];
      literal_sums; set_at_literal;
      change (at_ (?x0 :: ?x1 :: ?l) 1) with x1;
      set_at_literal;
      literal_sums;
      destruct (0 <=? len bytes0) eqn:?; [|lia|idtac|lia];
      destruct (len bytes0 <? 2 ^ 16) eqn:?; try lia;
      cbn [andb mbind result_bind];
      literal_sums; set_at_literal.
    + rewrite list_lookup_insert_eq by (eapply lookup_lt_Some, Hh). cbn [default].
      rewrite concat_exact by (symmetry; apply len_xor_loop). reflexivity.
    + rewrite Hh. cbn [default]. rewrite concat_exact by reflexivity. reflexivity.
  - unfold writeUInt32BE.
    assert (0 <= len bytes0 / 2 ^ 32 < 2 ^ 32) as Hhi.
    { split; [apply Z.div_pos; lia|]. apply Z.div_lt_upper_bound; lia. }
    assert (0 <= len bytes0 mod 2 ^ 32 < 2 ^ 32) as Hlo by (apply Z.mod_pos_bound; lia).
    set (hi := len bytes0 / 2 ^ 32) in *. set (lo := len bytes0 mod 2 ^ 32) in *.
    destruct mask; subst key body;
      [change (alloc (2 + 8 + 4)) with [0; 0; 0; 0; 0; 0; 0; 0; 0; 0; 0; 0; 0; 0]
      |change (alloc (2 + 8 + 0)) with [0; 0; 0; 0; 0; 0; 0; 0; 0; 0]];
      literal_sums; set_at_literal;
      change (at_ (?x0 :: ?x1 :: ?l) 1) with x1;
      set_at_literal;
      literal_sums;
      destruct (0 <=? hi) eqn:?; try lia;
      destruct (hi <? 2 ^ 32) eqn:?; try lia;
      destruct (0 <=? lo) eqn:?; try lia;
      destruct (lo <? 2 ^ 32) eqn:?; try lia;
      cbn [andb mbind result_bind];
      literal_sums; set_at_literal;
      literal_sums;
      cbn [andb mbind result_bind];
      literal_sums; set_at_literal.
    + rewrite list_lookup_insert_eq by (eapply lookup_lt_Some, Hh). cbn [default].
      rewrite concat_exact by (symmetry; apply len_xor_loop). reflexivity.
    + rewrite Hh. cbn [default]. rewrite concat_exact by reflexivity. reflexivity.
Qed.

Lemma land_64 (x : Z) : is_byte x -> (Z.land x 64 =? 64) = (64 <=? x mod 128).
Proof.
  intros Hx. apply Bool.eqb_prop.
  exact (byte_cases (fun x => Bool.eqb (Z.land x 64 =? 64) (64 <=? x mod 128)) eq_refl x Hx).
Qed.

(** The first header byte of a frame with FIN set and an opcode of four bits. *)
Lemma header_byte_0 (opcode : Z) :
  0 <= opcode < 16 ->
  let b0 := to_u8 (128 + opcode) in
  Z.land b0 15 = opcode /\ (Z.land b0 128 =? 128) = true /\ (Z.land b0 64 =? 64) = false.
Proof.
  intros Hop b0.
  assert (b0 = 128 + opcode) as E by (apply to_u8_id; unfold is_byte; lia).
  assert (is_byte b0) as Hb by (rewrite E; unfold is_byte; lia).
  rewrite land_15, land_128, land_64 by exact Hb. rewrite E.
  repeat split.
  - Z.div_mod_to_equations. lia.
  - apply Z.leb_le. lia.
  - apply Z.leb_gt. Z.div_mod_to_equations. lia.
Qed.

(** The second header byte of a masked frame. *)
Lemma header_byte_1 (size : Z) :
  0 <= size ->
  let b1 := to_u8 (to_u8 128 + marker size) in
  Z.land b1 127 = marker size /\ (Z.land b1 128 =? 128) = true.
Proof.
  intros Hs b1.
  assert (0 <= marker size < 128) as Hm.
  { unfold marker. destruct (size <? 126) eqn:?; [lia|]. destruct (size <? 65536); lia. }
  assert (b1 = 128 + marker size) as E by (apply to_u8_id; unfold is_byte; lia).
  assert (is_byte b1) as Hb by (rewrite E; unfold is_byte; lia).
  rewrite land_127, land_128 by exact Hb. rewrite E. split.
  - Z.div_mod_to_equations. lia.
  - apply Z.leb_le. lia.
Qed.

Lemma be_u16 (v : Z) : 0 <= v < 2 ^ 16 -> be [to_u8 (v / 2 ^ 8); to_u8 v] = v.
Proof.
  intros Hv. unfold be, to_u8. cbn [fold_left].
  change (2 ^ 16) with 65536 in Hv. change (2 ^ 8) with 256.
  Z.div_mod_to_equations. lia.
Qed.

Lemma be_u32 (acc v : Z) :
  0 <= v < 2 ^ 32 ->
  fold_left (fun acc b => acc * 256 + b)
            [to_u8 (v / 2 ^ 24); to_u8 (v / 2 ^ 16); to_u8 (v / 2 ^ 8); to_u8 v] acc
  = acc * 2 ^ 32 + v.
Proof.
  intros Hv. unfold to_u8. cbn [fold_left].
  change (2 ^ 32) with 4294967296 in *. change (2 ^ 24) with 16777216.
  change (2 ^ 16) with 65536. change (2 ^ 8) with 256.
  Z.div_mod_to_equations. lia.
Qed.

Lemma be_extension (size : Z) :
  126 <= size <= MAX_LENGTH -> be (extension size) = size.
Proof.
  unfold MAX_LENGTH. intros Hs. unfold extension.
  destruct (size <? 126) eqn:?; [lia|].
  destruct (size <? 65536) eqn:?.
  - apply be_u16. change (2 ^ 16) with 65536. lia.
  - cbv zeta. unfold be.
    change [?a; ?b; ?c; ?d; ?e; ?f; ?g; ?i] with ([a; b; c; d] ++ [e; f; g; i]).
    rewrite fold_left_app.
    assert (0 <= size / 2 ^ 32 < 2 ^ 32) as Hhi.
    { split; [apply Z.div_pos; lia|]. apply Z.div_lt_upper_bound; lia. }
    assert (0 <= size mod 2 ^ 32 < 2 ^ 32) as Hlo by (apply Z.mod_pos_bound; lia).
    rewrite !be_u32 by assumption.
    pose proof (Z.div_mod size (2 ^ 32) ltac:(lia)). lia.
Qed.

Lemma key_of_bytes (random : Z -> Z) : bytes (key_of random).
Proof. unfold key_of. repeat constructor; apply to_u8_byte. Qed.

(** The header of a masked frame, read back. *)
Lemma masked_header_read (size : Z) :
  0 <= size <= MAX_LENGTH ->
  let b1 := to_u8 (to_u8 128 + marker size) in
  len (extension size) = ext_size b1
  /\ key_size b1 = 4
  /\ announced b1 (extension size) = size.
Proof.
  intros Hs b1. destruct (header_byte_1 size ltac:(lia)) as [H127 H128].
  fold b1 in H127, H128.
  unfold ext_size, key_size, announced. rewrite H127, H128.
  unfold marker, extension.
  destruct (size <? 126) eqn:E1; [|destruct (size <? 65536) eqn:E2].
  - destruct (size =? 126) eqn:?; [lia|]. destruct (size =? 127) eqn:?; [lia|].
    repeat split; reflexivity.
  - change (126 =? 126) with true. cbv iota. repeat split; try reflexivity.
    apply be_u16. change (2 ^ 16) with 65536. lia.
  - change (127 =? 126) with false. change (127 =? 127) with true. cbv iota.
    repeat split; try reflexivity.
    pose proof (be_extension size ltac:(lia)) as Hbe. unfold extension in Hbe.
    rewrite E1, E2 in Hbe. cbv zeta in Hbe. rewrite Hbe.
    unfold round_double. unfold MAX_LENGTH in Hs.
    destruct (size <? 2 ^ 53) eqn:?; [reflexivity|lia].
Qed.

(** ** Encoding and decoding *)

(** What the constructor makes of a masked frame built by [Packet.frame]
    with FIN set: the header stages are passed and the payload stage finds
    the payload under the key. *)
Lemma masked_frame_read (opcode : Z) (random : Z -> Z) (bytes0 : Buffer) :
  bytes bytes0 -> len bytes0 <= MAX_LENGTH -> 0 <= opcode < 16 ->
  (8 <= opcode -> len bytes0 <= 125) ->
  let b0 := to_u8 (128 + opcode) in
  let b1 := to_u8 (to_u8 128 + marker (len bytes0)) in
  let key := key_of random in
  let body := xor_loop (fun idx => idx mod 4) key bytes0 in
  legal b0 b1
  /\ len (extension (len bytes0)) = ext_size b1
  /\ len key = key_size b1
  /\ len body = announced b1 (extension (len bytes0))
  /\ bytes key /\ bytes body
  /\ wire_payload b1 key body = bytes0
  /\ Z.land b0 15 = opcode
  /\ (Z.land b0 128 =? 128) = true
  /\ (Z.land b0 64 =? 64) = false
  /\ (Z.land b1 128 =? 128) = true
  /\ announced b1 (extension (len bytes0)) = len bytes0.
Proof.
  intros Hb Hmax Hop Hctl b0 b1 key body.
  pose proof (len_nonneg bytes0) as H0.
  destruct (header_byte_0 opcode Hop) as (Ho & Hf & Hr). fold b0 in Ho, Hf, Hr.
  destruct (header_byte_1 (len bytes0) H0) as (Hm & Hmk). fold b1 in Hm, Hmk.
  destruct (masked_header_read (len bytes0) ltac:(lia)) as (Hext & Hks & Han).
  fold b1 in Hext, Hks, Han.
  assert (bytes key) as Hbk by apply key_of_bytes.
  assert (body = xor_mask key bytes0) as Hbody by (apply xor_loop_mod_4; assumption).
  repeat split; try assumption.
  - rewrite Hm. unfold marker. specialize (Hctl ltac:(lia)).
    destruct (len bytes0 <? 126) eqn:?; lia.
  - rewrite Hks. reflexivity.
  - rewrite Han. unfold body. apply len_xor_loop.
  - rewrite Hbody. apply xor_mask_bytes; assumption.
  - unfold wire_payload. rewrite Hmk, Hbody. apply xor_mask_involutive.
Qed.

(** C2 (as the code has it).  For an opcode of four bits and a payload of
    bytes, where a control opcode (8 and above) comes with at most 125 bytes
    and the close opcode with none: the frame built with [fin = true],
    [rsv1 = false], [mask = true] is read back by the constructor as a
    complete packet with the opcode and the payload given. *)
Theorem roundtrip_within_limits (opcode : Z) (payload : nat) (random : Z -> Z)
    (h : list (list Z)) (bytes0 : Buffer) :
  h !! payload = Some bytes0 -> bytes bytes0 -> len bytes0 <= MAX_LENGTH ->
  0 <= opcode < 16 ->
  (8 <= opcode -> len bytes0 <= 125) ->
  (opcode = 8 -> bytes0 = []) ->
  exists encoded h' packet,
    Packet.frame opcode payload true false true random h = Ok (encoded, h')
    /\ Packet.constructor encoded = Ok packet
    /\ Packet.state packet = Packet.COMPLETE
    /\ Packet.fin packet = Some true
    /\ Packet.rsv1 packet = Some false
    /\ Packet.opcode packet = Some opcode
    /\ Packet.payload packet = Some bytes0
    /\ Packet.close_code packet = None.
Proof.
  intros Hh Hb Hmax Hop Hctl Hclose.
  pose proof (frame_shape opcode payload true false true random h bytes0 Hh Hmax) as Hf.
  cbv zeta in Hf. cbv iota in Hf.
  destruct (masked_frame_read opcode random bytes0 Hb Hmax Hop Hctl)
    as (Hlegal & Hext & Hkey & Hbody & Hbk & Hbb & Hp & Ho & Hfin & Hrsv & Hmk & Han).
  pose proof (whole_frame_data _ _ _ _ _ [] Hlegal Hext Hkey Hbody Hbk Hbb) as Hd.
  rewrite app_nil_r in Hd.
  destruct Hd as (packet & Heq & Hst & Hpf & Hpr & Hpo & _ & Hpp & Hpc).
  { rewrite Ho, Han. destruct (Z.eq_dec opcode 8) as [E|E]; [right|left; exact E].
    rewrite (Hclose E). reflexivity. }
  eexists _, _, packet. split; [exact Hf|]. split; [exact Heq|].
  rewrite Hfin in Hpf. rewrite Hrsv in Hpr. rewrite Ho in Hpo. rewrite Hp in Hpp.
  repeat split; assumption.
Qed.

Lemma roundtrip_within_limits_witness :
  exists encoded h' packet,
    Packet.frame 1 0 true false true (fun i => 17 * (i + 1)) [[72; 105]] = Ok (encoded, h')
    /\ Packet.constructor encoded = Ok packet
    /\ Packet.state packet = Packet.COMPLETE
    /\ Packet.fin packet = Some true
    /\ Packet.rsv1 packet = Some false
    /\ Packet.opcode packet = Some 1
    /\ Packet.payload packet = Some [72; 105]
    /\ Packet.close_code packet = None.
Proof.
  apply (roundtrip_within_limits 1 0 (fun i => 17 * (i + 1)) [[72; 105]] [72; 105]).
  - reflexivity.
  - repeat constructor; unfold is_byte; lia.
  - vm_compute. discriminate.
  - lia.
  - lia.
  - discriminate.
Defined.

(** A close frame with a payload is not read back as it was given: its first
    two bytes become [close_code]. *)
Lemma roundtrip_close_frame (payload : nat) (random : Z -> Z)
    (h : list (list Z)) (bytes0 : Buffer) :
  h !! payload = Some bytes0 -> bytes bytes0 -> 2 <= len bytes0 <= 125 ->
  exists encoded h' packet,
    Packet.frame 8 payload true false true random h = Ok (encoded, h')
    /\ Packet.constructor encoded = Ok packet
    /\ Packet.state packet = Packet.COMPLETE
    /\ Packet.opcode packet = Some 8
    /\ Packet.payload packet = Some (drop 2 bytes0)
    /\ Packet.close_code packet = Some (at_ bytes0 0 * 256 + at_ bytes0 1).
Proof.
  intros Hh Hb Hlen.
  assert (len bytes0 <= MAX_LENGTH) as Hmax by (unfold MAX_LENGTH; lia).
  pose proof (frame_shape 8 payload true false true random h bytes0 Hh Hmax) as Hf.
  cbv zeta in Hf. cbv iota in Hf.
  destruct (masked_frame_read 8 random bytes0 Hb Hmax ltac:(lia) ltac:(lia))
    as (Hlegal & Hext & Hkey & Hbody & Hbk & Hbb & Hp & Ho & Hfin & Hrsv & Hmk & Han).
  pose proof (whole_frame_close _ _ _ _ _ [] Hlegal Hext Hkey Hbody Hbk Hbb Ho
                ltac:(rewrite Han; lia)) as Hd.
  rewrite app_nil_r in Hd.
  destruct Hd as (packet & Heq & Hst & _ & _ & Hpo & _ & Hpp & Hpc).
  eexists _, _, packet. split; [exact Hf|]. split; [exact Heq|].
  rewrite Hp in Hpp, Hpc. repeat split; assumption.
Qed.

(** C2 as stated fails: a close frame with the payload [3; 232] (the code
    1000) is read back with an empty payload. *)
Lemma roundtrip_fails_for_close_payload :
  exists encoded h' packet,
    Packet.frame 8 0 true false true (fun i => 17 * (i + 1)) [[3; 232]] = Ok (encoded, h')
    /\ Packet.constructor encoded = Ok packet
    /\ Packet.state packet = Packet.COMPLETE
    /\ Packet.opcode packet = Some 8
    /\ Packet.payload packet = Some []
    /\ Packet.payload packet <> Some [3; 232].
Proof.
  eexists _, _, _. split; [vm_compute; reflexivity|].
  split; [vm_compute; reflexivity|].
  cbn. repeat split; discriminate.
Qed.

(** Nor is a ping of 126 bytes read back: the constructor throws. *)
Lemma roundtrip_fails_for_long_ping :
  exists encoded h',
    Packet.frame 9 0 true false true (fun i => 17 * (i + 1)) [replicate 126 0]
    = Ok (encoded, h')
    /\ Packet.constructor encoded = Throw "control frames must be less than 125 bytes.".
Proof.
  eexists _, _. split; [vm_compute; reflexivity|]. vm_compute. reflexivity.
Qed.

(** C9.  The frame that [Packet.frame] returns is a header followed by the
    [L] bytes which the payload buffer holds after the call; the header (with
    the length extension and the mask key) has 2, 4 or 10 bytes for
    [L < 126], [126 <= L < 65536], [65536 <= L], and 4 more when [mask] is
    set. *)
Theorem header_size_law (opcode : Z) (payload : nat) (fin rsv1 mask : bool)
    (random : Z -> Z) (h : list (list Z)) (bytes0 : Buffer) :
  h !! payload = Some bytes0 -> len bytes0 <= MAX_LENGTH ->
  let L := len bytes0 in
  let header_size := (if L <? 126 then 2 else if L <? 65536 then 4 else 10)
                     + (if mask then 4 else 0) in
  exists header body h',
    Packet.frame opcode payload fin rsv1 mask random h = Ok (header ++ body, h')
    /\ len header = header_size
    /\ h' !! payload = Some body
    /\ len body = L
    /\ len (header ++ body) = header_size + L.
Proof.
  intros Hh Hmax L header_size.
  pose proof (frame_shape opcode payload fin rsv1 mask random h bytes0 Hh Hmax) as Hf.
  cbv zeta in Hf.
  set (key := if mask then key_of random else []) in *.
  set (body := if mask then xor_loop (fun idx => idx mod 4) key bytes0 else bytes0) in *.
  set (b0 := to_u8 _) in Hf. set (b1 := to_u8 _) in Hf.
  assert (len body = L) as Hlb.
  { unfold body. destruct mask; [apply len_xor_loop|reflexivity]. }
  assert (len (b0 :: b1 :: extension L ++ key) = header_size) as Hlh.
  { rewrite !len_cons, len_app. unfold header_size, extension, key.
    destruct (L <? 126); [|destruct (L <? 65536)]; destruct mask; reflexivity. }
  exists (b0 :: b1 :: extension L ++ key), body,
         (if mask then <[payload := body]> h else h).
  split; [|split; [|split; [|split]]].
  - rewrite Hf. cbn [app]. rewrite <- app_assoc. reflexivity.
  - exact Hlh.
  - destruct mask; [|exact Hh].
    apply list_lookup_insert_eq. eapply lookup_lt_Some, Hh.
  - exact Hlb.
  - rewrite len_app, Hlh, Hlb. reflexivity.
Qed.

Lemma header_size_law_witness :
  exists header body h',
    Packet.frame 2 0 true false true (fun _ => 7) [replicate 200 1] = Ok (header ++ body, h')
    /\ len header = 8
    /\ h' !! 0%nat = Some body
    /\ len body = 200
    /\ len (header ++ body) = 208.
Proof.
  apply (header_size_law 2 0 true false true (fun _ => 7) [replicate 200 1] (replicate 200 1)).
  - reflexivity.
  - vm_compute. discriminate.
Defined.

(** ** Masking in place *)

Lemma xor_mask_changes (key body : Buffer) (i : nat) (x : Z) :
  body !! i = Some x -> at_ key (Z.of_nat i mod 4) <> 0 -> xor_mask key body <> body.
Proof.
  intros Hx Hk Heq. apply (f_equal (fun l => l !! i)) in Heq.
  unfold xor_mask in Heq. rewrite list_lookup_imap, Hx in Heq. cbn in Heq.
  injection Heq as Heq. apply Hk.
  rewrite <- (Z.lxor_0_l (at_ key _)). rewrite <- (Z.lxor_nilpotent x).
  rewrite Z.lxor_assoc, Heq. reflexivity.
Qed.

(** After [Packet.frame(..., mask = true)] the caller's payload object holds
    the masked bytes, which are the tail of the frame returned; every other
    object is as before. *)
Lemma frame_masks_in_place (opcode : Z) (payload : nat) (fin rsv1 : bool)
    (random : Z -> Z) (h : list (list Z)) (bytes0 : Buffer) :
  h !! payload = Some bytes0 -> bytes bytes0 -> len bytes0 <= MAX_LENGTH ->
  let masked := xor_mask (key_of random) bytes0 in
  exists header,
    Packet.frame opcode payload fin rsv1 true random h
    = Ok (header ++ masked, <[payload := masked]> h)
    /\ len header = (if len bytes0 <? 126 then 2 else if len bytes0 <? 65536 then 4 else 10) + 4.
Proof.
  intros Hh Hb Hmax masked.
  pose proof (frame_shape opcode payload fin rsv1 true random h bytes0 Hh Hmax) as Hf.
  cbv zeta in Hf. cbv iota in Hf.
  rewrite xor_loop_mod_4 in Hf by (try apply key_of_bytes; assumption).
  fold masked in Hf.
  eexists (_ :: _ :: extension (len bytes0) ++ key_of random). split.
  - rewrite Hf. cbn [app]. rewrite <- app_assoc. reflexivity.
  - rewrite !len_cons, len_app. unfold extension.
    destruct (_ <? 126); [|destruct (_ <? 65536)]; reflexivity.
Qed.

(** [pong] of a Buffer object: the object is masked in place and the frame
    is written. *)
Lemma pong_buffer (r : nat) (random : Z -> Z) (w : WebSocket.WebSocket) (bytes0 : Buffer) :
  WebSocket.state w <> WebSocket.CONNECTING ->
  WebSocket.heap w !! r = Some bytes0 -> bytes bytes0 -> len bytes0 <= 125 ->
  let masked := xor_mask (key_of random) bytes0 in
  exists header,
    WebSocket.pong (WebSocket.Buf r) random w
    = ((if WebSocket.socket w
        then WebSocket.set_trace
               (WebSocket.trace w ++ [WebSocket.SocketWrite (header ++ masked)])
        else id)
         (WebSocket.set_heap (<[r := masked]> (WebSocket.heap w)) w),
       Ok tt).
Proof.
  intros Hst Hh Hb Hlen masked.
  destruct (frame_masks_in_place 10 r true false random (WebSocket.heap w) bytes0 Hh Hb
              ltac:(unfold MAX_LENGTH; lia)) as (header & Hf & _).
  fold masked in Hf. exists header.
  unfold WebSocket.pong, WebSocket.get, WebSocket.throw, WebSocket.payload_of,
    WebSocket.length_of, WebSocket.Packet_frame, WebSocket.socket_write, WebSocket.log,
    WebSocket.put, WebSocket.skip, WebSocket.get, mbind, WebSocket.M_bind, mret,
    WebSocket.M_ret.
  cbv beta iota.
  destruct (WebSocket.state w =? WebSocket.CONNECTING) eqn:E; [apply Z.eqb_eq in E; contradiction|].
  cbv beta iota. rewrite Hh. cbn [default]. unfold id at 1.
  destruct (125 <? len bytes0) eqn:E'; [lia|]. cbv beta iota.
  rewrite Hf. cbn [WebSocket.socket WebSocket.set_heap].
  destruct (WebSocket.socket w); reflexivity.
Qed.

(** C10.  (A) [Packet.frame] with [mask = true] leaves the masked bytes in
    the caller's payload object (they are the tail of the frame returned),
    and these differ from the bytes given as soon as one byte meets a key
    byte other than zero.  (B) A chunk that starts with a whole ping frame,
    received by a connection that is not CONNECTING: the pong is built from
    the packet's payload object and written first, the 'ping' event comes
    second, and what it hands to its listeners is that object after the
    masking of the pong, not the payload [p] as received. *)
Theorem mask_in_place_and_ping_event
    (opcode : Z) (payload : nat) (fin rsv1 : bool) (random : Z -> Z)
    (h : list (list Z)) (bytes0 : Buffer)
    (b0 b1 : Z) (key body rest : Buffer) (w : WebSocket.WebSocket) :
  h !! payload = Some bytes0 -> bytes bytes0 -> len bytes0 <= MAX_LENGTH ->
  Z.land b0 15 = 9 -> (Z.land b0 128 =? 128) = true -> Z.land b1 127 <= 125 ->
  len key = key_size b1 -> len body = Z.land b1 127 ->
  bytes key -> bytes body ->
  WebSocket.state w <> WebSocket.CONNECTING ->
  let masked0 := xor_mask (key_of random) bytes0 in
  let p := wire_payload b1 key body in
  let masked := xor_mask (key_of random) p in
  (exists header h',
     Packet.frame opcode payload fin rsv1 true random h = Ok (header ++ masked0, h')
     /\ h' !! payload = Some masked0
     /\ (forall i x, bytes0 !! i = Some x -> at_ (key_of random) (Z.of_nat i mod 4) <> 0 ->
         h' !! payload <> Some bytes0))
  /\ (exists pong_header w',
       WebSocket.socket_on_data (b0 :: b1 :: key ++ body ++ rest) random w = (w', Ok tt)
       /\ WebSocket.trace w'
           = WebSocket.trace w
             ++ (if WebSocket.socket w
                 then [WebSocket.SocketWrite (pong_header ++ masked)] else [])
             ++ [WebSocket.Emit (WebSocket.Ping (Some masked))]).
Proof.
  intros Hh Hb Hmax Hop Hfin Hlen Hkey Hbody Hbk Hbb Hst masked0 p masked. split.
  { destruct (frame_masks_in_place opcode payload fin rsv1 random h bytes0 Hh Hb Hmax)
      as (header & Hf & _).
    fold masked0 in Hf. exists header, (<[payload := masked0]> h).
    assert (<[payload := masked0]> h !! payload = Some masked0) as Hl
        by (apply list_lookup_insert_eq; eapply lookup_lt_Some, Hh).
    split; [exact Hf|]. split; [exact Hl|].
    intros i x Hx Hk. rewrite Hl. intros [= Heq]. revert Heq.
    eapply xor_mask_changes; eassumption. }
  assert (legal b0 b1) as Hlegal by (intros _; split; assumption).
  assert (ext_size b1 = 0) as Hes.
  { unfold ext_size. destruct (_ =? 126) eqn:?; [lia|]. destruct (_ =? 127) eqn:?; lia. }
  assert (forall ext, announced b1 ext = Z.land b1 127) as Han.
  { intros ext. unfold announced.
    destruct (_ =? 126) eqn:?; [lia|]. destruct (_ =? 127) eqn:?; lia. }
  assert (len (@nil Z) = ext_size b1) as Hext by (rewrite Hes; reflexivity).
  assert (len body = announced b1 []) as Hbody' by (rewrite Han; exact Hbody).
  destruct (whole_frame_data b0 b1 [] key body rest Hlegal Hext Hkey Hbody' Hbk Hbb
              ltac:(left; lia))
    as (packet & Heq & _ & _ & _ & Ho & _ & Hpl & _).
  cbn [app] in Heq. fold p in Hpl. rewrite Hop in Ho.
  unfold WebSocket.socket_on_data.
  unfold mbind at 1. unfold WebSocket.M_bind at 1. unfold WebSocket.lift. rewrite Heq.
  unfold mbind at 1. unfold WebSocket.M_bind at 1. rewrite Hpl.
  unfold mbind at 1. unfold WebSocket.M_bind at 1. unfold WebSocket.new at 1.
  unfold new_buffer.
  cbn [WebSocket.heap WebSocket.set_heap mret WebSocket.M_ret]. rewrite Ho.
  set (w1 := WebSocket.set_heap (WebSocket.heap w ++ [p]) w).
  assert (WebSocket.heap w1 !! length (WebSocket.heap w) = Some p) as Hh1.
  { unfold w1. cbn [WebSocket.heap WebSocket.set_heap].
    apply list_lookup_middle. reflexivity. }
  assert (bytes p) as Hbp.
  { unfold p, wire_payload. destruct (Z.land b1 128 =? 128); [|exact Hbb].
    apply xor_mask_bytes; assumption. }
  assert (len p <= 125) as Hlp.
  { unfold p, wire_payload. destruct (Z.land b1 128 =? 128); rewrite ?len_xor_mask; lia. }
  destruct (pong_buffer (length (WebSocket.heap w)) random w1 p Hst Hh1 Hbp Hlp)
    as (header & Hpong).
  fold masked in Hpong. exists header.
  unfold mbind at 1. unfold WebSocket.M_bind at 1. rewrite Hpong.
  unfold WebSocket.read, WebSocket.emit, WebSocket.log, WebSocket.put, WebSocket.get,
    mbind, WebSocket.M_bind.
  eexists. split; [reflexivity|].
  assert (<[length (WebSocket.heap w) := masked]> (WebSocket.heap w ++ [p])
          !! length (WebSocket.heap w) = Some masked) as Hl.
  { apply list_lookup_insert_eq. rewrite length_app. cbn. lia. }
  unfold w1. destruct (WebSocket.socket w) eqn:Es; cbn; rewrite ?Es; cbn; rewrite Hl.
  - rewrite <- app_assoc. reflexivity.
  - reflexivity.
Qed.

Lemma mask_in_place_and_ping_event_witness :
  let random := fun i : Z => 17 * (i + 1) in
  (exists header h',
     Packet.frame 1 0 true false true random [[72; 105]] = Ok (header ++ [89; 75], h')
     /\ h' !! 0%nat = Some [89; 75]
     /\ (forall i x, [72; 105] !! i = Some x ->
         at_ (key_of random) (Z.of_nat i mod 4) <> 0 -> h' !! 0%nat <> Some [72; 105]))
  /\ (exists pong_header w',
       WebSocket.socket_on_data [137; 2; 72; 105] random open_connection = (w', Ok tt)
       /\ WebSocket.trace w'
           = [WebSocket.SocketWrite (pong_header ++ [89; 75]);
              WebSocket.Emit (WebSocket.Ping (Some [89; 75]))]).
Proof.
  apply (mask_in_place_and_ping_event 1 0 true false (fun i : Z => 17 * (i + 1))
           [[72; 105]] [72; 105] 137 2 [] [72; 105] [] open_connection).
  - reflexivity.
  - repeat constructor; unfold is_byte; lia.
  - vm_compute. discriminate.
  - reflexivity.
  - reflexivity.
  - vm_compute. discriminate.
  - reflexivity.
  - reflexivity.
  - constructor.
  - repeat constructor; unfold is_byte; lia.
  - discriminate.
Defined.

(** ** Chunks *)

(** Chunks of fewer than two bytes are dropped one after the other: however
    a stream is cut into them, the connection is left as it was. *)
Lemma short_chunks_are_dropped (chunks : list Buffer) (random : Z -> Z)
    (w : WebSocket.WebSocket) :
  Forall (fun chunk => len chunk < 2) chunks -> deliver chunks random w = (w, Ok tt).
Proof.
  induction 1 as [|chunk chunks Hc _ IH]; [reflexivity|].
  cbn [deliver]. unfold mbind, WebSocket.M_bind.
  assert (WebSocket.socket_on_data chunk random w = (w, Ok tt)) as ->; [|exact IH].
  unfold WebSocket.socket_on_data, WebSocket.lift, mbind, WebSocket.M_bind,
    Packet.constructor.
  cbn [Packet.size]. destruct (len chunk <? 2) eqn:E; [reflexivity|lia].
Qed.

(** C1 on the code.  The text frame [129; 1; 65] delivered in one chunk gives
    one 'message' event; delivered byte by byte it gives none, since every
    'data' event builds a new [Packet] ([Packet.constructor] on a chunk of
    one byte returns in stage GET_HEADER, and nothing feeds that packet
    again); two frames in one chunk give the first message only. *)
Theorem chunked_delivery_loses_frames :
  let random := fun i : Z => 17 * (i + 1) in
  WebSocket.trace (deliver [[129; 1; 65]] random open_connection).1
  = [WebSocket.Emit (WebSocket.Message (Some [65]))]
  /\ deliver [[129]; [1]; [65]] random open_connection = (open_connection, Ok tt)
  /\ (exists packet,
        Packet.constructor [129] = Ok packet
        /\ Packet.state packet = Packet.GET_HEADER
        /\ Packet.opcode packet = None)
  /\ WebSocket.trace (deliver [[129; 1; 65; 129; 1; 66]] random open_connection).1
     = [WebSocket.Emit (WebSocket.Message (Some [65]))].
Proof.
  cbv zeta. split; [vm_compute; reflexivity|].
  split; [vm_compute; reflexivity|].
  split; [eexists; split; [vm_compute; reflexivity|split; reflexivity]|].
  vm_compute. reflexivity.
Qed.

(** ** close() *)

(** In state OPEN, [close] assigns CLOSING before it looks at the reason: a
    reason of more than 123 bytes makes it throw with the state changed and
    nothing written. *)
Lemma close_open_oversize (code : Z) (reason : string) (random : Z -> Z)
    (w : WebSocket.WebSocket) :
  WebSocket.state w = WebSocket.OPEN -> 123 < len (utf8 reason) ->
  WebSocket.close code reason random w
  = (WebSocket.set_trace (WebSocket.trace w ++ [WebSocket.SetState WebSocket.CLOSING])
       (WebSocket.set_state WebSocket.CLOSING w),
     Throw "close reason must be less than 132 bytes.").
Proof.
  intros Hst Hlen. unfold WebSocket.close, WebSocket.get, mbind, WebSocket.M_bind.
  rewrite Hst. cbn [Z.eqb WebSocket.OPEN WebSocket.CLOSED WebSocket.CONNECTING
                    WebSocket.CLOSING Pos.eqb].
  unfold WebSocket.assign_state, WebSocket.put, WebSocket.log, WebSocket.throw,
    mbind, WebSocket.M_bind.
  destruct (123 <? len (utf8 reason)) eqn:E; [reflexivity|lia].
Qed.

(** C6 on the code.  [close(1000, reason)] with a reason of 124 bytes on an
    open connection: the call throws, and the state is CLOSING, not OPEN. *)
Theorem close_oversize_reason_leaves_closing :
  let reason := String.concat "" (replicate 124 "a"%string) in
  exists w',
    len (utf8 reason) = 124
    /\ WebSocket.state open_connection = WebSocket.OPEN
    /\ WebSocket.close 1000 reason (fun _ => 0) open_connection
       = (w', Throw "close reason must be less than 132 bytes.")
    /\ WebSocket.state w' = WebSocket.CLOSING
    /\ WebSocket.trace w' = [WebSocket.SetState WebSocket.CLOSING].
Proof.
  cbv zeta. eexists. split; [vm_compute; reflexivity|]. split; [reflexivity|].
  split; [apply close_open_oversize; [reflexivity|vm_compute; reflexivity]|].
  split; reflexivity.
Qed.

Lemma utf8_bytes (s : string) : bytes (utf8 s).
Proof.
  unfold utf8, bytes. apply Forall_fmap, Forall_forall. intros c _. unfold is_byte. cbn.
  pose proof (N_ascii_bounded c). lia.
Qed.

(** The payload that [close] builds: the code in two bytes, then the reason. *)
Lemma close_payload (code : Z) (reason : string) :
  0 <= code < 2 ^ 16 ->
  exists bytes0,
    writeUInt16BE (alloc (2 + len (utf8 reason))) code 0 = Ok bytes0
    /\ write bytes0 reason 2 = to_u8 (code / 2 ^ 8) :: to_u8 code :: utf8 reason.
Proof.
  intros Hcode. pose proof (len_nonneg (utf8 reason)) as H0.
  assert (alloc (2 + len (utf8 reason)) = 0 :: 0 :: replicate (length (utf8 reason)) 0) as ->.
  { unfold alloc, len. replace (Z.to_nat (2 + Z.of_nat (length (utf8 reason))))
      with (S (S (length (utf8 reason)))) by lia. reflexivity. }
  unfold writeUInt16BE. rewrite !len_cons.
  destruct (0 <=? code) eqn:?; [|lia]. destruct (code <? 2 ^ 16) eqn:?; [|lia].
  change (0 <=? 0) with true.
  destruct (0 + 2 <=? 1 + (1 + len (replicate (length (utf8 reason)) 0))) eqn:E;
    [|apply Z.leb_gt in E; pose proof (len_nonneg (replicate (length (utf8 reason)) 0)); lia].
  cbn [andb]. eexists. split; [reflexivity|].
  change (0 + 1) with 1. rewrite set_at_cons_0, set_at_cons_pos.
  change (1 - 1) with 0. rewrite set_at_cons_0.
  unfold write. change (Z.to_nat 2) with 2%nat. cbn [length take drop Nat.sub Nat.add app].
  rewrite length_replicate, Nat.sub_0_r, firstn_all, drop_ge
    by (rewrite length_replicate; lia).
  rewrite app_nil_r. reflexivity.
Qed.

(** [close] in state OPEN with a reason of at most 123 bytes: CLOSING is
    assigned, the code and the reason are recorded, and one masked close frame
    is written whose payload is the code in two bytes followed by the
    reason. *)
Lemma close_open_within_limit (code : Z) (reason : string) (random : Z -> Z)
    (w : WebSocket.WebSocket) :
  WebSocket.state w = WebSocket.OPEN -> len (utf8 reason) <= 123 -> 0 <= code < 2 ^ 16 ->
  let payload := to_u8 (code / 2 ^ 8) :: to_u8 code :: utf8 reason in
  exists header w',
    WebSocket.close code reason random w = (w', Ok tt)
    /\ WebSocket.state w' = WebSocket.CLOSING
    /\ WebSocket.closeCode w' = code
    /\ WebSocket.closeReason w' = WebSocket.Str reason
    /\ WebSocket.trace w'
       = WebSocket.trace w
         ++ WebSocket.SetState WebSocket.CLOSING
            :: (if WebSocket.socket w
                then [WebSocket.SocketWrite (header ++ xor_mask (key_of random) payload)]
                else []).
Proof.
  intros Hst Hlen Hcode payload.
  destruct (close_payload code reason Hcode) as (bytes0 & Hw & Hp). fold payload in Hp.
  assert (bytes payload) as Hb.
  { unfold payload. repeat constructor; try apply to_u8_byte. apply utf8_bytes. }
  assert ((WebSocket.heap w ++ [payload]) !! length (WebSocket.heap w) = Some payload) as Hh
      by (apply list_lookup_middle; reflexivity).
  destruct (frame_masks_in_place 8 (length (WebSocket.heap w)) true false random
              (WebSocket.heap w ++ [payload]) payload Hh Hb) as (header & Hf & _).
  { unfold MAX_LENGTH, payload. rewrite !len_cons. lia. }
  exists header.
  unfold WebSocket.close, WebSocket.get, mbind, WebSocket.M_bind.
  rewrite Hst. cbn [Z.eqb WebSocket.OPEN WebSocket.CLOSED WebSocket.CONNECTING
                    WebSocket.CLOSING Pos.eqb].
  unfold WebSocket.assign_state, WebSocket.log, WebSocket.put, WebSocket.throw,
    WebSocket.lift, WebSocket.new, new_buffer, WebSocket.Packet_frame,
    WebSocket.socket_write, WebSocket.get, WebSocket.skip, WebSocket.log, WebSocket.put,
    mbind, WebSocket.M_bind, mret, WebSocket.M_ret.
  cbv beta iota.
  destruct (123 <? len (utf8 reason)) eqn:E; [lia|].
  rewrite Hw. cbv beta iota. rewrite Hp. cbn [WebSocket.heap WebSocket.set_heap
    WebSocket.set_trace WebSocket.set_state WebSocket.set_closeCode
    WebSocket.set_closeReason]. rewrite Hf.
  cbn [WebSocket.socket WebSocket.set_heap WebSocket.set_trace WebSocket.set_state
       WebSocket.set_closeCode WebSocket.set_closeReason WebSocket.trace].
  destruct (WebSocket.socket w); eexists; (split; [reflexivity|]);
    cbn -[xor_mask key_of utf8 to_u8];
    rewrite <- ?app_assoc; repeat split; reflexivity.
Qed.

(** ** The path of a Unix-domain URL *)

Lemma before_all (sep : ascii) (s : string) : has_char sep s = false -> before sep s = s.
Proof.
  induction s as [|c s IH]; [reflexivity|]. cbn.
  destruct (decide (c = sep)); [discriminate|]. intros H. rewrite IH by exact H. reflexivity.
Qed.

Lemma split_head (sep : ascii) (s : string) :
  exists others, split sep s = before sep s :: others.
Proof.
  induction s as [|c s [others IH]]; [exists []; reflexivity|]. cbn.
  destruct (decide (c = sep)); [eexists; reflexivity|].
  rewrite IH. eexists; reflexivity.
Qed.

Lemma split_at_sep (sep : ascii) (a r : string) :
  has_char sep a = false -> split sep (a +:+ String sep r) = a :: split sep r.
Proof.
  induction a as [|c a IH].
  - intros _. change (EmptyString +:+ String sep r) with (String sep r). cbn.
    destruct (decide (sep = sep)); [reflexivity|contradiction].
  - change (String c a +:+ String sep r) with (String c (a +:+ String sep r)). cbn.
    destruct (decide (c = sep)); [discriminate|]. intros H. rewrite IH by exact H.
    reflexivity.
Qed.

(** C7 (as the code has it).  For the scheme [ws+unix:], with the path
    [a ++ ":" ++ r] where [a] has no colon: the socket path is [a] and the
    request path is [r] up to its first colon, hence all of [r] when [r] has
    no colon. *)
Theorem unix_path_split (address : URL.URL) (protocols : WebSocket.protocols_arg)
    (options : option WebSocket.SocketOption) (nonce : string)
    (client : Client.ClientRequestArgs) (w : WebSocket.WebSocket) (a r : string) :
  WebSocket.constructor address protocols options nonce = Ok (client, w) ->
  URL.protocol address = "ws+unix:"%string ->
  URL.pathname address +:+ URL.search address = a +:+ String ":" r ->
  has_char ":" a = false ->
  Client.socketPath client = Some a
  /\ Client.path client = Some (before ":" r)
  /\ (has_char ":" r = false -> Client.path client = Some r).
Proof.
  intros Hc Hproto Hpath Ha. unfold WebSocket.constructor in Hc.
  rewrite Hproto, Hpath in Hc.
  rewrite (split_at_sep ":" a r Ha) in Hc.
  destruct (split_head ":" r) as [others Hr]. rewrite Hr in Hc.
  match type of Hc with
  | (?m ≫= _) = _ => destruct m as [[ps hs]| |]; cbn in Hc; try discriminate
  end.
  injection Hc as <- _. cbn. split; [reflexivity|]. split; [reflexivity|].
  intros Hn. rewrite before_all by exact Hn. reflexivity.
Qed.

Lemma unix_path_split_witness :
  exists client w,
    WebSocket.constructor unix_address WebSocket.NoProtocols None "bm9uY2U=" = Ok (client, w)
    /\ Client.socketPath client = Some "/tmp/s.sock"%string
    /\ Client.path client = Some "/chat?room=1"%string.
Proof.
  eexists _, _. split; [vm_compute; reflexivity|].
  refine ((fun H => conj (proj1 H) (proj2 (proj2 H) eq_refl))
            (unix_path_split unix_address WebSocket.NoProtocols None "bm9uY2U=" _ _
               "/tmp/s.sock" "/chat?room=1" _ _ _ _)).
  - vm_compute. reflexivity.
  - reflexivity.
  - reflexivity.
  - reflexivity.
Defined.

(** C7 as stated fails: with a second colon in the path, the request path
    stops before it and is not what follows the first colon. *)
Lemma unix_path_drops_after_second_colon :
  let address := URL.mk "ws+unix:" "" "" "" "" "/tmp/s.sock:/a:b" "" in
  exists client w,
    WebSocket.constructor address WebSocket.NoProtocols None "bm9uY2U=" = Ok (client, w)
    /\ Client.socketPath client = Some "/tmp/s.sock"%string
    /\ after ":" (URL.pathname address +:+ URL.search address) = Some "/a:b"%string
    /\ Client.path client = Some "/a"%string
    /\ Client.path client <> after ":" (URL.pathname address +:+ URL.search address).
Proof.
  cbv zeta. eexists _, _. split; [vm_compute; reflexivity|].
  cbn. repeat split; discriminate.
Qed.

(** ** The state of the connection *)

Module WebSocketTheory.
Import WebSocket Steps.

Lemma keeps_ret {A} (a : A) : keeps_state (mret a : M A).
Proof. intros w. split; [reflexivity|]. exists []. rewrite app_nil_r. split; reflexivity. Qed.

Lemma keeps_get {A} (f : WebSocket -> A) : keeps_state (get f).
Proof. intros w. split; [reflexivity|]. exists []. rewrite app_nil_r. split; reflexivity. Qed.

Lemma keeps_throw {A} (msg : string) : keeps_state (throw msg : M A).
Proof. intros w. split; [reflexivity|]. exists []. rewrite app_nil_r. split; reflexivity. Qed.

Lemma keeps_lift {A} (r : result A) : keeps_state (lift r).
Proof. intros w. split; [reflexivity|]. exists []. rewrite app_nil_r. split; reflexivity. Qed.

Lemma keeps_put (f : WebSocket -> WebSocket) :
  (forall w, state (f w) = state w /\ trace (f w) = trace w) -> keeps_state (put f).
Proof.
  intros Hf w. destruct (Hf w) as [Hs Ht]. split; [exact Hs|].
  exists []. rewrite app_nil_r. split; [exact Ht|reflexivity].
Qed.

Lemma keeps_log (x : step) : assigned [x] = [] -> keeps_state (log x).
Proof. intros Hx w. split; [reflexivity|]. exists [x]. split; [reflexivity|exact Hx]. Qed.

Lemma assigned_app (l1 l2 : list step) : assigned (l1 ++ l2) = assigned l1 ++ assigned l2.
Proof. apply omap_app. Qed.

Lemma keeps_bind {A B} (m : M A) (f : A -> M B) :
  keeps_state m -> (forall a, keeps_state (f a)) -> keeps_state (m ≫= f).
Proof.
  intros Hm Hf w. unfold mbind, M_bind.
  destruct (Hm w) as (Hs & new & Ht & Hn). destruct (m w) as [w1 [a|msg|]]; cbn in *.
  - destruct (Hf a w1) as (Hs' & new' & Ht' & Hn'). split; [congruence|].
    exists (new ++ new'). rewrite Ht', Ht, app_assoc, assigned_app, Hn, Hn'.
    split; reflexivity.
  - split; [exact Hs|]. exists new. split; assumption.
  - split; [exact Hs|]. exists new. split; assumption.
Qed.

Lemma keeps_new (b : Buffer) : keeps_state (new b).
Proof. intros w. split; [reflexivity|]. exists []. rewrite app_nil_r. split; reflexivity. Qed.

Lemma keeps_Packet_frame (opcode : Z) (payload : nat) (fin rsv1 mask : bool)
    (random : Z -> Z) :
  keeps_state (Packet_frame opcode payload fin rsv1 mask random).
Proof.
  intros w. unfold Packet_frame.
  destruct (Packet.frame _ _ _ _ _ _ _) as [[packet h']|msg|];
    (split; [reflexivity|]; exists []; rewrite app_nil_r; split; reflexivity).
Qed.

(** Decomposition of a method into its steps; [known] settles the calls
    already dealt with. *)
Ltac keeps_with known :=
  repeat first
    [ progress intros
    | known
    | apply keeps_ret | apply keeps_get | apply keeps_throw | apply keeps_lift
    | apply keeps_new | apply keeps_Packet_frame
    | apply keeps_log; reflexivity
    | apply keeps_put; intros; split; reflexivity
    | match goal with
      | |- keeps_state (if ?b then _ else _) => destruct b
      | |- keeps_state (match ?x with _ => _ end) => destruct x
      end
    | apply keeps_bind ].

Lemma keeps_socket_write (packet : Buffer) : keeps_state (socket_write packet).
Proof. unfold socket_write, skip. keeps_with fail. Qed.

Lemma keeps_socket_destroy : keeps_state socket_destroy.
Proof. unfold socket_destroy, skip. keeps_with fail. Qed.

Lemma keeps_socket_end : keeps_state socket_end.
Proof. unfold socket_end, skip. keeps_with fail. Qed.

Lemma keeps_send (data : value) (random : Z -> Z) : keeps_state (send data random).
Proof. unfold send. keeps_with ltac:(apply keeps_socket_write). Qed.

Lemma keeps_ping (data : value) (random : Z -> Z) : keeps_state (ping data random).
Proof. unfold ping, payload_of, length_of. keeps_with ltac:(apply keeps_socket_write). Qed.

Lemma keeps_pong (data : value) (random : Z -> Z) : keeps_state (pong data random).
Proof. unfold pong, payload_of, length_of. keeps_with ltac:(apply keeps_socket_write). Qed.

Lemma keeps_socket_on_data (data : Buffer) (random : Z -> Z) :
  keeps_state (socket_on_data data random).
Proof.
  unfold socket_on_data, read, emit, skip.
  keeps_with ltac:(first [apply keeps_pong | apply keeps_socket_destroy]).
Qed.

(** What the closing methods do, step by step. *)
Lemma emit_close_run (w : WebSocket) :
  emit_close w
  = (set_trace (trace w ++ [SetState CLOSED; Emit (Close (closeCode w) (closeReason w))])
       (set_state CLOSED w), Ok tt).
Proof.
  unfold emit_close, assign_state, emit, log, put, get, mbind, M_bind. cbn.
  rewrite <- !app_assoc. reflexivity.
Qed.

Lemma emit_error_and_close_run (error : string) (w : WebSocket) :
  emit_error_and_close error w
  = if error_listener w
    then (set_trace (trace w ++ [SetState CLOSING; Emit (Error error); SetState CLOSED;
                                 Emit (Close (closeCode w) (closeReason w))])
            (set_state CLOSED w), Ok tt)
    else (set_trace (trace w ++ [SetState CLOSING; Emit (Error error)])
            (set_state CLOSING w), Throw error).
Proof.
  unfold emit_error_and_close, assign_state, emit, log, put, get, skip, throw,
    mbind, M_bind, mret, M_ret.
  cbv beta iota. cbn [error_listener set_trace set_state].
  destruct (error_listener w).
  - cbv beta iota. rewrite emit_close_run. cbn. rewrite <- !app_assoc. reflexivity.
  - cbn. rewrite <- !app_assoc. reflexivity.
Qed.

Lemma handshake_failed_run (description : string) (w : WebSocket) :
  handshake_failed description w
  = if error_listener w
    then (set_trace (trace w ++ [ReqDestroy; SetState CLOSING; Emit (Error description);
                                 SetState CLOSED; Emit (Close (closeCode w) (closeReason w))])
            (set_state CLOSED (set_req_destroyed true w)), Ok tt)
    else (set_trace (trace w ++ [ReqDestroy; SetState CLOSING; Emit (Error description)])
            (set_state CLOSING (set_req_destroyed true w)), Throw description).
Proof.
  unfold handshake_failed, log, put, mbind, M_bind.
  cbv beta iota. rewrite emit_error_and_close_run.
  cbn [error_listener set_trace set_req_destroyed].
  destruct (error_listener w); cbn; rewrite <- !app_assoc; reflexivity.
Qed.

End WebSocketTheory.

(** On a connection in state CLOSED, the calls and the events that do not
    run [emit_error_and_close] leave the state CLOSED and assign no other
    state on the way, and [close] does nothing at all. *)
Lemma closed_stays_closed (w : WebSocket.WebSocket) (i : input) (random : Z -> Z) :
  WebSocket.state w = WebSocket.CLOSED -> fails_handshake i w = false ->
  let w' := (handle i random w).1 in
  WebSocket.state w' = WebSocket.CLOSED
  /\ (exists new,
        WebSocket.trace w' = WebSocket.trace w ++ new
        /\ Forall (fun s => s = WebSocket.CLOSED) (Steps.assigned new))
  /\ (forall code reason, i = Call_close code reason -> handle i random w = (w, Ok tt)).
Proof.
  intros Hst Hfails w'.
  assert (forall m : WebSocket.M unit, Steps.keeps_state m ->
          WebSocket.state (m w).1 = WebSocket.CLOSED
          /\ exists new, WebSocket.trace (m w).1 = WebSocket.trace w ++ new
                         /\ Forall (fun s => s = WebSocket.CLOSED) (Steps.assigned new))
    as Hkeep.
  { intros m Hm. destruct (Hm w) as (Hs & new & Ht & Hn). split; [congruence|].
    exists new. split; [exact Ht|]. rewrite Hn. constructor. }
  assert (forall code reason, WebSocket.close code reason random w = (w, Ok tt)) as Hclose.
  { intros code reason. unfold WebSocket.close, WebSocket.get, mbind, WebSocket.M_bind.
    rewrite Hst. reflexivity. }
  assert (WebSocket.state w = WebSocket.CLOSED
          /\ exists new, WebSocket.trace w = WebSocket.trace w ++ new
                         /\ Forall (fun s => s = WebSocket.CLOSED) (Steps.assigned new))
    as Hsame.
  { split; [exact Hst|]. exists []. rewrite app_nil_r. split; [reflexivity|constructor]. }
  subst w'. destruct i as [code reason|data|data|data|data| | |error]; cbn [handle].
  - rewrite Hclose. cbn [fst]. destruct Hsame as [Hs Hn].
    split; [exact Hs|]. split; [exact Hn|]. intros code' reason' _. reflexivity.
  - split; [|split; [|discriminate]]; apply (Hkeep _ (WebSocketTheory.keeps_send data random)).
  - split; [|split; [|discriminate]]; apply (Hkeep _ (WebSocketTheory.keeps_ping data random)).
  - split; [|split; [|discriminate]]; apply (Hkeep _ (WebSocketTheory.keeps_pong data random)).
  - split; [|split; [|discriminate]];
      apply (Hkeep _ (WebSocketTheory.keeps_socket_on_data data random)).
  - unfold WebSocket.socket_on_close. rewrite WebSocketTheory.emit_close_run. cbn [fst].
    split; [reflexivity|]. split; [|discriminate].
    eexists. split; [reflexivity|]. repeat constructor.
  - unfold WebSocket.req_on_timeout, WebSocket.get, mbind, WebSocket.M_bind.
    unfold fails_handshake in Hfails.
    destruct (WebSocket.timeout w) as [ms|]; [destruct (ms =? 0); [|discriminate]|];
      destruct Hsame as [Hs Hn]; (split; [exact Hs|]); (split; [exact Hn|discriminate]).
  - unfold WebSocket.req_on_error, WebSocket.get, mbind, WebSocket.M_bind.
    unfold fails_handshake in Hfails.
    destruct (WebSocket.req_destroyed w); [|discriminate].
    destruct Hsame as [Hs Hn]. split; [exact Hs|]. split; [exact Hn|discriminate].
Qed.


(** ** The subprotocol of the handshake *)

Lemma add_protocols_grows (protocols : list string) (acc s : gset string) :
  WebSocket.add_protocols protocols acc = Ok s ->
  acc ⊆ s /\ forall p, p ∈ protocols -> p ∈ s.
Proof.
  revert acc. induction protocols as [|p protocols IH]; intros acc H; cbn in H.
  - injection H as <-. split; [reflexivity|]. intros p Hp. inversion Hp.
  - destruct (_ || _); [discriminate|]. destruct (IH _ H) as [Hsub Hin].
    split; [intros x Hx; apply Hsub, elem_of_union; right; exact Hx|].
    intros q Hq. apply elem_of_cons in Hq as [->|Hq];
      [apply Hsub, elem_of_union; left; apply elem_of_singleton; reflexivity|].
    apply Hin, Hq.
Qed.

(** What the constructor leaves in the connection. *)
Lemma constructor_connection (address : URL.URL) (protocols : WebSocket.protocols_arg)
    (options : option WebSocket.SocketOption) (nonce : string)
    (client : Client.ClientRequestArgs) (w : WebSocket.WebSocket) :
  WebSocket.constructor address protocols options nonce = Ok (client, w) ->
  let l := match protocols with
           | WebSocket.OneProtocol p => [p]
           | WebSocket.NoProtocols => []
           | WebSocket.Protocols l => l
           end in
  WebSocket.nonce w = nonce /\ WebSocket.state w = WebSocket.CONNECTING
  /\ WebSocket.closeCode w = 1006 /\ WebSocket.closeReason w = WebSocket.Str ""
  /\ WebSocket.trace w = []
  /\ (if (0 <? length l)%nat then WebSocket.add_protocols l ∅ = Ok (WebSocket.protocol_set w)
      else WebSocket.protocol_set w = ∅).
Proof.
  intros Hc l. unfold WebSocket.constructor in Hc. fold l in Hc.
  destruct (0 <? length l)%nat.
  - destruct (WebSocket.add_protocols l ∅) as [ps| |] eqn:E; cbn in Hc; try discriminate.
    destruct (bool_decide (URL.protocol address = "ws+unix:"%string));
      injection Hc as _ <-; repeat split; reflexivity.
  - cbn in Hc.
    destruct (bool_decide (URL.protocol address = "ws+unix:"%string));
      injection Hc as _ <-; repeat split; reflexivity.
Qed.

(** The connection that the constructor makes has no listener yet, and
    neither its request nor a socket was touched. *)
Lemma constructor_untouched (address : URL.URL) (protocols : WebSocket.protocols_arg)
    (options : option WebSocket.SocketOption) (nonce : string)
    (client : Client.ClientRequestArgs) (w : WebSocket.WebSocket) :
  WebSocket.constructor address protocols options nonce = Ok (client, w) ->
  WebSocket.error_listener w = false /\ WebSocket.req_destroyed w = false
  /\ WebSocket.socket w = false /\ WebSocket.timeout w = Client.timeout client.
Proof.
  intros Hc. unfold WebSocket.constructor in Hc.
  destruct (if (0 <? length _)%nat then _ else _) as [[ps hs]| |]; cbn in Hc;
    try discriminate.
  destruct (bool_decide (URL.protocol address = "ws+unix:"%string));
    injection Hc as <- <-; repeat split; reflexivity.
Qed.

Section Negotiation.

Variable sha1_base64 : string -> string.
Variables (w : WebSocket.WebSocket) (response : WebSocket.IncomingMessage).
Hypothesis Hstate : WebSocket.closeCode w = 1006 /\ WebSocket.closeReason w = WebSocket.Str ""
                    /\ WebSocket.trace w = [].
Hypothesis Haccept :
  WebSocket.sec_websocket_accept response
  = Some (sha1_base64 (WebSocket.nonce w +:+ "258EAFA5-E914-47DA-95CA-C5AB0DC85B11")).

Lemma handshake_failed_failure (description : string) :
  handshake_failed_as (WebSocket.error_listener w)
    (WebSocket.handshake_failed description
       (WebSocket.set_trace (WebSocket.trace w ++ [WebSocket.Emit (WebSocket.Upgrade response)])
          w))
    response description.
Proof.
  destruct Hstate as (Hc & Hr & Ht).
  rewrite WebSocketTheory.handshake_failed_run. unfold handshake_failed_as.
  cbn [WebSocket.error_listener WebSocket.set_trace].
  destruct (WebSocket.error_listener w); cbn; rewrite ?Hc, ?Hr, Ht;
    repeat split; reflexivity.
Qed.

Lemma set_socket_accepted :
  handshake_accepted
    (WebSocket.set_socket []
       (WebSocket.set_trace (WebSocket.trace w ++ [WebSocket.Emit (WebSocket.Upgrade response)])
          w))
    response.
Proof.
  destruct Hstate as (Hc & Hr & Ht). cbn. rewrite Ht. repeat split; reflexivity.
Qed.

Lemma upgrade_requested_and_replied (p : string) :
  WebSocket.sec_websocket_protocol response = Some p -> p <> ""%string ->
  (p ∈ WebSocket.protocol_set w ->
   handshake_accepted (WebSocket.req_on_upgrade sha1_base64 response [] w) response)
  /\ (WebSocket.protocol_set w = ∅ ->
      handshake_failed_as (WebSocket.error_listener w)
        (WebSocket.req_on_upgrade sha1_base64 response [] w) response
        "nothing was requested, but the server sent a subprotocol.")
  /\ (WebSocket.protocol_set w <> ∅ -> p ∉ WebSocket.protocol_set w ->
      handshake_failed_as (WebSocket.error_listener w)
        (WebSocket.req_on_upgrade sha1_base64 response [] w) response
        "server sent a invalid subprotocol.").
Proof.
  intros Hp Hne.
  unfold WebSocket.req_on_upgrade, WebSocket.emit, WebSocket.log, WebSocket.put,
    WebSocket.get, mbind, WebSocket.M_bind. cbv beta iota.
  cbn [WebSocket.nonce WebSocket.set_trace WebSocket.protocol_set].
  rewrite Haccept, Hp. destruct (decide _) as [_|]; [|contradiction].
  destruct p as [|c p]; [contradiction|].
  change (WebSocket.protocol_set (WebSocket.set_trace _ w)) with (WebSocket.protocol_set w).
  split; [|split].
  - intros Hin. rewrite bool_decide_eq_false_2.
    + rewrite bool_decide_eq_true_2 by exact Hin. apply set_socket_accepted.
    + intros Hs. apply size_empty_iff in Hs. apply (Hs (String c p)) in Hin.
      exact (not_elem_of_empty _ Hin).
  - intros He. rewrite bool_decide_eq_true_2 by (rewrite He; apply size_empty).
    apply handshake_failed_failure.
  - intros He Hnin. rewrite bool_decide_eq_false_2.
    + rewrite bool_decide_eq_false_2 by exact Hnin. apply handshake_failed_failure.
    + intros Hs. apply size_empty_iff in Hs. apply He. apply leibniz_equiv, Hs.
Qed.

Lemma upgrade_no_reply :
  WebSocket.sec_websocket_protocol response = None ->
  (WebSocket.protocol_set w = ∅ ->
   handshake_accepted (WebSocket.req_on_upgrade sha1_base64 response [] w) response)
  /\ (WebSocket.protocol_set w <> ∅ ->
      handshake_failed_as (WebSocket.error_listener w)
        (WebSocket.req_on_upgrade sha1_base64 response [] w) response
        "server sent no subprotocol.").
Proof.
  intros Hp.
  unfold WebSocket.req_on_upgrade, WebSocket.emit, WebSocket.log, WebSocket.put,
    WebSocket.get, mbind, WebSocket.M_bind. cbv beta iota.
  cbn [WebSocket.nonce WebSocket.set_trace WebSocket.protocol_set].
  rewrite Haccept, Hp. destruct (decide _) as [_|]; [|contradiction].
  change (WebSocket.protocol_set (WebSocket.set_trace _ w)) with (WebSocket.protocol_set w).
  split.
  - intros He. rewrite bool_decide_eq_true_2 by (rewrite He; apply size_empty).
    apply set_socket_accepted.
  - intros He. rewrite bool_decide_eq_false_2.
    + apply handshake_failed_failure.
    + intros Hs. apply size_empty_iff in Hs. apply He. apply leibniz_equiv, Hs.
Qed.

End Negotiation.

(** C5 (as the code has it).  With a valid [Sec-WebSocket-Accept], on the
    connection that the constructor made: when ["chat"; "superchat"] was
    asked for, the reply "chat" opens the connection (the 'upgrade' event
    carries the reply; the connection keeps no record of it) and the reply
    "other" fails the handshake; when nothing was asked for, every reply
    that is not empty fails it and no reply opens the connection; when
    something was asked for, no reply fails it.  A handshake that fails
    destroys the request, assigns CLOSING and emits 'error': when the owner
    has attached a listener for 'error', CLOSED and 'close' (1006) follow;
    when not, the error is thrown out of the listener of 'upgrade', the
    state stays CLOSING and no 'close' is emitted. *)
Theorem subprotocol_negotiation (sha1_base64 : string -> string) (address : URL.URL)
    (options : option WebSocket.SocketOption) (nonce : string) :
  let reply := WebSocket.mkResponse "101" "Switching Protocols"
                 (Some (sha1_base64 (nonce +:+ "258EAFA5-E914-47DA-95CA-C5AB0DC85B11"))) in
  let upgrade := fun w response => WebSocket.req_on_upgrade sha1_base64 response [] w in
  let fails := fun w response description =>
    handshake_failure (upgrade (WebSocket.on_error w).1 response) response description
    /\ handshake_thrown (upgrade w response)
         [WebSocket.Emit (WebSocket.Upgrade response)] description in
  (forall client w,
     WebSocket.constructor address (WebSocket.Protocols ["chat"; "superchat"]%string)
       options nonce = Ok (client, w) ->
     handshake_accepted (upgrade w (reply (Some "chat"%string))) (reply (Some "chat"%string))
     /\ fails w (reply (Some "other"%string)) "server sent a invalid subprotocol.")
  /\ (forall client w,
        WebSocket.constructor address WebSocket.NoProtocols options nonce = Ok (client, w) ->
        (forall p, p <> ""%string ->
         fails w (reply (Some p))
           "nothing was requested, but the server sent a subprotocol.")
        /\ handshake_accepted (upgrade w (reply None)) (reply None))
  /\ (forall protocols client w,
        protocols <> [] ->
        WebSocket.constructor address (WebSocket.Protocols protocols) options nonce
        = Ok (client, w) ->
        fails w (reply None) "server sent no subprotocol.").
Proof.
  intros reply upgrade fails.
  assert (forall protocols client w p,
            WebSocket.constructor address protocols options nonce = Ok (client, w) ->
            (WebSocket.closeCode w = 1006 /\ WebSocket.closeReason w = WebSocket.Str ""
             /\ WebSocket.trace w = [])
            /\ WebSocket.sec_websocket_accept (reply p)
               = Some (sha1_base64
                         (WebSocket.nonce w +:+ "258EAFA5-E914-47DA-95CA-C5AB0DC85B11")))
    as Hready.
  { intros protocols client w p Hc.
    destruct (constructor_connection _ _ _ _ _ _ Hc) as (Hn & _ & Hcc & Hcr & Ht & _).
    rewrite Hn. repeat split; assumption. }
  (* one failing end gives the two of [fails]: with and without a listener *)
  assert (forall protocols client w response description,
            WebSocket.constructor address protocols options nonce = Ok (client, w) ->
            (forall w' : WebSocket.WebSocket,
               WebSocket.closeCode w' = WebSocket.closeCode w ->
               WebSocket.closeReason w' = WebSocket.closeReason w ->
               WebSocket.trace w' = WebSocket.trace w ->
               WebSocket.nonce w' = WebSocket.nonce w ->
               WebSocket.protocol_set w' = WebSocket.protocol_set w ->
               handshake_failed_as (WebSocket.error_listener w') (upgrade w' response)
                 response description) ->
            fails w response description) as Hfails.
  { intros protocols client w response description Hc H.
    destruct (constructor_untouched _ _ _ _ _ _ Hc) as (Hl & _). split.
    - apply (H (WebSocket.on_error w).1); reflexivity.
    - specialize (H w eq_refl eq_refl eq_refl eq_refl eq_refl). rewrite Hl in H. exact H. }
  split; [|split].
  - intros client w Hc.
    destruct (constructor_connection _ _ _ _ _ _ Hc) as (_ & _ & _ & _ & _ & Hps).
    cbn in Hps. injection Hps as Hps.
    split.
    + destruct (Hready _ _ _ (Some "chat"%string) Hc) as [Hs Ha].
      apply (upgrade_requested_and_replied sha1_base64 w _ Hs Ha "chat");
        [reflexivity|discriminate|].
      rewrite <- Hps. apply (bool_decide_unpack _). vm_compute. exact I.
    + apply (Hfails _ _ _ _ _ Hc). intros w' Hcc Hcr Ht Hn Hp.
      destruct (Hready _ _ _ (Some "other"%string) Hc) as [Hs Ha].
      rewrite <- Hcc, <- Hcr, <- Ht in Hs. rewrite <- Hn in Ha.
      apply (upgrade_requested_and_replied sha1_base64 w' _ Hs Ha "other");
        [reflexivity|discriminate| |]; rewrite Hp, <- Hps;
        apply (bool_decide_unpack _); vm_compute; exact I.
  - intros client w Hc.
    destruct (constructor_connection _ _ _ _ _ _ Hc) as (_ & _ & _ & _ & _ & Hps).
    cbn in Hps. split.
    + intros p Hne. apply (Hfails _ _ _ _ _ Hc). intros w' Hcc Hcr Ht Hn Hp.
      destruct (Hready _ _ _ (Some p) Hc) as [Hs Ha].
      rewrite <- Hcc, <- Hcr, <- Ht in Hs. rewrite <- Hn in Ha.
      apply (upgrade_requested_and_replied sha1_base64 w' _ Hs Ha p);
        [reflexivity|exact Hne|rewrite Hp; exact Hps].
    + destruct (Hready _ _ _ None Hc) as [Hs Ha].
      apply (upgrade_no_reply sha1_base64 w _ Hs Ha); [reflexivity|exact Hps].
  - intros protocols client w Hne Hc.
    destruct (constructor_connection _ _ _ _ _ _ Hc) as (_ & _ & _ & _ & _ & Hps).
    cbv zeta in Hps. destruct protocols as [|p protocols]; [contradiction|].
    cbn [Nat.ltb Nat.leb length] in Hps.
    destruct (add_protocols_grows _ _ _ Hps) as [_ Hin].
    apply (Hfails _ _ _ _ _ Hc). intros w' Hcc Hcr Ht Hn Hp.
    destruct (Hready _ _ _ None Hc) as [Hs Ha].
    rewrite <- Hcc, <- Hcr, <- Ht in Hs. rewrite <- Hn in Ha.
    apply (upgrade_no_reply sha1_base64 w' _ Hs Ha); [reflexivity|].
    rewrite Hp. intros He. specialize (Hin p ltac:(left)). rewrite He in Hin.
    exact (not_elem_of_empty _ Hin).
Qed.

Lemma subprotocol_negotiation_witness :
  let address := URL.mk "ws:" "" "" "example.org" "" "/chat" "" in
  let reply := WebSocket.mkResponse "101" "Switching Protocols"
                 (Some ("bm9uY2U=" +:+ "258EAFA5-E914-47DA-95CA-C5AB0DC85B11")) in
  exists client w,
    WebSocket.constructor address (WebSocket.Protocols ["chat"%string]) None "bm9uY2U="
    = Ok (client, w)
    /\ handshake_failure
         (WebSocket.req_on_upgrade (fun s => s) (reply None) [] (WebSocket.on_error w).1)
         (reply None) "server sent no subprotocol."
    /\ handshake_thrown (WebSocket.req_on_upgrade (fun s => s) (reply None) [] w)
         [WebSocket.Emit (WebSocket.Upgrade (reply None))] "server sent no subprotocol.".
Proof.
  cbv zeta. eexists _, _. split; [vm_compute; reflexivity|].
  eapply (proj2 (proj2 (subprotocol_negotiation (fun s => s)
                          (URL.mk "ws:" "" "" "example.org" "" "/chat" "") None "bm9uY2U="))
            ["chat"%string]).
  - discriminate.
  - vm_compute. reflexivity.
Defined.

(** C5 as stated fails.  No field of the connection holds a negotiated
    subprotocol: after the replies "chat" and "superchat" the connection is
    the same but for the response that 'upgrade' carried.  And with no
    listener for 'error' the reply "other" does not close the connection:
    the error is thrown, the state is CLOSING and no 'close' is emitted. *)
Lemma negotiation_keeps_no_subprotocol :
  let address := URL.mk "ws:" "" "" "example.org" "" "/chat" "" in
  let reply := WebSocket.mkResponse "101" "Switching Protocols"
                 (Some ("bm9uY2U=" +:+ "258EAFA5-E914-47DA-95CA-C5AB0DC85B11")) in
  let upgrade := fun w response => WebSocket.req_on_upgrade (fun s => s) response [] w in
  exists client w w1 w2 w3,
    WebSocket.constructor address (WebSocket.Protocols ["chat"; "superchat"]%string) None
      "bm9uY2U=" = Ok (client, w)
    /\ upgrade w (reply (Some "chat"%string)) = (w1, Ok tt)
    /\ upgrade w (reply (Some "superchat"%string)) = (w2, Ok tt)
    /\ WebSocket.state w1 = WebSocket.OPEN
    /\ WebSocket.state w2 = WebSocket.OPEN
    /\ WebSocket.set_trace [] w1 = WebSocket.set_trace [] w2
    /\ upgrade w (reply (Some "other"%string))
       = (w3, Throw "server sent a invalid subprotocol.")
    /\ WebSocket.state w3 = WebSocket.CLOSING
    /\ WebSocket.trace w3
       = [WebSocket.Emit (WebSocket.Upgrade (reply (Some "other"%string)));
          WebSocket.ReqDestroy; WebSocket.SetState WebSocket.CLOSING;
          WebSocket.Emit (WebSocket.Error "server sent a invalid subprotocol.")].
Proof.
  cbv zeta. eexists _, _, _, _, _. split; [vm_compute; reflexivity|].
  split; [vm_compute; reflexivity|]. split; [vm_compute; reflexivity|].
  split; [reflexivity|]. split; [reflexivity|]. split; [reflexivity|].
  split; [vm_compute; reflexivity|]. split; reflexivity.
Qed.

(** * The codec and the connection, call by call *)

(** ** Frames built with any flags *)

(** The two header bytes of a frame built by [Packet.frame], read back. *)
Lemma built_header_byte_0 (fin : bool) (opcode : Z) :
  0 <= opcode < 16 ->
  let b0 := to_u8 ((if fin then 128 else 0) + opcode) in
  Z.land b0 15 = opcode /\ (Z.land b0 128 =? 128) = fin /\ (Z.land b0 64 =? 64) = false.
Proof.
  intros Hop b0.
  assert (b0 = (if fin then 128 else 0) + opcode) as E
      by (apply to_u8_id; unfold is_byte; destruct fin; lia).
  assert (is_byte b0) as Hb by (rewrite E; unfold is_byte; destruct fin; lia).
  rewrite land_15, land_128, land_64 by exact Hb. rewrite E.
  destruct fin; repeat split.
  - Z.div_mod_to_equations. lia.
  - apply Z.leb_le. lia.
  - apply Z.leb_gt. Z.div_mod_to_equations. lia.
  - Z.div_mod_to_equations. lia.
  - apply Z.leb_gt. lia.
  - apply Z.leb_gt. Z.div_mod_to_equations. lia.
Qed.

Lemma built_header_byte_1 (mask : bool) (size : Z) :
  0 <= size ->
  let b1 := to_u8 (to_u8 (if mask then 128 else 0) + marker size) in
  Z.land b1 127 = marker size /\ (Z.land b1 128 =? 128) = mask.
Proof.
  intros Hs b1.
  assert (0 <= marker size < 128) as Hm.
  { unfold marker. destruct (size <? 126) eqn:?; [lia|]. destruct (size <? 65536); lia. }
  assert (to_u8 (if mask then 128 else 0) = if mask then 128 else 0) as E0
      by (destruct mask; reflexivity).
  assert (b1 = (if mask then 128 else 0) + marker size) as E.
  { unfold b1. rewrite E0. apply to_u8_id. unfold is_byte. destruct mask; lia. }
  assert (is_byte b1) as Hb by (rewrite E; unfold is_byte; destruct mask; lia).
  rewrite land_127, land_128 by exact Hb. rewrite E. destruct mask; split.
  - Z.div_mod_to_equations. lia.
  - apply Z.leb_le. lia.
  - Z.div_mod_to_equations. lia.
  - apply Z.leb_gt. lia.
Qed.

Lemma built_frame_read (fin mask : bool) (opcode : Z) (random : Z -> Z) (bytes0 : Buffer) :
  bytes bytes0 -> len bytes0 <= MAX_LENGTH -> 0 <= opcode < 16 ->
  let b0 := to_u8 ((if fin then 128 else 0) + opcode) in
  let b1 := to_u8 (to_u8 (if mask then 128 else 0) + marker (len bytes0)) in
  let key := if mask then key_of random else [] in
  let body := if mask then xor_loop (fun idx => idx mod 4) key bytes0 else bytes0 in
  len (extension (len bytes0)) = ext_size b1
  /\ len key = key_size b1
  /\ len body = announced b1 (extension (len bytes0))
  /\ bytes key /\ bytes body
  /\ wire_payload b1 key body = bytes0
  /\ Z.land b0 15 = opcode
  /\ (Z.land b0 128 =? 128) = fin
  /\ (Z.land b0 64 =? 64) = false
  /\ (Z.land b1 128 =? 128) = mask
  /\ announced b1 (extension (len bytes0)) = len bytes0
  /\ Z.land b1 127 = marker (len bytes0).
Proof.
  intros Hb Hmax Hop b0 b1 key body.
  pose proof (len_nonneg bytes0) as H0.
  destruct (built_header_byte_0 fin opcode Hop) as (Ho & Hf & Hr). fold b0 in Ho, Hf, Hr.
  destruct (built_header_byte_1 mask (len bytes0) H0) as (Hm & Hmk). fold b1 in Hm, Hmk.
  assert (len (extension (len bytes0)) = ext_size b1
          /\ announced b1 (extension (len bytes0)) = len bytes0) as [Hext Han].
  { unfold ext_size, announced. rewrite Hm. unfold marker, extension.
    destruct (len bytes0 <? 126) eqn:E1; [|destruct (len bytes0 <? 65536) eqn:E2].
    - destruct (len bytes0 =? 126) eqn:?; [lia|]. destruct (len bytes0 =? 127) eqn:?; [lia|].
      split; reflexivity.
    - change (126 =? 126) with true. cbv iota. split; [reflexivity|].
      apply be_u16. change (2 ^ 16) with 65536. lia.
    - change (127 =? 126) with false. change (127 =? 127) with true. cbv iota.
      split; [reflexivity|].
      pose proof (be_extension (len bytes0) ltac:(lia)) as Hbe. unfold extension in Hbe.
      rewrite E1, E2 in Hbe. cbv zeta in Hbe. rewrite Hbe.
      unfold round_double. unfold MAX_LENGTH in Hmax.
      destruct (len bytes0 <? 2 ^ 53) eqn:?; [reflexivity|lia]. }
  assert (bytes key) as Hbk by (unfold key; destruct mask; [apply key_of_bytes|constructor]).
  assert (body = if mask then xor_mask key bytes0 else bytes0) as Hbody.
  { unfold body. destruct mask; [|reflexivity]. apply xor_loop_mod_4; assumption. }
  repeat split; try assumption.
  - unfold key_size, key. rewrite Hmk. destruct mask; reflexivity.
  - rewrite Han, Hbody. destruct mask; [apply len_xor_mask|reflexivity].
  - rewrite Hbody. destruct mask; [apply xor_mask_bytes; assumption|exact Hb].
  - unfold wire_payload. rewrite Hmk, Hbody. destruct mask; [|reflexivity].
    apply xor_mask_involutive.
Qed.

(** X1.  A data frame (opcode 0 to 7) built with any [fin], [rsv1] and
    [mask] is read back by the constructor as a complete packet with that
    [fin], that opcode, that [mask] and the payload given; [rsv1] is read
    back as false whatever was asked for, and without [mask] the store is
    left as it was. *)
Theorem data_frame_roundtrip_any_flags (opcode : Z) (payload : nat) (fin rsv1 mask : bool)
    (random : Z -> Z) (h : list (list Z)) (bytes0 : Buffer) :
  h !! payload = Some bytes0 -> bytes bytes0 -> len bytes0 <= MAX_LENGTH ->
  0 <= opcode < 8 ->
  exists encoded h' packet,
    Packet.frame opcode payload fin rsv1 mask random h = Ok (encoded, h')
    /\ (mask = false -> h' = h)
    /\ Packet.constructor encoded = Ok packet
    /\ Packet.state packet = Packet.COMPLETE
    /\ Packet.fin packet = Some fin
    /\ Packet.rsv1 packet = Some false
    /\ Packet.opcode packet = Some opcode
    /\ Packet.mask packet = Some mask
    /\ Packet.payload packet = Some bytes0
    /\ Packet.close_code packet = None.
Proof.
  intros Hh Hb Hmax Hop.
  pose proof (frame_shape opcode payload fin rsv1 mask random h bytes0 Hh Hmax) as Hf.
  cbv zeta in Hf.
  destruct (built_frame_read fin mask opcode random bytes0 Hb Hmax ltac:(lia))
    as (Hext & Hkey & Hbody & Hbk & Hbb & Hp & Ho & Hfin & Hrsv & Hmk & Han & _).
  pose proof (whole_frame_data _ _ _ _ _ [] ltac:(intros H8; rewrite Ho in H8; lia)
                Hext Hkey Hbody Hbk Hbb) as Hd.
  rewrite app_nil_r in Hd.
  destruct Hd as (packet & Heq & Hst & Hpf & Hpr & Hpo & Hpm & Hpp & Hpc).
  { left. rewrite Ho. lia. }
  eexists _, _, packet. split; [exact Hf|].
  split; [intros ->; reflexivity|]. split; [exact Heq|].
  rewrite Hfin in Hpf. rewrite Hrsv in Hpr. rewrite Ho in Hpo. rewrite Hp in Hpp.
  rewrite Hmk in Hpm. repeat split; assumption.
Qed.

Lemma data_frame_roundtrip_any_flags_witness :
  exists encoded h' packet,
    Packet.frame 0 0 false true false (fun _ => 9) [[1; 2; 3]] = Ok (encoded, h')
    /\ (false = false -> h' = [[1; 2; 3]])
    /\ Packet.constructor encoded = Ok packet
    /\ Packet.state packet = Packet.COMPLETE
    /\ Packet.fin packet = Some false
    /\ Packet.rsv1 packet = Some false
    /\ Packet.opcode packet = Some 0
    /\ Packet.mask packet = Some false
    /\ Packet.payload packet = Some [1; 2; 3]
    /\ Packet.close_code packet = None.
Proof.
  apply (data_frame_roundtrip_any_flags 0 0 false true false (fun _ => 9) [[1; 2; 3]] [1; 2; 3]).
  - reflexivity.
  - repeat constructor; unfold is_byte; lia.
  - vm_compute. discriminate.
  - lia.
Defined.

(** X2.  [Packet.frame] checks none of the rules of control frames: for a
    control opcode (8 to 15) it builds the frame also without [fin] or with
    more than 125 bytes, and the constructor throws on what was built. *)
Theorem illegal_control_frame_is_built_and_rejected (opcode : Z) (payload : nat)
    (fin rsv1 mask : bool) (random : Z -> Z) (h : list (list Z)) (bytes0 : Buffer) :
  h !! payload = Some bytes0 -> bytes bytes0 -> len bytes0 <= MAX_LENGTH ->
  8 <= opcode < 16 ->
  fin = false \/ 125 < len bytes0 ->
  exists encoded h',
    Packet.frame opcode payload fin rsv1 mask random h = Ok (encoded, h')
    /\ Packet.constructor encoded
       = Throw (if 125 <? len bytes0 then "control frames must be less than 125 bytes."
                else "control frames must not be fragmented.").
Proof.
  intros Hh Hb Hmax Hop Hbad.
  pose proof (frame_shape opcode payload fin rsv1 mask random h bytes0 Hh Hmax) as Hf.
  cbv zeta in Hf.
  destruct (built_frame_read fin mask opcode random bytes0 Hb Hmax ltac:(lia))
    as (_ & _ & _ & _ & _ & _ & Ho & Hfin & _ & _ & _ & Hm).
  eexists _, _. split; [exact Hf|].
  set (b0 := to_u8 _) in *. set (b1 := to_u8 (_ + marker _)) in *.
  set (rest := extension _ ++ _).
  unfold Packet.constructor. cbn [Packet.size].
  rewrite !len_cons. pose proof (len_nonneg rest).
  destruct (_ <? 2) eqn:?; [lia|].
  set (this := Packet.mk _ _ _ _ _ _ _ _ _ _ _).
  assert (parsing this (b0 :: b1 :: rest)) as Hp.
  { split; [cbn; rewrite !len_cons; reflexivity | reflexivity]. }
  destruct (consume_parsing 2 this _ Hp ltac:(rewrite !len_cons; lia)) as (d & Hc & _).
  rewrite Hc. cbn [mbind result_bind].
  change (take (Z.to_nat 2) (b0 :: b1 :: rest)) with [b0; b1].
  change (at_ [b0; b1] 0) with b0. change (at_ [b0; b1] 1) with b1.
  rewrite Ho, Hm, Hfin.
  destruct (8 <=? opcode) eqn:?; [|lia]. cbn [andb].
  assert ((125 <? marker (len bytes0)) = (125 <? len bytes0)) as ->.
  { unfold marker. destruct (len bytes0 <? 126) eqn:?; [reflexivity|].
    destruct (len bytes0 <? 65536); symmetry; apply Z.ltb_lt; lia. }
  destruct (125 <? len bytes0) eqn:E; [reflexivity|].
  destruct Hbad as [->|Hbad]; [reflexivity|lia].
Qed.

Lemma illegal_control_frame_is_built_and_rejected_witness :
  exists encoded h',
    Packet.frame 9 0 false false true (fun _ => 9) [[1; 2; 3]] = Ok (encoded, h')
    /\ Packet.constructor encoded = Throw "control frames must not be fragmented.".
Proof.
  apply (illegal_control_frame_is_built_and_rejected 9 0 false false true (fun _ => 9)
           [[1; 2; 3]] [1; 2; 3]).
  - reflexivity.
  - repeat constructor; unfold is_byte; lia.
  - vm_compute. discriminate.
  - lia.
  - left. reflexivity.
Defined.

(** ** The outcomes of the parser *)

Lemma get_payload_outcome (this : Packet.Packet) :
  within this ->
  (Packet.state this = Packet.GET_PAYLOAD ->
   exists L, Packet.payload_length this = Some L /\ 0 <= L) ->
  returns_or_rejects (Packet.get_payload this).
Proof.
  intros Hw HL. unfold Packet.get_payload.
  destruct (Packet.state this =? Packet.GET_PAYLOAD) eqn:Es; [|exact I].
  apply Z.eqb_eq in Es. destruct (HL Es) as (L & -> & HL0).
  destruct (L =? 0); [exact I|].
  destruct (Packet.size this <? L) eqn:E; [exact I|].
  destruct (consume_within L this Hw ltac:(lia)) as (buf & d & Hc & _ & Hlen).
  rewrite Hc. cbn [mbind result_bind].
  destruct (decide _); [|exact I].
  destruct (L =? 1) eqn:E1;
    [cbn; unfold protocol_errors; rewrite !elem_of_cons; tauto|].
  destruct (2 <=? L) eqn:E2; [|exact I].
  unfold readUInt16BE. rewrite len_unmask, Hlen.
  destruct (0 + 2 <=? L) eqn:E3; [|lia]. exact I.
Qed.

Lemma get_mask_key_outcome (this : Packet.Packet) :
  within this ->
  (exists L, Packet.payload_length this = Some L /\ 0 <= L) ->
  returns_or_rejects (Packet.get_mask_key this).
Proof.
  intros Hw HL. unfold Packet.get_mask_key.
  destruct (Packet.state this =? Packet.GET_MASK_KEY);
    [|apply get_payload_outcome; [assumption|intros _; exact HL]].
  destruct (decide _); [|apply get_payload_outcome; [assumption|intros _; exact HL]].
  destruct (Packet.size this <? 4) eqn:E; [exact I|].
  destruct (consume_within 4 this Hw ltac:(lia)) as (buf & d & Hc & Hw' & _).
  rewrite Hc. cbn [mbind result_bind].
  apply get_payload_outcome; [assumption|intros _; exact HL].
Qed.

Lemma get_payload_length_outcome (this : Packet.Packet) :
  within this -> bytes (Packet.data this) ->
  (exists L, Packet.payload_length this = Some L /\ 0 <= L) ->
  returns_or_rejects (Packet.get_payload_length this).
Proof.
  intros Hw Hb HL. unfold Packet.get_payload_length.
  assert (forall n buf d, 0 <= n <= Packet.size this ->
            Packet.consume n this
            = Ok (buf, Packet.set_data d (Packet.set_size (Packet.size this - n) this)) ->
            bytes buf) as Hbuf.
  { intros n buf d Hn Hc. unfold Packet.consume in Hc.
    cbn [Packet.data Packet.set_size] in Hc.
    destruct Hw as [Hw0 Hw1].
    destruct (n =? len (Packet.data this)); [injection Hc as <- _; exact Hb|].
    destruct (n <? len (Packet.data this)) eqn:E; [|discriminate].
    injection Hc as <- _. rewrite slice_take by lia. apply Forall_take, Hb. }
  destruct (Packet.state this =? Packet.GET_PAYLOAD_LENGTH_16).
  - destruct (Packet.size this <? 2) eqn:E; [exact I|].
    destruct (consume_within 2 this Hw ltac:(lia)) as (buf & d & Hc & Hw' & Hlen).
    pose proof (Hbuf 2 buf d ltac:(lia) Hc) as Hbb.
    rewrite Hc. cbn [mbind result_bind]. unfold readUInt16BE. rewrite Hlen.
    change ((0 <=? 0) && (0 + 2 <=? 2)) with true. cbn [mbind result_bind].
    apply get_mask_key_outcome; [exact Hw'|]. eexists. split; [reflexivity|].
    pose proof (at_nonneg buf 0 Hbb). pose proof (at_nonneg buf (0 + 1) Hbb). lia.
  - destruct (Packet.state this =? Packet.GET_PAYLOAD_LENGTH_64).
    + destruct (Packet.size this <? 8) eqn:E; [exact I|].
      destruct (consume_within 8 this Hw ltac:(lia)) as (buf & d & Hc & Hw' & Hlen).
      pose proof (Hbuf 8 buf d ltac:(lia) Hc) as Hbb.
      rewrite Hc. cbn [mbind result_bind]. unfold readUInt32BE. rewrite Hlen.
      change ((0 <=? 0) && (0 + 4 <=? 8)) with true.
      change ((0 <=? 4) && (4 + 4 <=? 8)) with true. cbn [mbind result_bind].
      apply get_mask_key_outcome; [exact Hw'|]. eexists. split; [reflexivity|].
      apply round_double_nonneg.
      pose proof (at_nonneg buf 0 Hbb). pose proof (at_nonneg buf (0 + 1) Hbb).
      pose proof (at_nonneg buf (0 + 2) Hbb). pose proof (at_nonneg buf (0 + 3) Hbb).
      pose proof (at_nonneg buf 4 Hbb). pose proof (at_nonneg buf (4 + 1) Hbb).
      pose proof (at_nonneg buf (4 + 2) Hbb). pose proof (at_nonneg buf (4 + 3) Hbb).
      lia.
    + apply get_mask_key_outcome; assumption.
Qed.

(** X3.  On every chunk of bytes the constructor returns a packet or
    rejects the frame with one of its three errors: [consume] is never asked
    for more bytes than the chunk holds, so its loop (which would not end) is
    not entered, and no read of a length or of a close code goes out of
    range. *)
Theorem constructor_returns_or_rejects (data : Buffer) :
  bytes data -> returns_or_rejects (Packet.constructor data).
Proof.
  intros Hb. unfold Packet.constructor. cbn [Packet.size].
  destruct (len data <? 2) eqn:E; [exact I|].
  set (this := Packet.mk _ _ _ _ _ _ _ _ _ _ _).
  assert (within this) as Hw by (split; cbn; [apply len_nonneg|lia]).
  destruct (consume_within 2 this Hw ltac:(cbn; lia)) as (buf & d & Hc & Hw' & Hlen).
  rewrite Hc. cbn [mbind result_bind].
  destruct (_ && _); [cbn; unfold protocol_errors; rewrite !elem_of_cons; tauto|].
  destruct (_ && _); [cbn; unfold protocol_errors; rewrite !elem_of_cons; tauto|].
  assert (bytes d) as Hbd.
  { unfold Packet.consume in Hc. cbn [Packet.data Packet.set_size this] in Hc.
    destruct (2 =? len data); [injection Hc as _ <-; exact Hb|].
    destruct (2 <? len data) eqn:E'; [|discriminate].
    injection Hc as _ <-. rewrite slice_from_drop by lia. apply Forall_drop, Hb. }
  apply get_payload_length_outcome.
  - repeat match goal with |- context [if ?c then _ else _] => destruct c end; exact Hw'.
  - repeat match goal with |- context [if ?c then _ else _] => destruct c end; exact Hbd.
  - exists (Z.land (at_ buf 1) 127). split.
    + repeat match goal with |- context [if ?c then _ else _] => destruct c end; reflexivity.
    + apply Z.land_nonneg. right. lia.
Qed.

Lemma constructor_returns_or_rejects_witness :
  returns_or_rejects (Packet.constructor [136; 1; 7]).
Proof.
  apply (constructor_returns_or_rejects [136; 1; 7]).
  repeat constructor; unfold is_byte; lia.
Defined.

(** ** A chunk that holds less than its frame *)

(** The constructor returns at the stage whose bytes are missing, with the
    header fields set and no payload. *)
Lemma partial_frame_packet (b0 b1 : Z) (rem : Buffer) :
  legal b0 b1 -> holds_frame b1 rem = false ->
  exists packet,
    Packet.constructor (b0 :: b1 :: rem) = Ok packet
    /\ Packet.opcode packet = Some (Z.land b0 15)
    /\ Packet.payload packet = None
    /\ Packet.close_code packet = None
    /\ Packet.GET_PAYLOAD_LENGTH_16 <= Packet.state packet <= Packet.GET_PAYLOAD.
Proof.
  intros Hlegal Hcut.
  destruct (constructor_header b0 b1 rem Hlegal) as (d0 & Heq & Hp).
  cbv zeta in Heq, Hp. rewrite Heq. clear Heq.
  unfold holds_frame, ext_size, key_size, announced in Hcut. cbv zeta in Hcut.
  pose proof (len_nonneg rem) as Hr0.
  (* the stage of the mask key, entered with [rem2] left to read *)
  assert (forall (this : Packet.Packet) (rem2 : Buffer) (L : Z),
            parsing this rem2 -> Packet.state this = Packet.GET_MASK_KEY ->
            Packet.mask this = Some (Z.land b1 128 =? 128) ->
            Packet.opcode this = Some (Z.land b0 15) ->
            Packet.payload this = None -> Packet.close_code this = None ->
            Packet.payload_length this = Some L ->
            len rem2 < (if Z.land b1 128 =? 128 then 4 else 0)
            \/ len rem2 < (if Z.land b1 128 =? 128 then 4 else 0) + L ->
            exists packet,
              Packet.get_mask_key this = Ok packet
              /\ Packet.opcode packet = Some (Z.land b0 15)
              /\ Packet.payload packet = None
              /\ Packet.close_code packet = None
              /\ Packet.GET_PAYLOAD_LENGTH_16 <= Packet.state packet <= Packet.GET_PAYLOAD)
    as Hkey.
  { intros this rem2 L Hp2 Hst Hm Ho Hpl Hcc HL Hshort.
    pose proof (len_nonneg rem2) as H2.
    assert (forall this3 rem3,
              parsing this3 rem3 -> Packet.state this3 = Packet.GET_PAYLOAD ->
              Packet.opcode this3 = Some (Z.land b0 15) ->
              Packet.payload this3 = None -> Packet.close_code this3 = None ->
              Packet.payload_length this3 = Some L -> len rem3 < L ->
              exists packet,
                Packet.get_payload this3 = Ok packet
                /\ Packet.opcode packet = Some (Z.land b0 15)
                /\ Packet.payload packet = None
                /\ Packet.close_code packet = None
                /\ Packet.GET_PAYLOAD_LENGTH_16 <= Packet.state packet <= Packet.GET_PAYLOAD)
      as Hpay.
    { intros this3 rem3 Hp3 Hst3 Ho3 Hpl3 Hcc3 HL3 Hlt.
      pose proof (len_nonneg rem3) as H3.
      unfold Packet.get_payload. rewrite Hst3, HL3. cbn [Z.eqb Packet.GET_PAYLOAD Pos.eqb].
      destruct (L =? 0) eqn:?; [lia|].
      destruct Hp3 as [Hs3 _]. rewrite Hs3.
      destruct (len rem3 <? L) eqn:?; [|lia].
      exists this3. rewrite Hst3. repeat split; try assumption; vm_compute; discriminate. }
    destruct (Z.land b1 128 =? 128) eqn:Emask.
    - destruct (Z_lt_dec (len rem2) 4) as [Hlt|Hge].
      + unfold Packet.get_mask_key. rewrite Hst, Hm.
        cbn [Z.eqb Packet.GET_MASK_KEY Pos.eqb].
        destruct (decide _) as [_|E]; [|contradiction].
        destruct Hp2 as [Hs2 _]. rewrite Hs2.
        destruct (len rem2 <? 4) eqn:?; [|lia].
        exists this. rewrite Hst. repeat split; try assumption; vm_compute; discriminate.
      + destruct (get_mask_key_masked this rem2 Hp2 Hst Hm ltac:(lia)) as (d & Heq & Hp3).
        cbv zeta in Heq, Hp3. rewrite Heq.
        apply (Hpay _ _ Hp3); try assumption; try reflexivity.
        unfold len in *. rewrite length_drop. lia.
    - rewrite get_mask_key_unmasked by (rewrite ?Hm; congruence).
      apply (Hpay _ rem2); try assumption; try reflexivity. lia. }
  set (ks := if Z.land b1 128 =? 128 then 4 else 0) in *.
  assert (0 <= ks) as Hks by (unfold ks; destruct (_ =? 128); lia).
  apply andb_false_iff in Hcut.
  destruct (Z.land b1 127 =? 126) eqn:E126; [|destruct (Z.land b1 127 =? 127) eqn:E127].
  - destruct (Z_lt_dec (len rem) 2) as [Hlt|Hge].
    + unfold Packet.get_payload_length. cbn [Packet.state Packet.set_state Packet.size
        Packet.set_header]. cbn [Z.eqb Packet.GET_PAYLOAD_LENGTH_16 Pos.eqb].
      destruct (len rem <? 2) eqn:?; [|lia].
      eexists. split; [reflexivity|]. cbn. repeat split; try reflexivity; vm_compute; discriminate.
    + destruct (get_payload_length_16 _ _ Hp eq_refl ltac:(lia)) as (d1 & Heq & Hp1).
      cbv zeta in Heq, Hp1. rewrite Heq. clear Heq.
      eapply (Hkey _ _ _ Hp1); try reflexivity.
      assert (be (take (Z.to_nat 2) rem) = at_ rem 0 * 256 + at_ rem 1) as Hbe.
      { destruct rem as [|e0 [|e1 rem']]; rewrite ?len_cons, ?len_nil in Hge;
          try (pose proof (len_nonneg rem')); try lia.
        unfold be. change (Z.to_nat 2) with 2%nat. cbn [take]. rewrite take_0. cbn [fold_left].
        change (at_ (e0 :: e1 :: rem') 0) with e0. change (at_ (e0 :: e1 :: rem') 1) with e1.
        lia. }
      rewrite Hbe in Hcut.
      assert (len (drop 2 rem) = len rem - 2) as Hld
          by (unfold len in *; rewrite length_drop; lia).
      rewrite Hld. destruct Hcut as [Hcut|Hcut]; apply Z.leb_gt in Hcut; [left|right]; lia.
  - destruct (Z_lt_dec (len rem) 8) as [Hlt|Hge].
    + unfold Packet.get_payload_length. cbn [Packet.state Packet.set_state Packet.size
        Packet.set_header].
      cbn [Z.eqb Packet.GET_PAYLOAD_LENGTH_16 Packet.GET_PAYLOAD_LENGTH_64 Pos.eqb].
      destruct (len rem <? 8) eqn:?; [|lia].
      eexists. split; [reflexivity|]. cbn. repeat split; try reflexivity; vm_compute; discriminate.
    + destruct (get_payload_length_64 _ _ Hp eq_refl ltac:(lia)) as (d1 & Heq & Hp1).
      cbv zeta in Heq, Hp1. rewrite Heq. clear Heq.
      eapply (Hkey _ _ _ Hp1); try reflexivity.
      assert (be (take (Z.to_nat 8) rem)
              = (at_ rem 0 * 2 ^ 24 + at_ rem 1 * 2 ^ 16 + at_ rem 2 * 2 ^ 8 + at_ rem 3) * 2 ^ 32
                + (at_ rem 4 * 2 ^ 24 + at_ rem 5 * 2 ^ 16 + at_ rem 6 * 2 ^ 8 + at_ rem 7))
        as Hbe.
      { destruct rem as [|e0 [|e1 [|e2 [|e3 [|e4 [|e5 [|e6 [|e7 rem']]]]]]]];
          rewrite ?len_cons, ?len_nil in Hge; try (pose proof (len_nonneg rem')); try lia.
        unfold be. change (Z.to_nat 8) with 8%nat. cbn [take]. rewrite take_0. cbn [fold_left].
        set (l := e0 :: e1 :: e2 :: e3 :: e4 :: e5 :: e6 :: e7 :: rem').
        change (at_ l 0) with e0. change (at_ l 1) with e1. change (at_ l 2) with e2.
        change (at_ l 3) with e3. change (at_ l 4) with e4. change (at_ l 5) with e5.
        change (at_ l 6) with e6. change (at_ l 7) with e7. lia. }
      rewrite Hbe in Hcut.
      assert (len (drop 8 rem) = len rem - 8) as Hld
          by (unfold len in *; rewrite length_drop; lia).
      rewrite Hld. destruct Hcut as [Hcut|Hcut]; apply Z.leb_gt in Hcut; [left|right]; lia.
  - rewrite get_payload_length_7 by reflexivity.
    eapply (Hkey _ _ _ Hp); try reflexivity.
    destruct Hcut as [Hcut|Hcut]; apply Z.leb_gt in Hcut; [left|right]; lia.
Qed.

(** X4.  A chunk of two bytes or more that holds less than the frame its
    header announces is dispatched on its opcode at once, without a payload:
    a text or binary frame gives a 'message' event with [undefined], a pong
    a 'pong' event with [undefined]; a ping makes [pong(undefined)] throw a
    TypeError out of the listener, with nothing written and no 'ping'
    event; a close frame records the code 1006 and the reason
    'Abnormal Closure' and destroys the socket. *)
Theorem partial_frame_is_dispatched_without_payload (b0 b1 : Z) (rem : Buffer)
    (random : Z -> Z) (w : WebSocket.WebSocket) :
  legal b0 b1 -> holds_frame b1 rem = false ->
  WebSocket.state w <> WebSocket.CONNECTING ->
  let o := Z.land b0 15 in
  let run := WebSocket.socket_on_data (b0 :: b1 :: rem) random w in
  (o = 1 \/ o = 2 ->
   run = (WebSocket.set_trace
            (WebSocket.trace w ++ [WebSocket.Emit (WebSocket.Message None)]) w, Ok tt))
  /\ (o = 10 ->
      run = (WebSocket.set_trace
               (WebSocket.trace w ++ [WebSocket.Emit (WebSocket.Pong None)]) w, Ok tt))
  /\ (o = 9 -> run = (w, Throw "ERR_INVALID_ARG_TYPE"))
  /\ (o = 8 ->
      run = ((if WebSocket.socket w
              then fun w' => WebSocket.set_trace
                               (WebSocket.trace w' ++ [WebSocket.SocketDestroy]) w'
              else id)
               (WebSocket.set_closeReason (WebSocket.Str "Abnormal Closure")
                  (WebSocket.set_closeCode 1006 w)), Ok tt)).
Proof.
  intros Hlegal Hcut Hst o run.
  destruct (partial_frame_packet b0 b1 rem Hlegal Hcut) as (packet & Heq & Ho & Hpl & Hcc & _).
  fold o in Ho.
  assert (run = (match Some o with
                 | Some 0 => WebSocket.log (WebSocket.ConsoleLog "Continuation Frame.")
                 | Some 1 => b ← WebSocket.read None; WebSocket.emit (WebSocket.Message b)
                 | Some 2 => b ← WebSocket.read None; WebSocket.emit (WebSocket.Message b)
                 | Some 8 =>
                   WebSocket.put (WebSocket.set_closeCode 1006) ;;
                   b ← WebSocket.read None;
                   WebSocket.put (WebSocket.set_closeReason
                                    match b with
                                    | Some ((_ :: _) as bytes1) => WebSocket.ToString bytes1
                                    | _ => WebSocket.Str "Abnormal Closure"
                                    end) ;;
                   WebSocket.socket_destroy
                 | Some 9 =>
                   WebSocket.pong WebSocket.Undefined random ;;
                   b ← WebSocket.read None;
                   WebSocket.emit (WebSocket.Ping b)
                 | Some 10 => b ← WebSocket.read None; WebSocket.emit (WebSocket.Pong b)
                 | _ => WebSocket.skip
                 end) w) as Hrun.
  { unfold run, WebSocket.socket_on_data.
    unfold mbind at 1. unfold WebSocket.M_bind at 1. unfold WebSocket.lift. rewrite Heq.
    unfold mbind at 1. unfold WebSocket.M_bind at 1. rewrite Hpl, Ho, Hcc. reflexivity. }
  rewrite Hrun. clear Hrun.
  split; [|split; [|split]].
  - intros [-> | ->]; reflexivity.
  - intros ->. reflexivity.
  - intros ->. unfold WebSocket.pong, WebSocket.get, mbind, WebSocket.M_bind.
    destruct (WebSocket.state w =? WebSocket.CONNECTING) eqn:E;
      [apply Z.eqb_eq in E; contradiction|]. reflexivity.
  - intros ->. unfold WebSocket.socket_destroy, WebSocket.read, WebSocket.put, WebSocket.get,
      WebSocket.log, WebSocket.put, WebSocket.skip, mbind, WebSocket.M_bind, mret,
      WebSocket.M_ret. cbn.
    destruct (WebSocket.socket w); reflexivity.
Qed.

Lemma partial_frame_is_dispatched_without_payload_witness :
  WebSocket.socket_on_data [129; 5; 72; 101] (fun _ => 0) open_connection
  = (WebSocket.set_trace [WebSocket.Emit (WebSocket.Message None)] open_connection, Ok tt).
Proof.
  apply (partial_frame_is_dispatched_without_payload 129 5 [72; 101] (fun _ => 0)
           open_connection).
  - unfold legal. change (Z.land 129 15) with 1. lia.
  - reflexivity.
  - discriminate.
  - left. reflexivity.
Defined.

Lemma be_nonneg (bs : Buffer) : bytes bs -> 0 <= be bs.
Proof.
  intros Hb. unfold be.
  assert (forall acc, 0 <= acc -> 0 <= fold_left (fun acc b => acc * 256 + b) bs acc) as H.
  { induction Hb as [|b bs Hx _ IH]; intros acc Hacc; [exact Hacc|].
    cbn [fold_left]. apply IH. unfold is_byte in Hx. lia. }
  apply H. lia.
Qed.

(** A chunk that holds its frame, cut into the parts of the frame. *)
Lemma holds_frame_parts (b1 : Z) (rem : Buffer) :
  bytes rem -> holds_frame b1 rem = true ->
  exists ext key body rest,
    rem = ext ++ key ++ body ++ rest
    /\ ext = take (Z.to_nat (ext_size b1)) rem
    /\ len ext = ext_size b1 /\ len key = key_size b1 /\ len body = announced b1 ext
    /\ bytes key /\ bytes body.
Proof.
  intros Hb Hh. unfold holds_frame in Hh. cbv zeta in Hh.
  apply andb_true_iff in Hh as [H1 H2]. apply Z.leb_le in H1. apply Z.leb_le in H2.
  set (ext := take (Z.to_nat (ext_size b1)) rem) in *.
  set (r1 := drop (Z.to_nat (ext_size b1)) rem).
  set (key := take (Z.to_nat (key_size b1)) r1).
  set (r2 := drop (Z.to_nat (key_size b1)) r1).
  set (body := take (Z.to_nat (announced b1 ext)) r2).
  set (rest := drop (Z.to_nat (announced b1 ext)) r2).
  assert (0 <= ext_size b1) as He
      by (unfold ext_size; destruct (_ =? 126); [lia|]; destruct (_ =? 127); lia).
  assert (0 <= key_size b1) as Hk by (unfold key_size; destruct (_ =? 128); lia).
  assert (bytes ext) as Hbe by (apply Forall_take, Hb).
  assert (0 <= announced b1 ext) as HL.
  { unfold announced. destruct (_ =? 126); [apply be_nonneg, Hbe|].
    destruct (_ =? 127); [apply round_double_nonneg, be_nonneg, Hbe|].
    apply Z.land_nonneg. right. lia. }
  assert (len r1 = len rem - ext_size b1) as Hr1
      by (unfold r1, len in *; rewrite length_drop; lia).
  assert (len r2 = len r1 - key_size b1) as Hr2
      by (unfold r2, len in *; rewrite length_drop; lia).
  exists ext, key, body, rest. split; [|split; [reflexivity|split; [|split; [|split; [|split]]]]].
  - unfold ext, key, body, rest, r2, r1. rewrite !take_drop. reflexivity.
  - apply len_take. lia.
  - apply len_take. lia.
  - apply len_take. lia.
  - apply Forall_take, Forall_drop, Hb.
  - apply Forall_take, Forall_drop, Forall_drop, Hb.
Qed.

(** X5.  The packet is complete exactly when the chunk holds the whole
    frame: for a chunk of bytes that passes the check of control frames (a
    close frame announcing one byte apart, which is rejected), the
    constructor returns a packet, in stage COMPLETE and with a payload when
    the length extension, the mask key and the bytes announced are all in
    the chunk, and in an earlier stage and without a payload when any of
    them is cut short. *)
Theorem packet_is_complete_iff_chunk_holds_frame (b0 b1 : Z) (rem : Buffer) :
  legal b0 b1 -> bytes rem ->
  (Z.land b0 15 = 8 -> announced b1 (take (Z.to_nat (ext_size b1)) rem) <> 1) ->
  exists packet,
    Packet.constructor (b0 :: b1 :: rem) = Ok packet
    /\ (Packet.state packet = Packet.COMPLETE <-> holds_frame b1 rem = true)
    /\ (Packet.payload packet <> None <-> holds_frame b1 rem = true).
Proof.
  intros Hlegal Hb Hclose.
  destruct (holds_frame b1 rem) eqn:Hh.
  - destruct (holds_frame_parts b1 rem Hb Hh)
      as (ext & key & body & rest & -> & Hext & Hle & Hlk & Hlb & Hbk & Hbb).
    rewrite <- Hext in Hclose. pose proof (len_nonneg body) as Hb0.
    assert (exists f r1 o m p c,
              decoded (Packet.constructor (b0 :: b1 :: ext ++ key ++ body ++ rest))
                      f r1 o m p c) as (f & r1 & o & m & p & c & packet & Heq & Hst & Hrest).
    { destruct (Z.eq_dec (Z.land b0 15) 8) as [E8|E8].
      - destruct (Z.eq_dec (announced b1 ext) 0) as [E0|E0].
        + eexists _, _, _, _, _, _.
          apply (whole_frame_data b0 b1 ext key body rest Hlegal Hle Hlk Hlb Hbk Hbb).
          right. exact E0.
        + eexists _, _, _, _, _, _.
          apply (whole_frame_close b0 b1 ext key body rest Hlegal Hle Hlk Hlb Hbk Hbb E8).
          specialize (Hclose E8). lia.
      - eexists _, _, _, _, _, _.
        apply (whole_frame_data b0 b1 ext key body rest Hlegal Hle Hlk Hlb Hbk Hbb).
        left. exact E8. }
    exists packet. split; [exact Heq|]. split; [tauto|].
    destruct Hrest as (_ & _ & _ & _ & Hp & _). rewrite Hp. split; [reflexivity|discriminate].
  - destruct (partial_frame_packet b0 b1 rem Hlegal Hh) as (packet & Heq & _ & Hp & _ & Hst).
    exists packet. split; [exact Heq|]. split.
    + split; [|discriminate]. intros E. rewrite E in Hst.
      unfold Packet.COMPLETE, Packet.GET_PAYLOAD in Hst. lia.
    + rewrite Hp. split; [intros H; contradiction|discriminate].
Qed.

Lemma packet_is_complete_iff_chunk_holds_frame_witness :
  exists packet,
    Packet.constructor [129; 2; 72; 105; 33] = Ok packet
    /\ (Packet.state packet = Packet.COMPLETE <-> holds_frame 2 [72; 105; 33] = true)
    /\ (Packet.payload packet <> None <-> holds_frame 2 [72; 105; 33] = true).
Proof.
  apply (packet_is_complete_iff_chunk_holds_frame 129 2 [72; 105; 33]).
  - unfold legal. change (Z.land 129 15) with 1. lia.
  - repeat constructor; unfold is_byte; lia.
  - intros H. vm_compute in H. discriminate H.
Defined.

(** ** A chunk that starts with a whole frame, at the connection *)

(** [socket_on_data] on a chunk whose packet has a payload: the payload
    becomes an object of the store and the opcode is dispatched. *)
Ltac dispatch_packet Heq Hpl Ho :=
  unfold WebSocket.socket_on_data;
  unfold mbind at 1; unfold WebSocket.M_bind at 1; unfold WebSocket.lift; rewrite Heq;
  unfold mbind at 1; unfold WebSocket.M_bind at 1; rewrite Hpl;
  unfold mbind at 1; unfold WebSocket.M_bind at 1; unfold WebSocket.new at 1;
  unfold new_buffer;
  cbn [WebSocket.heap WebSocket.set_heap mret WebSocket.M_ret]; rewrite Ho.

Lemma lookup_new_buffer (h : list (list Z)) (p : Buffer) : (h ++ [p]) !! length h = Some p.
Proof. apply list_lookup_middle. reflexivity. Qed.

(** A chunk that starts with a whole text or binary frame, with any of the
    three length forms, masked or not, and whatever follows it in the chunk:
    one 'message' event is emitted with the payload unmasked, which is one
    more object of the store; nothing is written and the connection is as
    it was otherwise. *)
Lemma message_frame_run (b0 b1 : Z) (ext key body rest : Buffer)
    (random : Z -> Z) (w : WebSocket.WebSocket) :
  Z.land b0 15 = 1 \/ Z.land b0 15 = 2 ->
  len ext = ext_size b1 -> len key = key_size b1 -> len body = announced b1 ext ->
  bytes key -> bytes body ->
  let p := wire_payload b1 key body in
  WebSocket.socket_on_data (b0 :: b1 :: ext ++ key ++ body ++ rest) random w
  = (WebSocket.set_trace (WebSocket.trace w ++ [WebSocket.Emit (WebSocket.Message (Some p))])
       (WebSocket.set_heap (WebSocket.heap w ++ [p]) w), Ok tt).
Proof.
  intros Hop Hext Hkey Hbody Hbk Hbb p.
  assert (legal b0 b1) as Hlegal by (intros H8; lia).
  destruct (whole_frame_data b0 b1 ext key body rest Hlegal Hext Hkey Hbody Hbk Hbb
              ltac:(left; lia))
    as (packet & Heq & _ & _ & _ & Ho & _ & Hpl & _).
  fold p in Hpl. dispatch_packet Heq Hpl Ho.
  unfold WebSocket.read, WebSocket.emit, WebSocket.log, WebSocket.put, WebSocket.get,
    mbind, WebSocket.M_bind.
  destruct Hop as [-> | ->]; cbn [WebSocket.heap WebSocket.set_heap option_bind];
    cbn; rewrite lookup_new_buffer; reflexivity.
Qed.

(** X6.  Frames that arrive one per chunk are delivered in order: when every
    chunk starts with a whole text or binary frame (with any of the three
    length forms, masked or not, whatever follows the frame in the chunk),
    the 'data' events emit one 'message' per chunk, in the order of the
    chunks, each with the payload of its frame unmasked; nothing is written
    and the state is left as it is. *)
Theorem whole_frames_are_delivered_in_order (chunks payloads : list Buffer)
    (random : Z -> Z) (w : WebSocket.WebSocket) :
  Forall2 message_chunk chunks payloads ->
  deliver chunks random w
  = (WebSocket.set_trace
       (WebSocket.trace w
        ++ ((fun p => WebSocket.Emit (WebSocket.Message (Some p))) <$> payloads))
       (WebSocket.set_heap (WebSocket.heap w ++ payloads) w), Ok tt).
Proof.
  intros H. revert w. induction H as [|chunk p chunks payloads Hc _ IH]; intros w.
  - cbn. rewrite !app_nil_r. destruct w; reflexivity.
  - destruct Hc as (b0 & b1 & ext & key & body & rest & -> & Hop & He & Hk & Hb & Hbk & Hbb & ->).
    cbn [deliver]. unfold mbind, WebSocket.M_bind.
    rewrite (message_frame_run b0 b1 ext key body rest random w Hop He Hk Hb Hbk Hbb).
    rewrite IH. cbn. rewrite <- !app_assoc. reflexivity.
Qed.

Lemma whole_frames_are_delivered_in_order_witness :
  deliver [[129; 1; 65]; [130; 129; 1; 2; 3; 4; 67; 9]] (fun _ => 0) open_connection
  = (WebSocket.set_trace
       [WebSocket.Emit (WebSocket.Message (Some [65]));
        WebSocket.Emit (WebSocket.Message (Some [66]))]
       (WebSocket.set_heap [[65]; [66]] open_connection), Ok tt).
Proof.
  apply (whole_frames_are_delivered_in_order [[129; 1; 65]; [130; 129; 1; 2; 3; 4; 67; 9]]
           [[65]; [66]] (fun _ => 0) open_connection).
  repeat constructor.
  - exists 129, 1, [], [], [65], [].
    repeat split; try reflexivity; try (left; reflexivity);
      repeat constructor; unfold is_byte; lia.
  - exists 130, 129, [], [1; 2; 3; 4], [67], [9].
    repeat split; try reflexivity; try (right; reflexivity);
      repeat constructor; unfold is_byte; lia.
Defined.

(** X7.  The frames that get no answer.  A whole pong frame gives one 'pong'
    event with its payload; a continuation frame is only logged to the
    console, its payload is handed to nobody; a frame with a reserved opcode
    (3 to 7, 11 to 15) is dropped without any step.  In none of the cases is
    anything written or the connection failed. *)
Theorem unanswered_frames (b0 b1 : Z) (ext key body rest : Buffer)
    (random : Z -> Z) (w : WebSocket.WebSocket) :
  legal b0 b1 ->
  len ext = ext_size b1 -> len key = key_size b1 -> len body = announced b1 ext ->
  bytes key -> bytes body ->
  let o := Z.land b0 15 in
  let p := wire_payload b1 key body in
  let w1 := WebSocket.set_heap (WebSocket.heap w ++ [p]) w in
  let run := WebSocket.socket_on_data (b0 :: b1 :: ext ++ key ++ body ++ rest) random w in
  (o = 10 ->
   run = (WebSocket.set_trace
            (WebSocket.trace w ++ [WebSocket.Emit (WebSocket.Pong (Some p))]) w1, Ok tt))
  /\ (o = 0 ->
      run = (WebSocket.set_trace
               (WebSocket.trace w ++ [WebSocket.ConsoleLog "Continuation Frame."]) w1, Ok tt))
  /\ (3 <= o <= 7 \/ 11 <= o -> run = (w1, Ok tt)).
Proof.
  intros Hlegal Hext Hkey Hbody Hbk Hbb o p w1 run.
  assert (0 <= o < 16) as Hrange.
  { unfold o. change 15 with (Z.ones 4). rewrite Z.land_ones by lia.
    apply Z.mod_pos_bound. lia. }
  assert (o <> 8 ->
          exists packet,
            Packet.constructor (b0 :: b1 :: ext ++ key ++ body ++ rest) = Ok packet
            /\ Packet.opcode packet = Some o /\ Packet.payload packet = Some p) as Hpacket.
  { intros Hv8.
    destruct (whole_frame_data b0 b1 ext key body rest Hlegal Hext Hkey Hbody Hbk Hbb
                ltac:(left; fold o; lia))
      as (packet & Heq & _ & _ & _ & Ho & _ & Hpl & _).
    exists packet. repeat split; assumption. }
  assert (forall v, o = v -> v <> 8 ->
          exists packet,
            Packet.constructor (b0 :: b1 :: ext ++ key ++ body ++ rest) = Ok packet
            /\ Packet.opcode packet = Some v /\ Packet.payload packet = Some p) as Hv.
  { intros v <-. exact Hpacket. }
  clear Hpacket. unfold run. clearbody o. clear Hlegal.
  split; [|split].
  - intros E. destruct (Hv 10 E ltac:(lia)) as (packet & Heq & Ho & Hpl).
    dispatch_packet Heq Hpl Ho.
    unfold WebSocket.read, WebSocket.emit, WebSocket.log, WebSocket.put, WebSocket.get,
      mbind, WebSocket.M_bind.
    cbn. rewrite lookup_new_buffer. reflexivity.
  - intros E. destruct (Hv 0 E ltac:(lia)) as (packet & Heq & Ho & Hpl).
    dispatch_packet Heq Hpl Ho. reflexivity.
  - intros E.
    assert (o = 3 \/ o = 4 \/ o = 5 \/ o = 6 \/ o = 7
            \/ o = 11 \/ o = 12 \/ o = 13 \/ o = 14 \/ o = 15) as Hcases by lia.
    repeat (destruct Hcases as [Hc|Hcases]);
      [..|rename Hcases into Hc];
      match type of Hc with _ = ?v =>
        destruct (Hv v Hc ltac:(lia)) as (packet & Heq & Ho & Hpl)
      end;
      dispatch_packet Heq Hpl Ho; reflexivity.
Qed.

Lemma unanswered_frames_witness :
  WebSocket.socket_on_data [138; 1; 7] (fun _ => 0) open_connection
  = (WebSocket.set_trace [WebSocket.Emit (WebSocket.Pong (Some [7]))]
       (WebSocket.set_heap [[7]] open_connection), Ok tt).
Proof.
  apply (unanswered_frames 138 1 [] [] [7] [] (fun _ => 0) open_connection).
  - unfold legal. change (Z.land 138 15) with 10. change (Z.land 1 127) with 1.
    change (Z.land 138 128 =? 128) with true. intros _. split; [lia|reflexivity].
  - reflexivity.
  - reflexivity.
  - reflexivity.
  - constructor.
  - repeat constructor; unfold is_byte; lia.
  - reflexivity.
Defined.

(** X8.  A chunk that starts with a whole close frame (no payload, or a
    payload of two bytes or more).  The connection records the code of the
    frame (1006 when the frame has none or its code is 0) and the text of the
    bytes after the code ('Abnormal Closure' when there are none), destroys
    the socket, writes no close frame back and leaves [state] as it is; the
    'close' event of the socket that follows assigns CLOSED and emits 'close'
    with the code and the reason recorded. *)
Theorem close_frame_is_recorded_and_reported (b0 b1 : Z) (key body rest : Buffer)
    (random : Z -> Z) (w : WebSocket.WebSocket) :
  Z.land b0 15 = 8 -> (Z.land b0 128 =? 128) = true -> Z.land b1 127 <= 125 ->
  len key = key_size b1 -> len body = Z.land b1 127 ->
  bytes key -> bytes body -> len body <> 1 ->
  let p := wire_payload b1 key body in
  let sent := at_ p 0 * 256 + at_ p 1 in
  let code := if len body =? 0 then 1006 else if sent =? 0 then 1006 else sent in
  let reason := match drop 2 p with
                | [] => WebSocket.Str "Abnormal Closure"
                | _ :: _ => WebSocket.ToString (drop 2 p)
                end in
  exists w1 w2,
    WebSocket.socket_on_data (b0 :: b1 :: key ++ body ++ rest) random w = (w1, Ok tt)
    /\ WebSocket.state w1 = WebSocket.state w
    /\ WebSocket.closeCode w1 = code
    /\ WebSocket.closeReason w1 = reason
    /\ WebSocket.trace w1
       = WebSocket.trace w ++ (if WebSocket.socket w then [WebSocket.SocketDestroy] else [])
    /\ WebSocket.socket_on_close w1 = (w2, Ok tt)
    /\ WebSocket.state w2 = WebSocket.CLOSED
    /\ WebSocket.trace w2
       = WebSocket.trace w1
         ++ [WebSocket.SetState WebSocket.CLOSED; WebSocket.Emit (WebSocket.Close code reason)].
Proof.
  intros Hop Hfin Hlen Hkey Hbody Hbk Hbb Hne p sent code reason.
  assert (legal b0 b1) as Hlegal by (intros _; split; assumption).
  assert (ext_size b1 = 0) as Hes.
  { unfold ext_size. destruct (_ =? 126) eqn:?; [lia|]. destruct (_ =? 127) eqn:?; lia. }
  assert (forall ext, announced b1 ext = Z.land b1 127) as Han.
  { intros ext. unfold announced.
    destruct (_ =? 126) eqn:?; [lia|]. destruct (_ =? 127) eqn:?; lia. }
  assert (len (@nil Z) = ext_size b1) as Hext by (rewrite Hes; reflexivity).
  assert (len body = announced b1 []) as Hbody' by (rewrite Han; exact Hbody).
  assert (len p = len body) as Hlp.
  { unfold p, wire_payload. destruct (Z.land b1 128 =? 128); [apply len_xor_mask|reflexivity]. }
  pose proof (len_nonneg body) as Hb0.
  assert (forall (w1 : WebSocket.WebSocket) c r,
            WebSocket.closeCode w1 = c -> WebSocket.closeReason w1 = r ->
            exists w2,
              WebSocket.socket_on_close w1 = (w2, Ok tt)
              /\ WebSocket.state w2 = WebSocket.CLOSED
              /\ WebSocket.trace w2
                 = WebSocket.trace w1
                   ++ [WebSocket.SetState WebSocket.CLOSED;
                       WebSocket.Emit (WebSocket.Close c r)]) as Hclose.
  { intros w1 c r <- <-. unfold WebSocket.socket_on_close.
    rewrite WebSocketTheory.emit_close_run. eexists. repeat split; reflexivity. }
  assert (exists w1,
            WebSocket.socket_on_data (b0 :: b1 :: key ++ body ++ rest) random w = (w1, Ok tt)
            /\ WebSocket.state w1 = WebSocket.state w
            /\ WebSocket.closeCode w1 = code
            /\ WebSocket.closeReason w1 = reason
            /\ WebSocket.trace w1
               = WebSocket.trace w
                 ++ (if WebSocket.socket w then [WebSocket.SocketDestroy] else []))
    as (w1 & Hrun & Hs1 & Hc1 & Hr1 & Ht1).
  { destruct (Z.eq_dec (len body) 0) as [E0|E0].
    - destruct (whole_frame_data b0 b1 [] key body rest Hlegal Hext Hkey Hbody' Hbk Hbb
                  ltac:(right; rewrite Han; lia))
        as (packet & Heq & _ & _ & _ & Ho & _ & Hpl & Hcc).
      cbn [app] in Heq. fold p in Hpl. rewrite Hop in Ho.
      assert (p = []) as Hp by (apply len_0_nil; lia).
      assert (code = 1006) as -> by (unfold code; rewrite E0; reflexivity).
      assert (reason = WebSocket.Str "Abnormal Closure") as ->
          by (unfold reason; rewrite Hp; reflexivity).
      rewrite Hp in Hpl.
      dispatch_packet Heq Hpl Ho. rewrite Hcc.
      unfold WebSocket.socket_destroy, WebSocket.read, WebSocket.put, WebSocket.get,
        WebSocket.log, WebSocket.put, WebSocket.skip, mbind, WebSocket.M_bind, mret,
        WebSocket.M_ret.
      cbn. rewrite lookup_new_buffer. cbn.
      destruct (WebSocket.socket w); eexists; (split; [reflexivity|]); cbn;
        rewrite ?app_nil_r; repeat split; reflexivity.
    - destruct (whole_frame_close b0 b1 [] key body rest Hlegal Hext Hkey Hbody' Hbk Hbb Hop
                  ltac:(rewrite Han; lia))
        as (packet & Heq & _ & _ & _ & Ho & _ & Hpl & Hcc).
      cbn [app] in Heq. fold p in Hpl, Hcc. fold sent in Hcc.
      assert (code = if sent =? 0 then 1006 else sent) as ->.
      { unfold code. destruct (len body =? 0) eqn:?; [lia|reflexivity]. }
      dispatch_packet Heq Hpl Ho. rewrite Hcc.
      unfold WebSocket.socket_destroy, WebSocket.read, WebSocket.put, WebSocket.get,
        WebSocket.log, WebSocket.put, WebSocket.skip, mbind, WebSocket.M_bind, mret,
        WebSocket.M_ret.
      cbn -[drop]. rewrite lookup_new_buffer. cbn -[drop]. fold reason.
      destruct (WebSocket.socket w); eexists; (split; [reflexivity|]); cbn -[drop];
        rewrite ?app_nil_r; repeat split; try reflexivity;
        unfold reason; destruct (drop 2 p); reflexivity. }
  destruct (Hclose w1 code reason Hc1 Hr1) as (w2 & Hrun2 & Hs2 & Ht2).
  exists w1, w2. repeat split; assumption.
Qed.

Lemma close_frame_is_recorded_and_reported_witness :
  exists w1 w2,
    WebSocket.socket_on_data [136; 4; 3; 232; 111; 107] (fun _ => 0) open_connection
    = (w1, Ok tt)
    /\ WebSocket.state w1 = WebSocket.OPEN
    /\ WebSocket.closeCode w1 = 1000
    /\ WebSocket.closeReason w1 = WebSocket.ToString [111; 107]
    /\ WebSocket.trace w1 = [WebSocket.SocketDestroy]
    /\ WebSocket.socket_on_close w1 = (w2, Ok tt)
    /\ WebSocket.state w2 = WebSocket.CLOSED
    /\ WebSocket.trace w2
       = WebSocket.trace w1
         ++ [WebSocket.SetState WebSocket.CLOSED;
             WebSocket.Emit (WebSocket.Close 1000 (WebSocket.ToString [111; 107]))].
Proof.
  apply (close_frame_is_recorded_and_reported 136 4 [] [3; 232; 111; 107] []
           (fun _ => 0) open_connection).
  - reflexivity.
  - reflexivity.
  - vm_compute. discriminate.
  - reflexivity.
  - reflexivity.
  - constructor.
  - repeat constructor; unfold is_byte; lia.
  - vm_compute. discriminate.
Defined.

(** ** The frames that the connection writes *)

(** The masked frame with FIN set that the methods of the connection build:
    the payload object is masked in place, and the constructor reads the
    frame back. *)
Lemma masked_frame_decodes (opcode : Z) (r : nat) (random : Z -> Z) (h : list (list Z))
    (bytes0 : Buffer) :
  h !! r = Some bytes0 -> bytes bytes0 -> len bytes0 <= MAX_LENGTH ->
  0 <= opcode < 16 -> (8 <= opcode -> len bytes0 <= 125) ->
  exists encoded,
    Packet.frame opcode r true false true random h
    = Ok (encoded, <[r := xor_mask (key_of random) bytes0]> h)
    /\ (opcode <> 8 -> decoded (Packet.constructor encoded) true false opcode true bytes0 None)
    /\ (opcode = 8 -> 2 <= len bytes0 ->
        decoded (Packet.constructor encoded) true false 8 true (drop 2 bytes0)
                (Some (at_ bytes0 0 * 256 + at_ bytes0 1))).
Proof.
  intros Hh Hb Hmax Hop Hctl.
  pose proof (frame_shape opcode r true false true random h bytes0 Hh Hmax) as Hf.
  cbv zeta in Hf. cbv iota in Hf.
  destruct (masked_frame_read opcode random bytes0 Hb Hmax Hop Hctl)
    as (Hlegal & Hext & Hkey & Hbody & Hbk & Hbb & Hp & Ho & Hfin & Hrsv & Hmk & Han).
  rewrite xor_loop_mod_4 in * by (try apply key_of_bytes; assumption).
  eexists. split; [exact Hf|split].
  - intros Hne.
    pose proof (whole_frame_data _ _ _ _ _ [] Hlegal Hext Hkey Hbody Hbk Hbb
                  ltac:(left; rewrite Ho; exact Hne)) as Hd.
    rewrite app_nil_r, Hfin, Hrsv, Ho, Hmk, Hp in Hd. exact Hd.
  - intros -> Hlen.
    pose proof (whole_frame_close _ _ _ _ _ [] Hlegal Hext Hkey Hbody Hbk Hbb Ho
                  ltac:(rewrite Han; lia)) as Hd.
    rewrite app_nil_r, Hfin, Hrsv, Hmk, Hp in Hd. exact Hd.
Qed.

(** Building a frame and writing it. *)
Lemma frame_and_write_run (opcode : Z) (r : nat) (random : Z -> Z) (w : WebSocket.WebSocket)
    (encoded : Buffer) (h' : list (list Z)) :
  Packet.frame opcode r true false true random (WebSocket.heap w) = Ok (encoded, h') ->
  (packet ← WebSocket.Packet_frame opcode r true false true random;
   WebSocket.socket_write packet) w
  = (WebSocket.set_trace (WebSocket.trace w ++ written w encoded) (WebSocket.set_heap h' w),
     Ok tt).
Proof.
  intros Hf.
  unfold WebSocket.Packet_frame, WebSocket.socket_write, WebSocket.log, WebSocket.put,
    WebSocket.skip, WebSocket.get, mbind, WebSocket.M_bind, mret, WebSocket.M_ret, written.
  rewrite Hf. cbn [WebSocket.socket WebSocket.set_heap].
  destruct (WebSocket.socket w); cbn; rewrite ?app_nil_r; reflexivity.
Qed.

(** The payload object of a call: the caller's Buffer, or a new object for a
    string or a number. *)
Lemma payload_of_run (data : WebSocket.value) (w : WebSocket.WebSocket) (bytes0 : Buffer) :
  payload_bytes data w = Some bytes0 ->
  exists r w1,
    WebSocket.payload_of data w = (w1, Ok r)
    /\ WebSocket.heap w1 !! r = Some bytes0
    /\ w1 = match data with
            | WebSocket.Buf _ => w
            | _ => WebSocket.set_heap (WebSocket.heap w ++ [bytes0]) w
            end
    /\ (forall r0, data = WebSocket.Buf r0 -> r = r0).
Proof.
  intros Hd. destruct data as [|r0|s|digits]; cbn in Hd; try discriminate.
  - exists r0, w. repeat split; try assumption. intros ? [= <-]. reflexivity.
  - injection Hd as <-. eexists _, _. split; [reflexivity|]. cbn.
    split; [apply lookup_new_buffer|]. split; [reflexivity|]. discriminate.
  - injection Hd as <-. eexists _, _. split; [reflexivity|]. cbn.
    split; [apply lookup_new_buffer|]. split; [reflexivity|]. discriminate.
Qed.

(** [send] of a string or of a Buffer: the payload object, then the frame
    built and written. *)
Lemma send_run (data : WebSocket.value) (random : Z -> Z) (w : WebSocket.WebSocket)
    (bytes0 : Buffer) :
  WebSocket.state w <> WebSocket.CONNECTING ->
  (forall digits, data <> WebSocket.Number digits) ->
  payload_bytes data w = Some bytes0 ->
  exists r w1,
    WebSocket.heap w1 !! r = Some bytes0
    /\ w1 = match data with
            | WebSocket.Buf _ => w
            | _ => WebSocket.set_heap (WebSocket.heap w ++ [bytes0]) w
            end
    /\ (forall r0, data = WebSocket.Buf r0 -> r = r0)
    /\ WebSocket.send data random w
       = (packet ← WebSocket.Packet_frame (match data with WebSocket.Buf _ => 2 | _ => 1 end)
                     r true false true random;
          WebSocket.socket_write packet) w1.
Proof.
  intros Hst Hnum Hd.
  destruct (payload_of_run data w bytes0 Hd) as (r & w1 & Hpo & Hh1 & Hw1 & Hr).
  exists r, w1. split; [exact Hh1|]. split; [exact Hw1|]. split; [exact Hr|].
  unfold WebSocket.send. unfold mbind at 1. unfold WebSocket.M_bind at 1.
  unfold WebSocket.get at 1.
  destruct (WebSocket.state w =? WebSocket.CONNECTING) eqn:E;
    [apply Z.eqb_eq in E; contradiction|].
  unfold mbind at 1. unfold WebSocket.M_bind at 1.
  destruct data as [|r0|s|digits]; cbn in Hd; try discriminate.
  - cbn in Hpo. injection Hpo as <- <-. reflexivity.
  - change (WebSocket.new (utf8 s) w)
      with (WebSocket.payload_of (WebSocket.String_ s) w).
    rewrite Hpo. reflexivity.
  - exfalso. exact (Hnum digits eq_refl).
Qed.

(** X9.  [send] of a string or of a Buffer, on a connection that is not
    CONNECTING: one masked frame with FIN set is written, text (opcode 1)
    for a string and binary (opcode 2) for a Buffer, which the constructor
    reads back as the bytes given; the state is left as it is, so the call
    is not refused on a connection that is CLOSING or CLOSED; and the
    caller's Buffer holds the masked bytes afterwards. *)
Theorem send_writes_one_frame (data : WebSocket.value) (random : Z -> Z)
    (w : WebSocket.WebSocket) (bytes0 : Buffer) :
  WebSocket.state w <> WebSocket.CONNECTING ->
  (forall digits, data <> WebSocket.Number digits) ->
  payload_bytes data w = Some bytes0 -> bytes bytes0 -> len bytes0 <= MAX_LENGTH ->
  exists encoded w',
    WebSocket.send data random w = (w', Ok tt)
    /\ WebSocket.state w' = WebSocket.state w
    /\ WebSocket.trace w' = WebSocket.trace w ++ written w encoded
    /\ decoded (Packet.constructor encoded) true false
               (match data with WebSocket.Buf _ => 2 | _ => 1 end) true bytes0 None
    /\ (forall r, data = WebSocket.Buf r ->
        WebSocket.heap w' !! r = Some (xor_mask (key_of random) bytes0)).
Proof.
  intros Hst Hnum Hd Hb Hmax.
  set (opcode := match data with WebSocket.Buf _ => 2 | _ => 1 end).
  assert (0 <= opcode < 8 /\ opcode <> 8) as [Hop Hop8] by (unfold opcode; destruct data; lia).
  destruct (send_run data random w bytes0 Hst Hnum Hd) as (r & w1 & Hh1 & Hw1 & Hr & ->).
  fold opcode.
  destruct (masked_frame_decodes opcode r random (WebSocket.heap w1) bytes0 Hh1 Hb Hmax
              ltac:(lia) ltac:(lia)) as (encoded & Hf & Hdec & _).
  rewrite (frame_and_write_run _ _ _ _ _ _ Hf).
  eexists _, _. split; [reflexivity|].
  assert (WebSocket.state w1 = WebSocket.state w /\ WebSocket.trace w1 = WebSocket.trace w
          /\ WebSocket.socket w1 = WebSocket.socket w) as (Hs & Ht & Hk)
      by (rewrite Hw1; destruct data; repeat split; reflexivity).
  split; [exact Hs|]. split; [cbn; unfold written; rewrite Ht, Hk; reflexivity|].
  split; [exact (Hdec Hop8)|].
  intros r0 E. rewrite (Hr r0 E) in *. cbn.
  apply list_lookup_insert_eq. eapply lookup_lt_Some, Hh1.
Qed.

Lemma send_writes_one_frame_witness :
  exists encoded w',
    WebSocket.send (WebSocket.String_ "Hi") (fun _ => 7) open_connection = (w', Ok tt)
    /\ WebSocket.state w' = WebSocket.OPEN
    /\ WebSocket.trace w' = [WebSocket.SocketWrite encoded]
    /\ decoded (Packet.constructor encoded) true false 1 true [72; 105] None
    /\ (forall r, WebSocket.String_ "Hi" = WebSocket.Buf r ->
        WebSocket.heap w' !! r = Some (xor_mask (key_of (fun _ => 7)) [72; 105])).
Proof.
  apply (send_writes_one_frame (WebSocket.String_ "Hi") (fun _ => 7) open_connection [72; 105]).
  - discriminate.
  - discriminate.
  - reflexivity.
  - repeat constructor; unfold is_byte; lia.
  - vm_compute. discriminate.
Defined.

(** [ping] and [pong] differ in the opcode and in the text of the error. *)
Lemma ping_pong_run (data : WebSocket.value) (random : Z -> Z) (w : WebSocket.WebSocket)
    (bytes0 : Buffer) :
  WebSocket.state w <> WebSocket.CONNECTING ->
  payload_bytes data w = Some bytes0 ->
  exists r w1,
    WebSocket.heap w1 !! r = Some bytes0
    /\ w1 = match data with
            | WebSocket.Buf _ => w
            | _ => WebSocket.set_heap (WebSocket.heap w ++ [bytes0]) w
            end
    /\ (forall r0, data = WebSocket.Buf r0 -> r = r0)
    /\ WebSocket.ping data random w
       = (if 125 <? len bytes0
          then WebSocket.throw "payload for PING(0x09) is longer than 125 bytes."
          else packet ← WebSocket.Packet_frame 9 r true false true random;
               WebSocket.socket_write packet) w1
    /\ WebSocket.pong data random w
       = (if 125 <? len bytes0
          then WebSocket.throw "payload for PONG(0x0a) is longer than 125 bytes."
          else packet ← WebSocket.Packet_frame 10 r true false true random;
               WebSocket.socket_write packet) w1.
Proof.
  intros Hst Hd.
  destruct (payload_of_run data w bytes0 Hd) as (r & w1 & Hpo & Hh1 & Hw1 & Hr).
  exists r, w1. split; [exact Hh1|]. split; [exact Hw1|]. split; [exact Hr|].
  destruct (WebSocket.state w =? WebSocket.CONNECTING) eqn:E;
    [apply Z.eqb_eq in E; contradiction|].
  split; [unfold WebSocket.ping|unfold WebSocket.pong];
    unfold mbind at 1; unfold WebSocket.M_bind at 1; unfold WebSocket.get at 1;
    rewrite E;
    unfold mbind at 1; unfold WebSocket.M_bind at 1; rewrite Hpo;
    unfold mbind at 1; unfold WebSocket.M_bind at 1; unfold WebSocket.length_of;
    unfold WebSocket.get at 1; rewrite Hh1; reflexivity.
Qed.

(** X10.  [ping] and [pong] of a Buffer, a string or a number (sent as the
    text of the number) of at most 125 bytes, on a connection that is not
    CONNECTING: one masked frame with FIN set and opcode 9, or 10, is
    written, which the constructor reads back as the bytes given; the state
    is left as it is. *)
Theorem ping_and_pong_write_one_frame (data : WebSocket.value) (random : Z -> Z)
    (w : WebSocket.WebSocket) (bytes0 : Buffer) :
  WebSocket.state w <> WebSocket.CONNECTING ->
  payload_bytes data w = Some bytes0 -> bytes bytes0 -> len bytes0 <= 125 ->
  (exists encoded w',
     WebSocket.ping data random w = (w', Ok tt)
     /\ WebSocket.state w' = WebSocket.state w
     /\ WebSocket.trace w' = WebSocket.trace w ++ written w encoded
     /\ decoded (Packet.constructor encoded) true false 9 true bytes0 None)
  /\ (exists encoded w',
        WebSocket.pong data random w = (w', Ok tt)
        /\ WebSocket.state w' = WebSocket.state w
        /\ WebSocket.trace w' = WebSocket.trace w ++ written w encoded
        /\ decoded (Packet.constructor encoded) true false 10 true bytes0 None).
Proof.
  intros Hst Hd Hb Hlen.
  destruct (ping_pong_run data random w bytes0 Hst Hd) as (r & w1 & Hh1 & Hw1 & _ & Hpi & Hpo).
  destruct (125 <? len bytes0) eqn:E; [lia|].
  assert (WebSocket.state w1 = WebSocket.state w /\ WebSocket.trace w1 = WebSocket.trace w
          /\ WebSocket.socket w1 = WebSocket.socket w) as (Hs & Ht & Hk)
      by (rewrite Hw1; destruct data; repeat split; reflexivity).
  assert (len bytes0 <= MAX_LENGTH) as Hmax by (unfold MAX_LENGTH; lia).
  split.
  - destruct (masked_frame_decodes 9 r random (WebSocket.heap w1) bytes0 Hh1 Hb Hmax
                ltac:(lia) ltac:(lia)) as (encoded & Hf & Hdec & _).
    rewrite Hpi, (frame_and_write_run _ _ _ _ _ _ Hf).
    eexists _, _. split; [reflexivity|]. split; [exact Hs|].
    split; [cbn; unfold written; rewrite Ht, Hk; reflexivity|]. apply Hdec. lia.
  - destruct (masked_frame_decodes 10 r random (WebSocket.heap w1) bytes0 Hh1 Hb Hmax
                ltac:(lia) ltac:(lia)) as (encoded & Hf & Hdec & _).
    rewrite Hpo, (frame_and_write_run _ _ _ _ _ _ Hf).
    eexists _, _. split; [reflexivity|]. split; [exact Hs|].
    split; [cbn; unfold written; rewrite Ht, Hk; reflexivity|]. apply Hdec. lia.
Qed.

Lemma ping_and_pong_write_one_frame_witness :
  exists encoded w',
    WebSocket.ping (WebSocket.Number "42") (fun _ => 7) open_connection = (w', Ok tt)
    /\ WebSocket.state w' = WebSocket.OPEN
    /\ WebSocket.trace w' = [WebSocket.SocketWrite encoded]
    /\ decoded (Packet.constructor encoded) true false 9 true [52; 50] None.
Proof.
  apply (ping_and_pong_write_one_frame (WebSocket.Number "42") (fun _ => 7) open_connection
           [52; 50]).
  - discriminate.
  - reflexivity.
  - repeat constructor; unfold is_byte; lia.
  - vm_compute. discriminate.
Defined.

(** X11.  [ping] and [pong] of more than 125 bytes throw before anything is
    built: no step is taken, the state is as before, and a Buffer given by
    the caller is not masked (the connection is unchanged). *)
Theorem ping_and_pong_refuse_long_payloads (data : WebSocket.value) (random : Z -> Z)
    (w : WebSocket.WebSocket) (bytes0 : Buffer) :
  WebSocket.state w <> WebSocket.CONNECTING ->
  payload_bytes data w = Some bytes0 -> 125 < len bytes0 ->
  let after_ping := WebSocket.ping data random w in
  let after_pong := WebSocket.pong data random w in
  after_ping.2 = Throw "payload for PING(0x09) is longer than 125 bytes."
  /\ after_pong.2 = Throw "payload for PONG(0x0a) is longer than 125 bytes."
  /\ after_ping.1 = after_pong.1
  /\ WebSocket.trace after_ping.1 = WebSocket.trace w
  /\ WebSocket.state after_ping.1 = WebSocket.state w
  /\ (forall r, data = WebSocket.Buf r -> after_ping.1 = w).
Proof.
  intros Hst Hd Hlen after_ping after_pong.
  destruct (ping_pong_run data random w bytes0 Hst Hd) as (r & w1 & Hh1 & Hw1 & _ & Hpi & Hpo).
  destruct (125 <? len bytes0) eqn:E; [|lia].
  unfold after_ping, after_pong. rewrite Hpi, Hpo. cbn. rewrite Hw1.
  repeat split; try (destruct data; reflexivity).
  intros r0 ->. reflexivity.
Qed.

Lemma ping_and_pong_refuse_long_payloads_witness :
  let w := WebSocket.set_heap [replicate 126 0] open_connection in
  (WebSocket.ping (WebSocket.Buf 0) (fun _ => 7) w).2
  = Throw "payload for PING(0x09) is longer than 125 bytes."
  /\ (WebSocket.pong (WebSocket.Buf 0) (fun _ => 7) w).2
     = Throw "payload for PONG(0x0a) is longer than 125 bytes."
  /\ (WebSocket.ping (WebSocket.Buf 0) (fun _ => 7) w).1
     = (WebSocket.pong (WebSocket.Buf 0) (fun _ => 7) w).1
  /\ WebSocket.trace (WebSocket.ping (WebSocket.Buf 0) (fun _ => 7) w).1 = WebSocket.trace w
  /\ WebSocket.state (WebSocket.ping (WebSocket.Buf 0) (fun _ => 7) w).1 = WebSocket.state w
  /\ (forall r, WebSocket.Buf 0 = WebSocket.Buf r ->
      (WebSocket.ping (WebSocket.Buf 0) (fun _ => 7) w).1 = w).
Proof.
  apply (ping_and_pong_refuse_long_payloads (WebSocket.Buf 0) (fun _ => 7)
           (WebSocket.set_heap [replicate 126 0] open_connection) (replicate 126 0)).
  - discriminate.
  - reflexivity.
  - vm_compute. reflexivity.
Defined.

(** The frame is built and written, or [Packet.frame] throws. *)
Lemma frame_and_write_only_writes (opcode : Z) (r : nat) (random : Z -> Z)
    (w : WebSocket.WebSocket) (h : list (list Z)) :
  only_writes ((packet ← WebSocket.Packet_frame opcode r true false true random;
                WebSocket.socket_write packet) (WebSocket.set_heap h w)) w.
Proof.
  unfold WebSocket.Packet_frame, WebSocket.socket_write, WebSocket.log, WebSocket.put,
    WebSocket.skip, WebSocket.get, mbind, WebSocket.M_bind, mret, WebSocket.M_ret.
  destruct (Packet.frame opcode r true false true random
              (WebSocket.heap (WebSocket.set_heap h w))) as [[packet h']|msg|].
  - cbn [WebSocket.socket WebSocket.set_heap]. unfold only_writes, written.
    destruct (WebSocket.socket w) eqn:Es; cbn; rewrite ?Es;
      (do 5 (split; [reflexivity|])); exists packet; rewrite ?app_nil_r; reflexivity.
  - unfold only_writes. cbn. repeat split; reflexivity.
  - unfold only_writes. cbn. repeat split; reflexivity.
Qed.

Lemma set_heap_id (w : WebSocket.WebSocket) : WebSocket.set_heap (WebSocket.heap w) w = w.
Proof. destruct w; reflexivity. Qed.

Lemma only_writes_refl (msg : string) (w : WebSocket.WebSocket) :
  only_writes (w, Throw msg) w.
Proof. unfold only_writes. cbn. repeat split; reflexivity. Qed.

(** X12.  [send], [ping] and [pong] only write: for every argument and in
    every state, none of them assigns the state, the close code or the close
    reason, touches the request or emits an event, and the one step they
    take, when they return, is the write of one packet to the socket; a call
    that throws has written nothing.  While the connection is CONNECTING
    each throws its own error, whatever the argument; afterwards [send] of a
    number throws a TypeError (it hands the number to [Buffer.from], where
    [ping] and [pong] send its text), and so do the three of [undefined].
    The connection is as before in each of these cases. *)
Theorem send_ping_pong_only_write (data : WebSocket.value) (digits : string)
    (random : Z -> Z) (w : WebSocket.WebSocket) :
  (only_writes (WebSocket.send data random w) w
   /\ only_writes (WebSocket.ping data random w) w
   /\ only_writes (WebSocket.pong data random w) w)
  /\ (WebSocket.state w = WebSocket.CONNECTING ->
      WebSocket.send data random w = (w, Throw "send -> websocket is connecting.")
      /\ WebSocket.ping data random w = (w, Throw "ping -> websocket is connecting.")
      /\ WebSocket.pong data random w = (w, Throw "pong -> websocket is connecting."))
  /\ (WebSocket.state w <> WebSocket.CONNECTING ->
      WebSocket.send (WebSocket.Number digits) random w = (w, Throw "ERR_INVALID_ARG_TYPE")
      /\ WebSocket.send WebSocket.Undefined random w = (w, Throw "ERR_INVALID_ARG_TYPE")
      /\ WebSocket.ping WebSocket.Undefined random w = (w, Throw "ERR_INVALID_ARG_TYPE")
      /\ WebSocket.pong WebSocket.Undefined random w = (w, Throw "ERR_INVALID_ARG_TYPE")).
Proof.
  assert (forall opcode r,
            only_writes ((packet ← WebSocket.Packet_frame opcode r true false true random;
                          WebSocket.socket_write packet) w) w) as Hbuf.
  { intros opcode r. rewrite <- (set_heap_id w) at 1. apply frame_and_write_only_writes. }
  assert (forall msg b,
            only_writes (WebSocket.set_heap (WebSocket.heap w ++ [b]) w, Throw msg) w) as Hthrow.
  { intros msg b. unfold only_writes. cbn. repeat split; reflexivity. }
  split; [|split].
  - destruct (Z.eq_dec (WebSocket.state w) WebSocket.CONNECTING) as [E|E].
    + unfold WebSocket.send, WebSocket.ping, WebSocket.pong, WebSocket.get, mbind,
        WebSocket.M_bind. rewrite E. repeat split; apply only_writes_refl.
    + apply Z.eqb_neq in E.
      split; [|split];
        [unfold WebSocket.send|unfold WebSocket.ping|unfold WebSocket.pong];
        unfold mbind at 1; unfold WebSocket.M_bind at 1; unfold WebSocket.get at 1;
        rewrite E; unfold mbind at 1; unfold WebSocket.M_bind at 1;
        destruct data as [|r|s|d]; cbn [WebSocket.payload_of];
        unfold mret, WebSocket.M_ret, WebSocket.new, new_buffer, WebSocket.length_of;
        try apply only_writes_refl; try apply Hbuf;
        try apply frame_and_write_only_writes;
        unfold mbind at 1; unfold WebSocket.M_bind at 1; unfold WebSocket.get at 1;
        (destruct (125 <? _);
         [first [apply only_writes_refl|apply Hthrow]
         |first [apply Hbuf|apply frame_and_write_only_writes]]).
  - unfold WebSocket.send, WebSocket.ping, WebSocket.pong, WebSocket.get, mbind,
      WebSocket.M_bind.
    intros ->. repeat split; reflexivity.
  - unfold WebSocket.send, WebSocket.ping, WebSocket.pong, WebSocket.get, mbind,
      WebSocket.M_bind.
    intros Hst.
    destruct (WebSocket.state w =? WebSocket.CONNECTING) eqn:E;
      [apply Z.eqb_eq in E; contradiction|].
    repeat split; reflexivity.
Qed.

(** ** Ping and pong *)

(** X13.  A whole ping frame is answered at once with a pong that carries
    the payload of the ping: on a connection that is not CONNECTING, the one
    frame written is a masked pong frame (opcode 10, FIN set) which the
    constructor reads back as the payload received; the state is left as it
    is. *)
Theorem ping_is_answered_with_its_payload (b0 b1 : Z) (key body rest : Buffer)
    (random : Z -> Z) (w : WebSocket.WebSocket) :
  Z.land b0 15 = 9 -> (Z.land b0 128 =? 128) = true -> Z.land b1 127 <= 125 ->
  len key = key_size b1 -> len body = Z.land b1 127 ->
  bytes key -> bytes body ->
  WebSocket.state w <> WebSocket.CONNECTING ->
  let p := wire_payload b1 key body in
  exists encoded w',
    WebSocket.socket_on_data (b0 :: b1 :: key ++ body ++ rest) random w = (w', Ok tt)
    /\ WebSocket.state w' = WebSocket.state w
    /\ WebSocket.trace w'
       = WebSocket.trace w ++ written w encoded
         ++ [WebSocket.Emit (WebSocket.Ping (Some (xor_mask (key_of random) p)))]
    /\ decoded (Packet.constructor encoded) true false 10 true p None.
Proof.
  intros Hop Hfin Hlen Hkey Hbody Hbk Hbb Hst p.
  assert (legal b0 b1) as Hlegal by (intros _; split; assumption).
  assert (ext_size b1 = 0) as Hes.
  { unfold ext_size. destruct (_ =? 126) eqn:?; [lia|]. destruct (_ =? 127) eqn:?; lia. }
  assert (forall ext, announced b1 ext = Z.land b1 127) as Han.
  { intros ext. unfold announced.
    destruct (_ =? 126) eqn:?; [lia|]. destruct (_ =? 127) eqn:?; lia. }
  assert (len (@nil Z) = ext_size b1) as Hext by (rewrite Hes; reflexivity).
  assert (len body = announced b1 []) as Hbody' by (rewrite Han; exact Hbody).
  destruct (whole_frame_data b0 b1 [] key body rest Hlegal Hext Hkey Hbody' Hbk Hbb
              ltac:(left; lia))
    as (packet & Heq & _ & _ & _ & Ho & _ & Hpl & _).
  cbn [app] in Heq. fold p in Hpl. rewrite Hop in Ho.
  assert (bytes p) as Hbp.
  { unfold p, wire_payload. destruct (Z.land b1 128 =? 128); [|exact Hbb].
    apply xor_mask_bytes; assumption. }
  assert (len p <= 125) as Hlp.
  { unfold p, wire_payload. destruct (Z.land b1 128 =? 128); rewrite ?len_xor_mask; lia. }
  set (r := length (WebSocket.heap w)).
  set (w1 := WebSocket.set_heap (WebSocket.heap w ++ [p]) w).
  assert (WebSocket.heap w1 !! r = Some p) as Hh1 by apply lookup_new_buffer.
  destruct (masked_frame_decodes 10 r random (WebSocket.heap w1) p Hh1 Hbp
              ltac:(unfold MAX_LENGTH; lia) ltac:(lia) ltac:(lia)) as (encoded & Hf & Hdec & _).
  destruct (ping_pong_run (WebSocket.Buf r) random w1 p Hst Hh1)
    as (r' & w1' & _ & -> & Hr & _ & Hpong).
  rewrite (Hr r eq_refl) in Hpong. clear Hr r'.
  destruct (125 <? len p) eqn:E; [lia|].
  rewrite (frame_and_write_run _ _ _ _ _ _ Hf) in Hpong.
  dispatch_packet Heq Hpl Ho. fold r w1.
  unfold mbind at 1. unfold WebSocket.M_bind at 1. rewrite Hpong.
  unfold WebSocket.read, WebSocket.emit, WebSocket.log, WebSocket.put, WebSocket.get,
    mbind, WebSocket.M_bind.
  exists encoded. eexists. split; [reflexivity|].
  cbn [WebSocket.state WebSocket.trace WebSocket.set_trace WebSocket.set_heap
       WebSocket.heap fst option_bind mbind].
  split; [reflexivity|]. split; [|apply Hdec; lia].
  cbn. rewrite list_lookup_insert_eq by (rewrite length_app; cbn; lia).
  rewrite <- app_assoc. reflexivity.
Qed.

Lemma ping_is_answered_with_its_payload_witness :
  exists encoded w',
    WebSocket.socket_on_data [137; 2; 72; 105] (fun _ => 0) open_connection = (w', Ok tt)
    /\ WebSocket.state w' = WebSocket.OPEN
    /\ WebSocket.trace w'
       = WebSocket.trace open_connection ++ written open_connection encoded
         ++ [WebSocket.Emit
               (WebSocket.Ping (Some (xor_mask (key_of (fun _ => 0)) [72; 105])))]
    /\ decoded (Packet.constructor encoded) true false 10 true [72; 105] None.
Proof.
  apply (ping_is_answered_with_its_payload 137 2 [] [72; 105] [] (fun _ => 0)
           open_connection).
  - reflexivity.
  - reflexivity.
  - vm_compute. discriminate.
  - reflexivity.
  - reflexivity.
  - constructor.
  - repeat constructor; unfold is_byte; lia.
  - discriminate.
Defined.

(** ** close(), from the call to the 'close' event *)

(** [close] on an open connection, up to the frame: CLOSING is assigned, the
    payload is built as a new object, and the code and the reason are
    recorded. *)
Lemma close_run (code : Z) (reason : string) (random : Z -> Z) (w : WebSocket.WebSocket) :
  WebSocket.state w = WebSocket.OPEN -> len (utf8 reason) <= 123 -> 0 <= code < 2 ^ 16 ->
  let payload := to_u8 (code / 2 ^ 8) :: to_u8 code :: utf8 reason in
  let w0 := WebSocket.set_closeReason (WebSocket.Str reason)
              (WebSocket.set_closeCode code
                 (WebSocket.set_heap (WebSocket.heap w ++ [payload])
                    (WebSocket.set_trace
                       (WebSocket.trace w ++ [WebSocket.SetState WebSocket.CLOSING])
                       (WebSocket.set_state WebSocket.CLOSING w)))) in
  WebSocket.close code reason random w
  = (packet ← WebSocket.Packet_frame 8 (length (WebSocket.heap w)) true false true random;
     WebSocket.socket_write packet) w0
  /\ exists encoded,
       Packet.frame 8 (length (WebSocket.heap w)) true false true random (WebSocket.heap w0)
       = Ok (encoded,
             <[length (WebSocket.heap w) := xor_mask (key_of random) payload]>
               (WebSocket.heap w0))
       /\ decoded (Packet.constructor encoded) true false 8 true (utf8 reason) (Some code).
Proof.
  intros Hst Hlen Hcode payload w0.
  destruct (close_payload code reason Hcode) as (bytes0 & Hw & Hp). fold payload in Hp.
  assert (bytes payload) as Hb.
  { unfold payload. repeat constructor; try apply to_u8_byte. apply utf8_bytes. }
  pose proof (len_nonneg (utf8 reason)) as Hr0.
  assert (len payload = 2 + len (utf8 reason)) as Hlp
      by (unfold payload; rewrite !len_cons; lia).
  split.
  - unfold WebSocket.close. unfold mbind at 1. unfold WebSocket.M_bind at 1.
    unfold WebSocket.get at 1. rewrite Hst.
    cbn [Z.eqb WebSocket.OPEN WebSocket.CLOSED WebSocket.CONNECTING WebSocket.CLOSING Pos.eqb].
    destruct (123 <? len (utf8 reason)) eqn:E; [lia|].
    unfold WebSocket.assign_state, WebSocket.log, WebSocket.put, WebSocket.lift,
      WebSocket.new, new_buffer.
    unfold mbind at 1 2 3 4 5 6. unfold WebSocket.M_bind at 1 2 3 4 5 6.
    rewrite Hw. cbv beta iota. rewrite Hp. reflexivity.
  - destruct (masked_frame_decodes 8 (length (WebSocket.heap w)) random (WebSocket.heap w0)
                payload (lookup_new_buffer _ _) Hb ltac:(unfold MAX_LENGTH; lia)
                ltac:(lia) ltac:(lia)) as (encoded & Hf & _ & Hdec).
    specialize (Hdec eq_refl ltac:(lia)).
    assert (at_ payload 0 * 256 + at_ payload 1 = code) as Hcode'.
    { change (at_ payload 0) with (to_u8 (code / 2 ^ 8)).
      change (at_ payload 1) with (to_u8 code).
      pose proof (be_u16 code Hcode) as Hbe. unfold be in Hbe. cbn [fold_left] in Hbe. lia. }
    rewrite Hcode' in Hdec. change (drop 2 payload) with (utf8 reason) in Hdec.
    exists encoded. split; assumption.
Qed.

(** X14.  [close(code, reason)] on an open connection, with a code of 16 bits
    and a reason of at most 123 bytes: CLOSING is assigned and one masked
    close frame is written, which the constructor reads back with
    [close_code = code] and the bytes of the reason as payload; when the
    socket closes afterwards, CLOSED is assigned and 'close' is emitted with
    the code and the reason of the call. *)
Theorem close_sends_code_and_reason (code : Z) (reason : string) (random : Z -> Z)
    (w : WebSocket.WebSocket) :
  WebSocket.state w = WebSocket.OPEN -> len (utf8 reason) <= 123 -> 0 <= code < 2 ^ 16 ->
  exists encoded w1 w2,
    WebSocket.close code reason random w = (w1, Ok tt)
    /\ WebSocket.state w1 = WebSocket.CLOSING
    /\ WebSocket.trace w1
       = WebSocket.trace w ++ WebSocket.SetState WebSocket.CLOSING :: written w encoded
    /\ decoded (Packet.constructor encoded) true false 8 true (utf8 reason) (Some code)
    /\ WebSocket.socket_on_close w1 = (w2, Ok tt)
    /\ WebSocket.state w2 = WebSocket.CLOSED
    /\ WebSocket.trace w2
       = WebSocket.trace w1
         ++ [WebSocket.SetState WebSocket.CLOSED;
             WebSocket.Emit (WebSocket.Close code (WebSocket.Str reason))].
Proof.
  intros Hst Hlen Hcode.
  destruct (close_run code reason random w Hst Hlen Hcode) as (-> & encoded & Hf & Hdec).
  rewrite (frame_and_write_run _ _ _ _ _ _ Hf).
  eexists encoded, _, _. split; [reflexivity|]. split; [reflexivity|].
  split; [cbn; rewrite <- app_assoc; reflexivity|]. split; [exact Hdec|].
  split; [unfold WebSocket.socket_on_close; apply WebSocketTheory.emit_close_run|].
  split; reflexivity.
Qed.

Lemma close_sends_code_and_reason_witness :
  exists encoded w1 w2,
    WebSocket.close 1000 "bye" (fun _ => 7) open_connection = (w1, Ok tt)
    /\ WebSocket.state w1 = WebSocket.CLOSING
    /\ WebSocket.trace w1
       = WebSocket.trace open_connection
         ++ WebSocket.SetState WebSocket.CLOSING :: written open_connection encoded
    /\ decoded (Packet.constructor encoded) true false 8 true (utf8 "bye") (Some 1000)
    /\ WebSocket.socket_on_close w1 = (w2, Ok tt)
    /\ WebSocket.state w2 = WebSocket.CLOSED
    /\ WebSocket.trace w2
       = WebSocket.trace w1
         ++ [WebSocket.SetState WebSocket.CLOSED;
             WebSocket.Emit (WebSocket.Close 1000 (WebSocket.Str "bye"))].
Proof.
  apply (close_sends_code_and_reason 1000 "bye" (fun _ => 7) open_connection).
  - reflexivity.
  - vm_compute. discriminate.
  - split; [lia|reflexivity].
Defined.

(** X15.  [close] on an open connection with a code that does not fit 16
    bits: [writeUInt16BE] throws a RangeError after CLOSING was assigned;
    nothing is written and the code and the reason are not recorded. *)
Theorem close_with_code_out_of_range (code : Z) (reason : string) (random : Z -> Z)
    (w : WebSocket.WebSocket) :
  WebSocket.state w = WebSocket.OPEN -> len (utf8 reason) <= 123 ->
  code < 0 \/ 2 ^ 16 <= code ->
  WebSocket.close code reason random w
  = (WebSocket.set_trace (WebSocket.trace w ++ [WebSocket.SetState WebSocket.CLOSING])
       (WebSocket.set_state WebSocket.CLOSING w),
     Throw "ERR_OUT_OF_RANGE").
Proof.
  intros Hst Hlen Hcode.
  unfold WebSocket.close. unfold mbind at 1. unfold WebSocket.M_bind at 1.
  unfold WebSocket.get at 1. rewrite Hst.
  cbn [Z.eqb WebSocket.OPEN WebSocket.CLOSED WebSocket.CONNECTING WebSocket.CLOSING Pos.eqb].
  destruct (123 <? len (utf8 reason)) eqn:E; [lia|].
  assert (writeUInt16BE (alloc (2 + len (utf8 reason))) code 0 = Throw "ERR_OUT_OF_RANGE") as Hw.
  { unfold writeUInt16BE.
    destruct (0 <=? code) eqn:E0; [|reflexivity].
    destruct (code <? 2 ^ 16) eqn:E1; [|reflexivity]. lia. }
  unfold WebSocket.assign_state, WebSocket.log, WebSocket.put, WebSocket.lift.
  unfold mbind at 1 2 3. unfold WebSocket.M_bind at 1 2 3. rewrite Hw. reflexivity.
Qed.

Lemma close_with_code_out_of_range_witness :
  WebSocket.close 65536 "" (fun _ => 7) open_connection
  = (WebSocket.set_trace [WebSocket.SetState WebSocket.CLOSING]
       (WebSocket.set_state WebSocket.CLOSING open_connection),
     Throw "ERR_OUT_OF_RANGE").
Proof.
  apply (close_with_code_out_of_range 65536 "" (fun _ => 7) open_connection).
  - reflexivity.
  - vm_compute. discriminate.
  - right. reflexivity.
Defined.

(** X16.  [close] before and after the connection is open.  While
    CONNECTING it fails the handshake: the request is destroyed, CLOSING is
    assigned and 'error' is emitted; with a listener for 'error' attached,
    CLOSED is assigned and 'close' is emitted next, and without one the
    error is thrown out of [close], the state stays CLOSING and no 'close'
    is emitted.  No frame is built, and the code and the reason of the call
    are dropped.  While CLOSING, [close] only ends the socket. *)
Theorem close_outside_open (code : Z) (reason : string) (random : Z -> Z)
    (w : WebSocket.WebSocket) :
  let description := "websocket was closed before the connection was established."%string in
  (WebSocket.state w = WebSocket.CONNECTING ->
   WebSocket.close code reason random w
   = if WebSocket.error_listener w
     then (WebSocket.set_trace
             (WebSocket.trace w
              ++ [WebSocket.ReqDestroy; WebSocket.SetState WebSocket.CLOSING;
                  WebSocket.Emit (WebSocket.Error description);
                  WebSocket.SetState WebSocket.CLOSED;
                  WebSocket.Emit (WebSocket.Close (WebSocket.closeCode w)
                                                  (WebSocket.closeReason w))])
             (WebSocket.set_state WebSocket.CLOSED (WebSocket.set_req_destroyed true w)),
           Ok tt)
     else (WebSocket.set_trace
             (WebSocket.trace w
              ++ [WebSocket.ReqDestroy; WebSocket.SetState WebSocket.CLOSING;
                  WebSocket.Emit (WebSocket.Error description)])
             (WebSocket.set_state WebSocket.CLOSING (WebSocket.set_req_destroyed true w)),
           Throw description))
  /\ (WebSocket.state w = WebSocket.CLOSING ->
      WebSocket.close code reason random w
      = (if WebSocket.socket w
         then WebSocket.set_trace (WebSocket.trace w ++ [WebSocket.SocketEnd]) w
         else w, Ok tt)).
Proof.
  intros description.
  split; intros Hst; unfold WebSocket.close; unfold mbind at 1;
    unfold WebSocket.M_bind at 1; unfold WebSocket.get at 1; rewrite Hst;
    cbn [Z.eqb WebSocket.OPEN WebSocket.CLOSED WebSocket.CONNECTING WebSocket.CLOSING Pos.eqb].
  - apply WebSocketTheory.handshake_failed_run.
  - unfold WebSocket.socket_end, WebSocket.get, WebSocket.log, WebSocket.put, WebSocket.skip,
      mbind, WebSocket.M_bind, mret, WebSocket.M_ret.
    destruct (WebSocket.socket w); reflexivity.
Qed.

(** ** The handshake *)

(** X17.  However the handshake of a new connection fails (a plain HTTP
    response, which is first emitted as 'http-response'; an error of the
    request; a timeout, when a handshake timeout other than 0 was asked for;
    [close] by the owner) the request is destroyed, CLOSING is assigned and
    'error' is emitted.  When the owner has attached a listener for 'error',
    CLOSED is assigned and 'close' follows with the code 1006 and an empty
    reason; when not, the error is thrown out of the listener or of
    [close], the state stays CLOSING and no 'close' is emitted.  Without a
    handshake timeout a 'timeout' event does nothing, and after any failure
    an 'error' event of the request is dropped. *)
Theorem handshake_failures_are_reported (address : URL.URL)
    (protocols : WebSocket.protocols_arg) (options : option WebSocket.SocketOption)
    (nonce : string) (client : Client.ClientRequestArgs) (w0 : WebSocket.WebSocket)
    (response : WebSocket.IncomingMessage) (error : string) (code : Z) (reason : string)
    (random : Z -> Z) :
  WebSocket.constructor address protocols options nonce = Ok (client, w0) ->
  let failure := fun (m : WebSocket.M unit) before description =>
    handshake_reported (m (WebSocket.on_error w0).1) before description
    /\ handshake_thrown (m w0) before description in
  failure (WebSocket.req_on_response response)
    [WebSocket.Emit (WebSocket.HttpResponse response)]
    ("unexpected server response: " +:+ WebSocket.statusCode response
     +:+ "-" +:+ WebSocket.statusMessage response)
  /\ failure (WebSocket.req_on_error error) [] error
  /\ failure (WebSocket.close code reason random) []
       "websocket was closed before the connection was established."
  /\ match Client.timeout client with
     | Some ms =>
       if ms =? 0 then WebSocket.req_on_timeout w0 = (w0, Ok tt)
       else failure WebSocket.req_on_timeout [] "opening handshake has timed out."
     | None => WebSocket.req_on_timeout w0 = (w0, Ok tt)
     end
  /\ (forall r before description later,
        handshake_reported r before description \/ handshake_thrown r before description ->
        WebSocket.req_on_error later r.1 = (r.1, Ok tt)).
Proof.
  intros Hc failure.
  destruct (constructor_connection _ _ _ _ _ _ Hc) as (_ & Hst & Hcc & Hcr & Ht & _).
  destruct (constructor_untouched _ _ _ _ _ _ Hc) as (Hl & Hrd & Hso & Hto).
  assert (forall description before (w : WebSocket.WebSocket),
            WebSocket.closeCode w = 1006 -> WebSocket.closeReason w = WebSocket.Str "" ->
            WebSocket.socket w = false -> WebSocket.trace w = before ->
            (WebSocket.error_listener w = true ->
             handshake_reported (WebSocket.handshake_failed description w) before description)
            /\ (WebSocket.error_listener w = false ->
                handshake_thrown (WebSocket.handshake_failed description w) before description))
    as Hfail.
  { intros description before w H1 H2 H3 H4.
    rewrite WebSocketTheory.handshake_failed_run.
    split; intros ->; unfold handshake_reported, handshake_thrown; cbn;
      rewrite ?H1, ?H2, ?H3, H4; repeat split; reflexivity. }
  (* the failures on a connection that agrees with the new one on all but
     the listener for 'error' *)
  assert (forall w : WebSocket.WebSocket,
            WebSocket.state w = WebSocket.CONNECTING -> WebSocket.closeCode w = 1006 ->
            WebSocket.closeReason w = WebSocket.Str "" -> WebSocket.trace w = [] ->
            WebSocket.socket w = false -> WebSocket.req_destroyed w = false ->
            WebSocket.timeout w = Client.timeout client ->
            let outcome := fun r before description =>
              if WebSocket.error_listener w then handshake_reported r before description
              else handshake_thrown r before description in
            outcome (WebSocket.req_on_response response w)
              [WebSocket.Emit (WebSocket.HttpResponse response)]
              ("unexpected server response: " +:+ WebSocket.statusCode response
               +:+ "-" +:+ WebSocket.statusMessage response)
            /\ outcome (WebSocket.req_on_error error w) [] error
            /\ outcome (WebSocket.close code reason random w) []
                 "websocket was closed before the connection was established."
            /\ (forall ms, Client.timeout client = Some ms -> (ms =? 0) = false ->
                  outcome (WebSocket.req_on_timeout w) [] "opening handshake has timed out."))
    as Hany.
  { intros w H1 H2 H3 H4 H5 H6 H7 outcome. unfold outcome.
    assert (forall description,
              if WebSocket.error_listener w
              then handshake_reported (WebSocket.handshake_failed description w) [] description
              else handshake_thrown (WebSocket.handshake_failed description w) [] description)
      as Hw.
    { intros description. destruct (Hfail description [] w H2 H3 H5 H4) as [Hr Hth].
      destruct (WebSocket.error_listener w); [apply Hr|apply Hth]; reflexivity. }
    split; [|split; [|split]].
    - destruct (Hfail ("unexpected server response: " +:+ WebSocket.statusCode response
                       +:+ "-" +:+ WebSocket.statusMessage response)
                  [WebSocket.Emit (WebSocket.HttpResponse response)]
                  (WebSocket.set_trace
                     (WebSocket.trace w ++ [WebSocket.Emit (WebSocket.HttpResponse response)]) w)
                  H2 H3 H5 ltac:(cbn; rewrite H4; reflexivity)) as [Hr Hth].
      change (WebSocket.error_listener (WebSocket.set_trace _ w))
        with (WebSocket.error_listener w) in Hr, Hth.
      destruct (WebSocket.error_listener w); [apply Hr|apply Hth]; reflexivity.
    - unfold WebSocket.req_on_error, WebSocket.get, mbind, WebSocket.M_bind. rewrite H6.
      apply Hw.
    - assert (WebSocket.close code reason random w
              = WebSocket.handshake_failed
                  "websocket was closed before the connection was established." w) as ->.
      { unfold WebSocket.close, WebSocket.get. unfold mbind at 1. unfold WebSocket.M_bind at 1.
        rewrite H1. reflexivity. }
      apply Hw.
    - intros ms Hms Hz.
      unfold WebSocket.req_on_timeout, WebSocket.get, mbind, WebSocket.M_bind.
      rewrite H7, Hms, Hz. apply Hw. }
  pose proof (Hany w0 Hst Hcc Hcr Ht Hso Hrd Hto) as Hw0. rewrite Hl in Hw0.
  pose proof (Hany (WebSocket.on_error w0).1 Hst Hcc Hcr Ht Hso Hrd Hto) as Hw.
  change (WebSocket.error_listener (WebSocket.on_error w0).1) with true in Hw.
  cbv zeta in Hw0, Hw.
  destruct Hw0 as (A0 & B0 & C0 & D0). destruct Hw as (A & B & C & D).
  unfold failure.
  split; [|split; [|split; [|split]]].
  - split; assumption.
  - split; assumption.
  - split; assumption.
  - destruct (Client.timeout client) as [ms|] eqn:Hms.
    + destruct (ms =? 0) eqn:Hz.
      * unfold WebSocket.req_on_timeout, WebSocket.get, mbind, WebSocket.M_bind.
        rewrite Hto, Hz. reflexivity.
      * split; [exact (D ms eq_refl Hz)|exact (D0 ms eq_refl Hz)].
    + unfold WebSocket.req_on_timeout, WebSocket.get, mbind, WebSocket.M_bind.
      rewrite Hto. reflexivity.
  - intros r before description later Hr.
    assert (WebSocket.req_destroyed r.1 = true) as Hd
        by (destruct Hr as [(_ & _ & Hd & _)|(_ & _ & Hd & _)]; exact Hd).
    unfold WebSocket.req_on_error, WebSocket.get, mbind, WebSocket.M_bind.
    rewrite Hd. reflexivity.
Qed.

Lemma handshake_failures_are_reported_witness :
  let address := URL.mk "ws:" "" "" "example.org" "" "/" "" in
  let response := WebSocket.mkResponse "404" "Not Found" None None in
  exists client w,
    WebSocket.constructor address WebSocket.NoProtocols None "bm9uY2U=" = Ok (client, w)
    /\ handshake_reported (WebSocket.req_on_response response (WebSocket.on_error w).1)
         [WebSocket.Emit (WebSocket.HttpResponse response)]
         "unexpected server response: 404-Not Found"
    /\ handshake_thrown (WebSocket.req_on_response response w)
         [WebSocket.Emit (WebSocket.HttpResponse response)]
         "unexpected server response: 404-Not Found".
Proof.
  cbv zeta. eexists _, _. split; [vm_compute; reflexivity|].
  refine (proj1 (handshake_failures_are_reported
                   (URL.mk "ws:" "" "" "example.org" "" "/" "")
                   WebSocket.NoProtocols None "bm9uY2U=" _ _
                   (WebSocket.mkResponse "404" "Not Found" None None)
                   "" 1000 "" (fun _ => 0) _)).
  vm_compute. reflexivity.
Defined.

Section Upgrade.

Variable sha1_base64 : string -> string.

(** X18.  An 'upgrade' whose [Sec-WebSocket-Accept] is missing or is not the
    digest of the nonce fails the handshake, whatever subprotocol the server
    names: 'upgrade' is emitted, the request is destroyed, CLOSING is
    assigned and 'error' is emitted; the socket is not adopted and [head] is
    dropped.  With a listener for 'error' attached, CLOSED is assigned and
    'close' is emitted next; without one the error is thrown out of the
    listener of 'upgrade', the state stays CLOSING and no 'close' is
    emitted. *)
Theorem upgrade_with_wrong_accept_fails (w : WebSocket.WebSocket)
    (response : WebSocket.IncomingMessage) (head : Buffer) :
  WebSocket.sec_websocket_accept response
  <> Some (sha1_base64 (WebSocket.nonce w +:+ "258EAFA5-E914-47DA-95CA-C5AB0DC85B11")) ->
  WebSocket.req_on_upgrade sha1_base64 response head w
  = if WebSocket.error_listener w
    then (WebSocket.set_trace
            (WebSocket.trace w
             ++ [WebSocket.Emit (WebSocket.Upgrade response); WebSocket.ReqDestroy;
                 WebSocket.SetState WebSocket.CLOSING;
                 WebSocket.Emit (WebSocket.Error "sec-websocket-accept header is not valid.");
                 WebSocket.SetState WebSocket.CLOSED;
                 WebSocket.Emit (WebSocket.Close (WebSocket.closeCode w)
                                                 (WebSocket.closeReason w))])
            (WebSocket.set_state WebSocket.CLOSED (WebSocket.set_req_destroyed true w)),
          Ok tt)
    else (WebSocket.set_trace
            (WebSocket.trace w
             ++ [WebSocket.Emit (WebSocket.Upgrade response); WebSocket.ReqDestroy;
                 WebSocket.SetState WebSocket.CLOSING;
                 WebSocket.Emit (WebSocket.Error "sec-websocket-accept header is not valid.")])
            (WebSocket.set_state WebSocket.CLOSING (WebSocket.set_req_destroyed true w)),
          Throw "sec-websocket-accept header is not valid.").
Proof.
  intros Hacc.
  unfold WebSocket.req_on_upgrade, WebSocket.emit, WebSocket.log, WebSocket.put,
    WebSocket.get, mbind, WebSocket.M_bind. cbv beta iota.
  cbn [WebSocket.nonce WebSocket.set_trace].
  destruct (decide _) as [E|_]; [contradiction|].
  rewrite WebSocketTheory.handshake_failed_run. cbn.
  destruct (WebSocket.error_listener w); rewrite <- app_assoc; reflexivity.
Qed.

(** An 'upgrade' with the right [Sec-WebSocket-Accept] and an accepted
    reply (no subprotocol, or an empty one, when none was asked for; one of
    those asked for otherwise) opens the connection: after 'upgrade', a
    [head] that is not empty is put back on the socket before the socket is
    adopted, then OPEN is assigned and 'open' is emitted.  The listener does
    not look at the state the connection was in. *)
Lemma upgrade_accepted_run (w : WebSocket.WebSocket)
    (response : WebSocket.IncomingMessage) (head : Buffer) :
  WebSocket.sec_websocket_accept response
  = Some (sha1_base64 (WebSocket.nonce w +:+ "258EAFA5-E914-47DA-95CA-C5AB0DC85B11")) ->
  reply_accepted w response ->
  WebSocket.req_on_upgrade sha1_base64 response head w
  = (WebSocket.set_trace
       (WebSocket.trace w
        ++ WebSocket.Emit (WebSocket.Upgrade response)
           :: (if 0 <? len head then [WebSocket.SocketUnshift head] else [])
           ++ [WebSocket.SetState WebSocket.OPEN; WebSocket.Emit WebSocket.Open])
       (WebSocket.set_state WebSocket.OPEN (WebSocket.set_socket_field true w)),
     Ok tt).
Proof.
  intros Hacc Hreply.
  assert (forall w0 : WebSocket.WebSocket,
            WebSocket.set_socket head w0
            = (WebSocket.set_trace
                 (WebSocket.trace w0
                  ++ (if 0 <? len head then [WebSocket.SocketUnshift head] else [])
                  ++ [WebSocket.SetState WebSocket.OPEN; WebSocket.Emit WebSocket.Open])
                 (WebSocket.set_state WebSocket.OPEN (WebSocket.set_socket_field true w0)),
               Ok tt)) as Hset.
  { intros w0. unfold WebSocket.set_socket, WebSocket.assign_state, WebSocket.emit,
      WebSocket.log, WebSocket.put, WebSocket.skip, mbind, WebSocket.M_bind, mret,
      WebSocket.M_ret.
    destruct (0 <? len head); cbn; rewrite <- ?app_assoc; reflexivity. }
  unfold WebSocket.req_on_upgrade, WebSocket.emit, WebSocket.log, WebSocket.put,
    WebSocket.get, mbind, WebSocket.M_bind. cbv beta iota.
  cbn [WebSocket.nonce WebSocket.set_trace WebSocket.protocol_set].
  rewrite Hacc. destruct (decide _) as [_|]; [|contradiction].
  change (WebSocket.protocol_set (WebSocket.set_trace _ w)) with (WebSocket.protocol_set w).
  unfold reply_accepted in Hreply.
  assert (WebSocket.set_socket head
            (WebSocket.set_trace
               (WebSocket.trace w ++ [WebSocket.Emit (WebSocket.Upgrade response)]) w)
          = (WebSocket.set_trace
               (WebSocket.trace w
                ++ WebSocket.Emit (WebSocket.Upgrade response)
                   :: (if 0 <? len head then [WebSocket.SocketUnshift head] else [])
                   ++ [WebSocket.SetState WebSocket.OPEN; WebSocket.Emit WebSocket.Open])
               (WebSocket.set_state WebSocket.OPEN (WebSocket.set_socket_field true w)),
             Ok tt)) as Hopen
      by (rewrite Hset; cbn; rewrite <- app_assoc; reflexivity).
  destruct (WebSocket.sec_websocket_protocol response) as [[|c p]|].
  - rewrite bool_decide_eq_true_2 by (rewrite Hreply; apply size_empty). exact Hopen.
  - rewrite bool_decide_eq_false_2.
    + rewrite bool_decide_eq_true_2 by exact Hreply. exact Hopen.
    + intros Hs. apply size_empty_iff in Hs. apply (Hs (String c p)) in Hreply.
      exact (not_elem_of_empty _ Hreply).
  - rewrite bool_decide_eq_true_2 by (rewrite Hreply; apply size_empty). exact Hopen.
Qed.

End Upgrade.

Lemma upgrade_with_wrong_accept_fails_witness :
  let response := WebSocket.mkResponse "101" "Switching Protocols" None (Some "chat"%string) in
  let w := WebSocket.mk {["chat"%string]} "bm9uY2U=" None false false WebSocket.CONNECTING
             1006 (WebSocket.Str "") [] [] in
  WebSocket.req_on_upgrade (fun s => s) response [1; 2] (w true)
  = (WebSocket.set_trace
       [WebSocket.Emit (WebSocket.Upgrade response); WebSocket.ReqDestroy;
        WebSocket.SetState WebSocket.CLOSING;
        WebSocket.Emit (WebSocket.Error "sec-websocket-accept header is not valid.");
        WebSocket.SetState WebSocket.CLOSED;
        WebSocket.Emit (WebSocket.Close 1006 (WebSocket.Str ""))]
       (WebSocket.set_state WebSocket.CLOSED (WebSocket.set_req_destroyed true (w true))),
     Ok tt)
  /\ WebSocket.req_on_upgrade (fun s => s) response [1; 2] (w false)
     = (WebSocket.set_trace
          [WebSocket.Emit (WebSocket.Upgrade response); WebSocket.ReqDestroy;
           WebSocket.SetState WebSocket.CLOSING;
           WebSocket.Emit (WebSocket.Error "sec-websocket-accept header is not valid.")]
          (WebSocket.set_state WebSocket.CLOSING (WebSocket.set_req_destroyed true (w false))),
        Throw "sec-websocket-accept header is not valid.").
Proof.
  split.
  - apply (upgrade_with_wrong_accept_fails (fun s => s)
             (WebSocket.mk {["chat"%string]} "bm9uY2U=" None false false WebSocket.CONNECTING
                1006 (WebSocket.Str "") [] [] true)
             (WebSocket.mkResponse "101" "Switching Protocols" None (Some "chat"%string))
             [1; 2]).
    discriminate.
  - apply (upgrade_with_wrong_accept_fails (fun s => s)
             (WebSocket.mk {["chat"%string]} "bm9uY2U=" None false false WebSocket.CONNECTING
                1006 (WebSocket.Str "") [] [] false)
             (WebSocket.mkResponse "101" "Switching Protocols" None (Some "chat"%string))
             [1; 2]).
    discriminate.
Defined.

(** ** The order of the states *)

(** What comes after [m] leaves the state that [m] gave. *)
Lemma bind_keeps_state {A B} (m : WebSocket.M A) (f : A -> WebSocket.M B)
    (w : WebSocket.WebSocket) :
  (forall a, Steps.keeps_state (f a)) ->
  WebSocket.state ((m ≫= f) w).1 = WebSocket.state (m w).1.
Proof.
  intros Hf. unfold mbind, WebSocket.M_bind.
  destruct (m w) as [w1 [a|msg|]]; [|reflexivity|reflexivity].
  destruct (Hf a w1) as [Hs _]. exact Hs.
Qed.

(** In state OPEN, [close] assigns CLOSING, and nothing after that
    assigns a state. *)
Lemma close_open_state (code : Z) (reason : string) (random : Z -> Z)
    (w : WebSocket.WebSocket) :
  WebSocket.state w = WebSocket.OPEN ->
  WebSocket.state (WebSocket.close code reason random w).1 = WebSocket.CLOSING.
Proof.
  intros Hst.
  unfold WebSocket.close. unfold mbind at 1. unfold WebSocket.M_bind at 1.
  unfold WebSocket.get at 1. rewrite Hst.
  cbn [Z.eqb WebSocket.OPEN WebSocket.CLOSED WebSocket.CONNECTING WebSocket.CLOSING Pos.eqb].
  rewrite bind_keeps_state; [reflexivity|].
  WebSocketTheory.keeps_with ltac:(apply WebSocketTheory.keeps_socket_write).
Qed.

(** X19.  The order of the states CONNECTING, OPEN, CLOSING, CLOSED.
    Whatever the owner calls and whatever the socket or the request reports,
    the state stays one of the four and none of them opens a connection
    (only an accepted 'upgrade' does).  The state after it is the state
    before it or a later one, with one exception: a timeout or an error of
    the request that fails the handshake on a connection that is CLOSED and
    has no listener for 'error' leaves it CLOSING, because the 'error' event
    throws before CLOSED is assigned again. *)
Theorem state_advances_unless_late_failure (w : WebSocket.WebSocket) (i : input)
    (random : Z -> Z) :
  WebSocket.CONNECTING <= WebSocket.state w <= WebSocket.CLOSED ->
  let w' := (handle i random w).1 in
  WebSocket.CONNECTING <= WebSocket.state w' <= WebSocket.CLOSED
  /\ (WebSocket.state w' = WebSocket.OPEN -> WebSocket.state w = WebSocket.OPEN)
  /\ (WebSocket.state w' < WebSocket.state w
      <-> WebSocket.state w = WebSocket.CLOSED /\ fails_handshake i w = true
          /\ WebSocket.error_listener w = false)
  /\ (WebSocket.state w' < WebSocket.state w -> WebSocket.state w' = WebSocket.CLOSING).
Proof.
  intros Hst w'.
  assert (forall m : WebSocket.M unit, Steps.keeps_state m ->
          WebSocket.state (m w).1 = WebSocket.state w) as Hkeep.
  { intros m Hm. destruct (Hm w) as (Hs & _). exact Hs. }
  assert (forall s : Z, fails_handshake i w = false ->
            WebSocket.state w <= s <= WebSocket.CLOSED ->
            (s = WebSocket.OPEN -> WebSocket.state w = WebSocket.OPEN) ->
            WebSocket.CONNECTING <= s <= WebSocket.CLOSED
            /\ (s = WebSocket.OPEN -> WebSocket.state w = WebSocket.OPEN)
            /\ (s < WebSocket.state w
                <-> WebSocket.state w = WebSocket.CLOSED /\ fails_handshake i w = true
                    /\ WebSocket.error_listener w = false)
            /\ (s < WebSocket.state w -> s = WebSocket.CLOSING)) as Hup.
  { intros s Hf Hs Ho. rewrite Hf. unfold WebSocket.CONNECTING, WebSocket.CLOSED in *.
    split; [lia|]. split; [exact Ho|]. split; [|lia].
    split; [lia|]. intros (_ & ? & _). discriminate. }
  assert (forall s : Z, fails_handshake i w = true ->
            s = (if WebSocket.error_listener w then WebSocket.CLOSED else WebSocket.CLOSING) ->
            WebSocket.CONNECTING <= s <= WebSocket.CLOSED
            /\ (s = WebSocket.OPEN -> WebSocket.state w = WebSocket.OPEN)
            /\ (s < WebSocket.state w
                <-> WebSocket.state w = WebSocket.CLOSED /\ fails_handshake i w = true
                    /\ WebSocket.error_listener w = false)
            /\ (s < WebSocket.state w -> s = WebSocket.CLOSING)) as Hfail.
  { intros s Hf ->. rewrite Hf.
    unfold WebSocket.CONNECTING, WebSocket.CLOSED, WebSocket.CLOSING, WebSocket.OPEN in *.
    destruct (WebSocket.error_listener w).
    - split; [lia|]. split; [discriminate|]. split; [|lia].
      split; [lia|]. intros (_ & _ & ?). discriminate.
    - split; [lia|]. split; [discriminate|]. split; [|reflexivity].
      split; [intros; repeat split; lia|]. intros (-> & _). lia. }
  assert (forall description (v : WebSocket.WebSocket),
            WebSocket.error_listener v = WebSocket.error_listener w ->
            WebSocket.state (WebSocket.handshake_failed description v).1
            = if WebSocket.error_listener w then WebSocket.CLOSED else WebSocket.CLOSING)
    as Hhf.
  { intros description v Hv. rewrite WebSocketTheory.handshake_failed_run, Hv.
    destruct (WebSocket.error_listener w); reflexivity. }
  unfold WebSocket.CONNECTING, WebSocket.CLOSED in Hst.
  subst w'. destruct i as [code reason|data|data|data|data| | |error]; cbn [handle].
  - apply Hup; [reflexivity| |].
    + destruct (Z.eq_dec (WebSocket.state w) 1) as [E1|E1].
      { rewrite (close_open_state code reason random w E1), E1.
        unfold WebSocket.CLOSING, WebSocket.CLOSED, WebSocket.OPEN. lia. }
      remember (WebSocket.close code reason random w) as r eqn:Hr.
      unfold WebSocket.close in Hr. unfold mbind at 1 in Hr.
      unfold WebSocket.M_bind at 1 in Hr. unfold WebSocket.get at 1 in Hr.
      unfold WebSocket.CLOSED, WebSocket.CONNECTING, WebSocket.CLOSING, WebSocket.OPEN in *.
      destruct (WebSocket.state w =? 3) eqn:E3; [subst r; cbn; lia|].
      destruct (WebSocket.state w =? 0) eqn:E0.
      { subst r. rewrite (Hhf _ w eq_refl).
        destruct (WebSocket.error_listener w); lia. }
      destruct (WebSocket.state w =? 2) eqn:E2; [|lia].
      subst r. rewrite (Hkeep _ WebSocketTheory.keeps_socket_end). lia.
    + destruct (Z.eq_dec (WebSocket.state w) 1) as [E1|E1]; [tauto|].
      remember (WebSocket.close code reason random w) as r eqn:Hr.
      unfold WebSocket.close in Hr. unfold mbind at 1 in Hr.
      unfold WebSocket.M_bind at 1 in Hr. unfold WebSocket.get at 1 in Hr.
      unfold WebSocket.CLOSED, WebSocket.CONNECTING, WebSocket.CLOSING, WebSocket.OPEN in *.
      destruct (WebSocket.state w =? 3) eqn:E3; [subst r; cbn; lia|].
      destruct (WebSocket.state w =? 0) eqn:E0.
      { subst r. rewrite (Hhf _ w eq_refl).
        destruct (WebSocket.error_listener w); discriminate. }
      destruct (WebSocket.state w =? 2) eqn:E2; [|lia].
      subst r. rewrite (Hkeep _ WebSocketTheory.keeps_socket_end). lia.
  - rewrite (Hkeep _ (WebSocketTheory.keeps_send data random)).
    apply Hup; [reflexivity|unfold WebSocket.CLOSED; lia|tauto].
  - rewrite (Hkeep _ (WebSocketTheory.keeps_ping data random)).
    apply Hup; [reflexivity|unfold WebSocket.CLOSED; lia|tauto].
  - rewrite (Hkeep _ (WebSocketTheory.keeps_pong data random)).
    apply Hup; [reflexivity|unfold WebSocket.CLOSED; lia|tauto].
  - rewrite (Hkeep _ (WebSocketTheory.keeps_socket_on_data data random)).
    apply Hup; [reflexivity|unfold WebSocket.CLOSED; lia|tauto].
  - unfold WebSocket.socket_on_close. rewrite WebSocketTheory.emit_close_run. cbn.
    apply Hup; [reflexivity|unfold WebSocket.CLOSED; lia|].
    unfold WebSocket.CLOSED, WebSocket.OPEN. discriminate.
  - unfold WebSocket.req_on_timeout, WebSocket.get, mbind, WebSocket.M_bind.
    cbn [fails_handshake] in Hup, Hfail |- *.
    destruct (WebSocket.timeout w) as [ms|]; [destruct (ms =? 0)|].
    + apply Hup; [reflexivity|cbn; unfold WebSocket.CLOSED; lia|cbn; tauto].
    + apply Hfail; [reflexivity|]. apply Hhf. reflexivity.
    + apply Hup; [reflexivity|cbn; unfold WebSocket.CLOSED; lia|cbn; tauto].
  - unfold WebSocket.req_on_error, WebSocket.get, mbind, WebSocket.M_bind.
    cbn [fails_handshake] in Hup, Hfail |- *.
    destruct (WebSocket.req_destroyed w).
    + apply Hup; [reflexivity|cbn; unfold WebSocket.CLOSED; lia|cbn; tauto].
    + unfold WebSocket.log. unfold WebSocket.put. cbv beta iota.
      apply Hfail; [reflexivity|].
      rewrite WebSocketTheory.emit_error_and_close_run. cbn.
      destruct (WebSocket.error_listener w); reflexivity.
Qed.

Lemma state_advances_unless_late_failure_witness :
  let address := URL.mk "ws:" "" "" "example.org" "" "/" "" in
  let options := Some (WebSocket.mkOption None ∅ None (Some 1000)) in
  let accepted := WebSocket.mkResponse "101" "Switching Protocols"
                    (Some "bm9uY2U=258EAFA5-E914-47DA-95CA-C5AB0DC85B11"%string) None in
  exists client w0,
    WebSocket.constructor address WebSocket.NoProtocols options "bm9uY2U=" = Ok (client, w0)
    /\ let w := ((WebSocket.req_on_upgrade (fun s => s) accepted [] ;;
                  WebSocket.socket_on_close) w0).1 in
       let w' := (handle Req_timeout (fun _ => 0) w).1 in
       WebSocket.state w = WebSocket.CLOSED
       /\ WebSocket.state w' = WebSocket.CLOSING
       /\ (WebSocket.state w' < WebSocket.state w
           <-> WebSocket.state w = WebSocket.CLOSED /\ fails_handshake Req_timeout w = true
               /\ WebSocket.error_listener w = false).
Proof.
  cbv zeta. eexists _, _. split; [vm_compute; reflexivity|].
  split; [reflexivity|]. split; [reflexivity|].
  refine (proj1 (proj2 (proj2 (state_advances_unless_late_failure _
                                 Req_timeout (fun _ => 0) _)))).
  vm_compute. split; discriminate.
Defined.

(** ** The constructor *)

Lemma add_protocols_ok (protocols : list string) (acc : gset string) :
  Forall (fun p => protocol_regex_test p = true) protocols -> NoDup protocols ->
  (forall p, p ∈ protocols -> p ∉ acc) ->
  WebSocket.add_protocols protocols acc = Ok (list_to_set protocols ∪ acc).
Proof.
  revert acc. induction protocols as [|p protocols IH]; intros acc Hv Hn Hd.
  - cbn. f_equal. apply leibniz_equiv. intros x. rewrite elem_of_union.
    split; [intros H; right; exact H|intros [H|H]; [|exact H]].
    exfalso. exact (not_elem_of_empty _ H).
  - inversion Hv as [|? ? Hp Hv']; subst. inversion Hn as [|? ? Hnp Hn']; subst.
    cbn [WebSocket.add_protocols]. rewrite Hp. cbn [negb orb].
    rewrite bool_decide_eq_false_2 by (apply Hd; left).
    rewrite IH; [|exact Hv'|exact Hn'|].
    + f_equal. apply leibniz_equiv. intros x. cbn [list_to_set foldr].
      rewrite !elem_of_union. tauto.
    + intros q Hq Hin. apply elem_of_union in Hin as [Hin|Hin].
      * apply elem_of_singleton in Hin. subst q. contradiction.
      * apply (Hd q); [right; exact Hq|exact Hin].
Qed.

Lemma add_protocols_throws (protocols : list string) (acc : gset string) :
  ~ (Forall (fun p => protocol_regex_test p = true) protocols /\ NoDup protocols
     /\ forall p, p ∈ protocols -> p ∉ acc) ->
  WebSocket.add_protocols protocols acc
  = Throw "subprotocol cannot be duplicated or invalid.".
Proof.
  revert acc. induction protocols as [|p protocols IH]; intros acc Hbad.
  - exfalso. apply Hbad. split; [constructor|]. split; [constructor|].
    intros p Hp. inversion Hp.
  - cbn [WebSocket.add_protocols].
    destruct (protocol_regex_test p) eqn:Hp; [|reflexivity]. cbn [negb orb].
    destruct (bool_decide (p ∈ acc)) eqn:Hin; [reflexivity|].
    apply bool_decide_eq_false in Hin.
    apply IH. intros (Hv & Hn & Hd). apply Hbad.
    split; [constructor; assumption|]. split.
    + constructor; [|exact Hn]. intros Hpin. apply (Hd p Hpin).
      apply elem_of_union. left. apply elem_of_singleton. reflexivity.
    + intros q Hq. apply elem_of_cons in Hq as [->|Hq]; [exact Hin|].
      intros Hqa. apply (Hd q Hq). apply elem_of_union. right. exact Hqa.
Qed.

(** X20.  The check of the subprotocols in the constructor, for an address
    that is a URL.  When a subprotocol asked for is not a token (one or more
    of the characters of the pattern) or comes twice, the constructor throws
    before any request is made; when all are tokens and none comes twice, it
    does not throw that error.  Whenever the arguments of the request are
    built, the subprotocols have passed the check, the set kept for the
    handshake holds them, and the request names them, joined by commas, in
    [Sec-WebSocket-Protocol]. *)
Theorem constructor_checks_subprotocols (address : URL.URL)
    (protocols : WebSocket.protocols_arg) (options : option WebSocket.SocketOption)
    (nonce : string) :
  let l := protocol_list protocols in
  let valid := Forall (fun p => protocol_regex_test p = true) l /\ NoDup l in
  (~ valid ->
   WebSocket.constructor address protocols options nonce
   = Throw "subprotocol cannot be duplicated or invalid.")
  /\ (valid ->
      WebSocket.constructor address protocols options nonce
      <> Throw "subprotocol cannot be duplicated or invalid.")
  /\ (forall client w,
        WebSocket.constructor address protocols options nonce = Ok (client, w) ->
        valid
        /\ WebSocket.protocol_set w = list_to_set l
        /\ (l <> [] ->
            Client.headers client !! "Sec-WebSocket-Protocol"%string
            = Some (String.concat "," l))).
Proof.
  intros l valid.
  assert (l = match protocols with
              | WebSocket.OneProtocol p => [p]
              | WebSocket.NoProtocols => []
              | WebSocket.Protocols l => l
              end) as Hl by (destruct protocols; reflexivity).
  assert (~ valid ->
          WebSocket.constructor address protocols options nonce
          = Throw "subprotocol cannot be duplicated or invalid.") as Hthrows.
  { intros Hbad. unfold WebSocket.constructor. rewrite <- Hl. clearbody l. clear Hl.
    destruct l as [|p l'].
    - exfalso. apply Hbad. split; constructor.
    - rewrite (add_protocols_throws (p :: l') ∅).
      + reflexivity.
      + intros (Hv & Hn & _). apply Hbad. split; assumption. }
  assert (valid ->
          exists client w,
            WebSocket.constructor address protocols options nonce = Ok (client, w)
            /\ WebSocket.protocol_set w = list_to_set l
            /\ (l <> [] ->
                Client.headers client !! "Sec-WebSocket-Protocol"%string
                = Some (String.concat "," l))) as Hbuilt.
  { intros [Hv Hn]. unfold WebSocket.constructor. rewrite <- Hl. clearbody l. clear Hl.
    destruct l as [|p l'].
    - cbn. destruct (bool_decide (URL.protocol address = "ws+unix:"%string));
        eexists _, _; (split; [reflexivity|]); (split; [reflexivity|]); intros H; contradiction.
    - rewrite (add_protocols_ok (p :: l') ∅ Hv Hn)
        by (intros q _; apply not_elem_of_empty).
      cbn [length Nat.ltb Nat.leb mbind result_bind].
      destruct (bool_decide (URL.protocol address = "ws+unix:"%string));
        eexists _, _; (split; [reflexivity|]); cbn [WebSocket.protocol_set Client.headers];
        (split; [apply leibniz_equiv; intros x; rewrite elem_of_union;
                 split; [intros [H|H]; [exact H|exfalso; exact (not_elem_of_empty _ H)]
                        |intros H; left; exact H]
                |intros _; apply lookup_insert_eq]). }
  assert (valid \/ ~ valid) as Hdec.
  { unfold valid.
    destruct (decide (Forall (fun p => protocol_regex_test p = true) l)) as [Hv|Hv];
      [|right; tauto].
    destruct (decide (NoDup l)) as [Hn|Hn]; [left|right]; tauto. }
  split; [exact Hthrows|]. split.
  - intros Hv. destruct (Hbuilt Hv) as (client & w & -> & _). discriminate.
  - intros client w Hc. destruct Hdec as [Hv|Hbad].
    + split; [exact Hv|]. destruct (Hbuilt Hv) as (client' & w' & Hc' & Hp & Hh).
      rewrite Hc in Hc'. injection Hc' as <- <-. split; assumption.
    + rewrite (Hthrows Hbad) in Hc. discriminate.
Qed.

(** X21.  The port of the request is 443 for [wss:] and for every URL that
    names a port, whatever port it names, and 80 otherwise: the port of the
    URL itself is never used. *)
Theorem request_port_is_80_or_443 (address : URL.URL) (protocols : WebSocket.protocols_arg)
    (options : option WebSocket.SocketOption) (nonce : string)
    (client : Client.ClientRequestArgs) (w : WebSocket.WebSocket) :
  WebSocket.constructor address protocols options nonce = Ok (client, w) ->
  (URL.port address <> ""%string \/ URL.protocol address = "wss:"%string ->
   Client.port client = 443)
  /\ (URL.port address = ""%string -> URL.protocol address <> "wss:"%string ->
      Client.port client = 80)
  /\ Client.host client = URL.hostname address.
Proof.
  intros Hc. unfold WebSocket.constructor in Hc.
  destruct (if (0 <? length _)%nat then _ else _) as [[ps hs]| |]; cbn in Hc;
    try discriminate.
  assert (Client.port client
          = if negb (bool_decide (URL.port address = ""%string))
               || bool_decide (URL.protocol address = "wss:"%string)
            then 443 else 80) as Hport.
  { destruct (bool_decide (URL.protocol address = "ws+unix:"%string));
      injection Hc as <- _; reflexivity. }
  assert (Client.host client = URL.hostname address) as Hhost.
  { destruct (bool_decide (URL.protocol address = "ws+unix:"%string));
      injection Hc as <- _; reflexivity. }
  rewrite Hport. split; [|split; [|exact Hhost]].
  - intros [Hp|Hs].
    + rewrite (bool_decide_eq_false_2 _ Hp). reflexivity.
    + rewrite (bool_decide_eq_true_2 _ Hs). destruct (negb _); reflexivity.
  - intros Hp Hs. rewrite (bool_decide_eq_true_2 _ Hp), (bool_decide_eq_false_2 _ Hs).
    reflexivity.
Qed.

Lemma request_port_is_80_or_443_witness :
  exists client w,
    WebSocket.constructor (URL.mk "ws:" "" "" "example.org" "8080" "/" "")
      WebSocket.NoProtocols None "bm9uY2U=" = Ok (client, w)
    /\ Client.port client = 443.
Proof.
  eexists _, _. split; [vm_compute; reflexivity|].
  refine (proj1 (request_port_is_80_or_443
                   (URL.mk "ws:" "" "" "example.org" "8080" "/" "")
                   WebSocket.NoProtocols None "bm9uY2U=" _ _ _) _).
  - vm_compute. reflexivity.
  - left. discriminate.
Defined.

(** X22.  The headers of the request.  A header given in [options.headers]
    replaces the one that the constructor sets by itself ([Upgrade],
    [Connection], [Sec-WebSocket-Version], [Sec-WebSocket-Key]), the list of
    subprotocols replaces a [Sec-WebSocket-Protocol] given there, and no
    other header is added: [options.origin] changes nothing of what the
    constructor returns. *)
Theorem request_headers (address : URL.URL) (protocols : WebSocket.protocols_arg)
    (options : option WebSocket.SocketOption) (nonce : string)
    (client : Client.ClientRequestArgs) (w : WebSocket.WebSocket) :
  WebSocket.constructor address protocols options nonce = Ok (client, w) ->
  let given := default ∅ (WebSocket.headers <$> options) in
  let named := fun k : string =>
                 k = "Sec-WebSocket-Protocol"%string /\ protocol_list protocols <> [] in
  (forall k v, given !! k = Some v -> ~ named k -> Client.headers client !! k = Some v)
  /\ (forall k, given !! k = None -> ~ named k ->
      Client.headers client !! k = fixed_headers (version_of options) nonce !! k)
  /\ (forall k, named k ->
      Client.headers client !! k = Some (String.concat "," (protocol_list protocols)))
  /\ WebSocket.constructor address protocols (without_origin options) nonce = Ok (client, w).
Proof.
  intros Hc given named.
  assert (WebSocket.constructor address protocols (without_origin options) nonce
          = WebSocket.constructor address protocols options nonce) as Horigin
      by (destruct options; reflexivity).
  rewrite Horigin. clear Horigin.
  unfold WebSocket.constructor in Hc.
  change (match protocols with
          | WebSocket.NoProtocols => []
          | WebSocket.OneProtocol protocol => [protocol]
          | WebSocket.Protocols l => l
          end) with (protocol_list protocols) in Hc.
  fold given in Hc.
  change (match options ≫= WebSocket.versions with
          | Some v => if v =? 0 then 13 else v
          | None => 13
          end) with (version_of options) in Hc.
  change ({[ "Upgrade"%string := "websocket"%string; "Connection"%string := "Upgrade"%string;
             "Sec-WebSocket-Version"%string := pretty (version_of options);
             "Sec-WebSocket-Key"%string := nonce ]})
    with (fixed_headers (version_of options) nonce) in Hc.
  set (base := given ∪ fixed_headers (version_of options) nonce) in Hc.
  assert (Client.headers client
          = if (0 <? length (protocol_list protocols))%nat
            then <["Sec-WebSocket-Protocol"%string
                   := String.concat "," (protocol_list protocols)]> base
            else base) as Hh.
  { destruct (0 <? length (protocol_list protocols))%nat.
    - destruct (WebSocket.add_protocols _ _) as [ps| |]; cbn in Hc; try discriminate.
      destruct (bool_decide (URL.protocol address = "ws+unix:"%string));
        injection Hc as <- _; reflexivity.
    - cbn in Hc. destruct (bool_decide (URL.protocol address = "ws+unix:"%string));
        injection Hc as <- _; reflexivity. }
  assert (forall k, ~ named k -> Client.headers client !! k = base !! k) as Hother.
  { intros k Hk. rewrite Hh. destruct (protocol_list protocols) as [|p l'] eqn:El.
    - reflexivity.
    - cbn [length Nat.ltb Nat.leb]. apply lookup_insert_ne.
      intros <-. apply Hk. split; [reflexivity|discriminate]. }
  split; [|split; [|split]].
  - intros k v Hg Hk. rewrite (Hother k Hk). unfold base.
    apply lookup_union_Some_l. exact Hg.
  - intros k Hg Hk. rewrite (Hother k Hk). unfold base.
    apply lookup_union_r. exact Hg.
  - intros k [-> Hne]. rewrite Hh. destruct (protocol_list protocols) as [|p l'].
    + contradiction.
    + cbn [length Nat.ltb Nat.leb]. apply lookup_insert_eq.
  - unfold WebSocket.constructor.
    change (match protocols with
            | WebSocket.NoProtocols => []
            | WebSocket.OneProtocol protocol => [protocol]
            | WebSocket.Protocols l => l
            end) with (protocol_list protocols).
    exact Hc.
Qed.

Lemma request_headers_witness :
  let options := Some (WebSocket.mkOption (Some 8) {[ "Upgrade"%string := "h2c"%string ]}
                         (Some "https://example.org"%string) None) in
  exists client w,
    WebSocket.constructor (URL.mk "ws:" "" "" "example.org" "" "/" "")
      (WebSocket.OneProtocol "chat") options "bm9uY2U=" = Ok (client, w)
    /\ Client.headers client !! "Upgrade"%string = Some "h2c"%string.
Proof.
  cbv zeta. eexists _, _. split; [vm_compute; reflexivity|].
  refine (proj1 (request_headers (URL.mk "ws:" "" "" "example.org" "" "/" "")
                   (WebSocket.OneProtocol "chat")
                   (Some (WebSocket.mkOption (Some 8) {[ "Upgrade"%string := "h2c"%string ]}
                            (Some "https://example.org"%string) None))
                   "bm9uY2U=" _ _ _) _ _ _ _).
  - vm_compute. reflexivity.
  - apply lookup_insert_eq.
  - intros [H _]. discriminate H.
Defined.

(** ** From the handshake to the 'close' event *)

(** X23.  A session, from the constructor on: the server accepts the
    upgrade (right [Sec-WebSocket-Accept], accepted reply), the owner sends
    a text and closes, and the socket closes.  The owner gets 'upgrade',
    'open' and, at the end, 'close' with the code and the reason it gave;
    the socket, adopted at the upgrade, gets a [head] that is not empty put
    back and then exactly two frames, the text frame and the close frame,
    which the constructor reads back as the text and as the code and the
    reason; the states assigned are OPEN, CLOSING and CLOSED, in this
    order. *)
Theorem session_from_upgrade_to_close (sha1_base64 : string -> string) (address : URL.URL)
    (protocols : WebSocket.protocols_arg) (options : option WebSocket.SocketOption)
    (nonce : string) (client : Client.ClientRequestArgs) (w0 : WebSocket.WebSocket)
    (response : WebSocket.IncomingMessage) (head : Buffer) (text : string)
    (code : Z) (reason : string) (random : Z -> Z) :
  WebSocket.constructor address protocols options nonce = Ok (client, w0) ->
  WebSocket.sec_websocket_accept response
  = Some (sha1_base64 (nonce +:+ "258EAFA5-E914-47DA-95CA-C5AB0DC85B11")) ->
  reply_accepted w0 response ->
  len (utf8 text) <= MAX_LENGTH -> len (utf8 reason) <= 123 -> 0 <= code < 2 ^ 16 ->
  let session :=
    WebSocket.req_on_upgrade sha1_base64 response head ;;
    WebSocket.send (WebSocket.String_ text) random ;;
    WebSocket.close code reason random ;;
    WebSocket.socket_on_close in
  exists sent closing w',
    session w0 = (w', Ok tt)
    /\ WebSocket.state w' = WebSocket.CLOSED
    /\ WebSocket.trace w'
       = WebSocket.Emit (WebSocket.Upgrade response)
         :: (if 0 <? len head then [WebSocket.SocketUnshift head] else [])
         ++ [WebSocket.SetState WebSocket.OPEN; WebSocket.Emit WebSocket.Open;
             WebSocket.SocketWrite sent;
             WebSocket.SetState WebSocket.CLOSING; WebSocket.SocketWrite closing;
             WebSocket.SetState WebSocket.CLOSED;
             WebSocket.Emit (WebSocket.Close code (WebSocket.Str reason))]
    /\ decoded (Packet.constructor sent) true false 1 true (utf8 text) None
    /\ decoded (Packet.constructor closing) true false 8 true (utf8 reason) (Some code).
Proof.
  intros Hc Hacc Hreply Htext Hreason Hcode session.
  destruct (constructor_connection _ _ _ _ _ _ Hc) as (Hn & _ & _ & _ & Ht & _).
  rewrite <- Hn in Hacc.
  pose proof (upgrade_accepted_run sha1_base64 w0 response head Hacc Hreply) as Hup.
  rewrite Ht in Hup. cbn [app] in Hup.
  set (w1 := WebSocket.set_trace _ _) in Hup.
  destruct (send_run (WebSocket.String_ text) random w1 (utf8 text))
    as (r & w1' & Hh1 & -> & _ & Hsend);
    [discriminate|discriminate|reflexivity|].
  destruct (masked_frame_decodes 1 r random _ (utf8 text) Hh1 (utf8_bytes text) Htext
              ltac:(lia) ltac:(lia)) as (sent & Hf & Hdec & _).
  rewrite (frame_and_write_run _ _ _ _ _ _ Hf) in Hsend.
  set (w2 := WebSocket.set_trace _ _) in Hsend.
  destruct (close_run code reason random w2 eq_refl Hreason Hcode)
    as (Hclose & closing & Hf2 & Hdec2).
  rewrite (frame_and_write_run _ _ _ _ _ _ Hf2) in Hclose.
  set (w3 := WebSocket.set_trace _ _) in Hclose.
  exists sent, closing. eexists.
  split.
  - unfold session.
    unfold mbind at 1. unfold WebSocket.M_bind at 1. rewrite Hup.
    unfold mbind at 1. unfold WebSocket.M_bind at 1. rewrite Hsend.
    unfold mbind at 1. unfold WebSocket.M_bind at 1. rewrite Hclose.
    unfold WebSocket.socket_on_close. apply WebSocketTheory.emit_close_run.
  - split; [reflexivity|]. split; [|split; [apply Hdec; lia|exact Hdec2]].
    cbn. unfold written. cbn. rewrite <- !app_assoc. reflexivity.
Qed.

Lemma session_from_upgrade_to_close_witness :
  let address := URL.mk "ws:" "" "" "example.org" "" "/chat" "" in
  let response := WebSocket.mkResponse "101" "Switching Protocols"
                    (Some "bm9uY2U=258EAFA5-E914-47DA-95CA-C5AB0DC85B11") None in
  exists client w0 sent closing w',
    WebSocket.constructor address WebSocket.NoProtocols None "bm9uY2U=" = Ok (client, w0)
    /\ (WebSocket.req_on_upgrade (fun s => s) response [] ;;
        WebSocket.send (WebSocket.String_ "Hi") (fun _ => 7) ;;
        WebSocket.close 1000 "bye" (fun _ => 7) ;;
        WebSocket.socket_on_close) w0 = (w', Ok tt)
    /\ WebSocket.state w' = WebSocket.CLOSED
    /\ WebSocket.trace w'
       = [WebSocket.Emit (WebSocket.Upgrade response);
          WebSocket.SetState WebSocket.OPEN; WebSocket.Emit WebSocket.Open;
          WebSocket.SocketWrite sent;
          WebSocket.SetState WebSocket.CLOSING; WebSocket.SocketWrite closing;
          WebSocket.SetState WebSocket.CLOSED;
          WebSocket.Emit (WebSocket.Close 1000 (WebSocket.Str "bye"))]
    /\ decoded (Packet.constructor sent) true false 1 true (utf8 "Hi") None
    /\ decoded (Packet.constructor closing) true false 8 true (utf8 "bye") (Some 1000).
Proof.
  cbv zeta. eexists _, _. 
  assert (WebSocket.constructor (URL.mk "ws:" "" "" "example.org" "" "/chat" "")
            WebSocket.NoProtocols None "bm9uY2U="
          = Ok (Client.mk 80 "example.org"
                  (fixed_headers 13 "bm9uY2U=") (Some "/chat"%string) None None None,
                WebSocket.mk ∅ "bm9uY2U=" None false false WebSocket.CONNECTING 1006
                  (WebSocket.Str "") [] [] false)) as Hc by reflexivity.
  destruct (session_from_upgrade_to_close (fun s => s) _ _ _ _ _ _
              (WebSocket.mkResponse "101" "Switching Protocols"
                 (Some "bm9uY2U=258EAFA5-E914-47DA-95CA-C5AB0DC85B11") None)
              [] "Hi" 1000 "bye" (fun _ => 7) Hc)
    as (sent & closing & w' & H).
  - reflexivity.
  - reflexivity.
  - vm_compute. discriminate.
  - vm_compute. discriminate.
  - split; [lia|reflexivity].
  - exists sent, closing, w'. split; [exact Hc|exact H].
Defined.
